(** * Course monitoring bot: change detection, snapshot and cycle orchestration

    A shallow embedding of [main.js]: the JSON catalog store, the content
    scraper's node loop, the thumbnail lookup, the webhook notification, the
    change detector and the monitoring cycle ([CourseMonitor.check]), with the
    properties the specification states about them.

    Strings are UTF-8 byte sequences, as the string literals of this file
    are.  The automation driver, the disk and the webhook are collaborators:
    what they answer is an input of the model ([Env]), what the program does
    to them is recorded in [World]. *)

From stdpp Require Import gmap strings list fin_maps pretty sorting.
From Stdlib Require Import ZArith Ascii.

Local Open Scope string_scope.
Local Open Scope list_scope.

(** ** Constants *)

(** [EVENT_TYPES] *)
Inductive EventType := NEW | UPDATE.

(** [CONTENT_TYPES]: the four labels a scraped item can carry.  The source
    compares the label strings; the labels are pairwise distinct
    ([CONTENT_TYPES_label_inj]), so comparing constructors is the same test. *)
Inductive ContentType := VIDEO | TEXT | QUIZ | OTHER.

Definition CONTENT_TYPES_label (t : ContentType) : string :=
  match t with
  | VIDEO => "🎥 Vidéo"
  | TEXT => "📄 Lecture"
  | QUIZ => "❓ Quiz"
  | OTHER => "Autre"
  end.

Definition EVENT_TYPES_label (e : EventType) : string :=
  match e with
  | NEW => "NEW"
  | UPDATE => "UPDATE"
  end.

(** [EMBED_COLORS] *)
Definition EMBED_COLORS (e : EventType) : N :=
  match e with
  | NEW => 5763719
  | UPDATE => 16776960
  end%N.

#[global] Instance EventType_eq_dec : EqDecision EventType.
Proof. solve_decision. Defined.

#[global] Instance ContentType_eq_dec : EqDecision ContentType.
Proof. solve_decision. Defined.

(** ** JSON values

    What [JSON.parse] yields.  Numbers are kept as integers: the code only
    ever tests a number for truthiness. *)
#[local] Unset Elimination Schemes.
Inductive JSON :=
| JNull
| JBool (b : bool)
| JNum (z : Z)
| JStr (s : string)
| JArr (elems : list JSON)
| JObj (fields : list (string * JSON)).
#[local] Set Elimination Schemes.

(** JavaScript truthiness of a parsed value. *)
Definition truthy (v : JSON) : bool :=
  match v with
  | JNull => false
  | JBool b => b
  | JNum z => negb (z =? 0)%Z
  | JStr s => negb (String.eqb s "")
  | JArr _ | JObj _ => true
  end.

(** [a || b] on values that may be [undefined] ([None]). *)
Definition js_or (a b : option JSON) : option JSON :=
  match a with
  | Some v => if truthy v then Some v else b
  | None => b
  end.

(** ** Data model *)

(** A scraped content item, [{ id, title, type, url }]; [image] is the field
    [processActions] adds later ([None] while the field is not set).
    Ids are what [scrapeContent] captures with [\d+], non-empty runs of
    digits ([scraped_ids_are_digits]); the change detector and the snapshot
    take any string. *)
Record Item := {
  item_id : string;
  item_title : string;
  item_type : ContentType;
  item_url : string;
  item_image : option JSON;
}.

(** A catalog entry, [{ title, type }]. *)
Record Stored := {
  stored_title : string;
  stored_type : ContentType;
}.

(** The catalog document, as [JSON.parse] reads it and [JSON.stringify]
    writes it: the own properties of a plain object, from id to entry. *)
Abbreviation Database := (gmap string Stored).

(** The names every plain object inherits from [Object.prototype].  Each
    holds a function, except [__proto__], an accessor for the prototype. *)
Definition Object_prototype : list string :=
  [ "constructor"; "__defineGetter__"; "__defineSetter__"; "hasOwnProperty";
    "__lookupGetter__"; "__lookupSetter__"; "isPrototypeOf";
    "propertyIsEnumerable"; "toString"; "valueOf"; "__proto__";
    "toLocaleString" ].

Definition inherited (key : string) : bool :=
  existsb (String.eqb key) Object_prototype.

(** A catalog object in memory: its own properties and its prototype, which
    is [Object.prototype] ([None]) unless an entry has been assigned to
    [__proto__]. *)
Record PlainObject := {
  own : Database;
  prototype : option Stored;
}.

(** What reading a property of a catalog object gives: an entry, a value of
    another kind (a function, an object or a string, of which only the
    truthiness matters: its [type] is [undefined]), or [undefined]. *)
Inductive Property :=
| Entry (stored : Stored)
| Foreign (is_truthy : bool)
| Undefined.

(** [object[key]]: an own property first, then the prototype chain.  Behind
    an entry used as prototype, [title] and [type] are its two strings (the
    labels of the kinds are not empty) and [__proto__] is the entry itself;
    [Object.prototype] ends the chain. *)
Definition get (object : PlainObject) (key : string) : Property :=
  match own object !! key with
  | Some stored => Entry stored
  | None =>
      match prototype object with
      | Some entry =>
          if String.eqb key "__proto__" then Entry entry
          else if String.eqb key "title"
          then Foreign (negb (String.eqb (stored_title entry) ""))
          else if String.eqb key "type" then Foreign true
          else if inherited key then Foreign true
          else Undefined
      | None => if inherited key then Foreign true else Undefined
      end
  end.

(** [object[key] = value] for an entry [value]: an own property is set or
    created, except that [__proto__], unless it is an own property already,
    goes to the inherited accessor, which replaces the prototype. *)
Definition assign (object : PlainObject) (key : string) (value : Stored)
    : PlainObject :=
  if String.eqb key "__proto__" && bool_decide (own object !! key = None)
  then {| own := own object; prototype := Some value |}
  else {| own := <[ key := value ]> (own object); prototype := prototype object |}.

(** The two ways the program holds a catalog: as the document parsed from
    the file, whose prototype is [Object.prototype], and as the object
    [updateDatabase] builds. *)
Class JSObject (T : Type) := as_object : T → PlainObject.

#[global] Instance parsed : JSObject Database :=
  λ data, {| own := data; prototype := None |}.

#[global] Instance in_memory : JSObject PlainObject := λ object, object.

(** [JSON.stringify(data)]: the document of the own properties. *)
Definition JSON_stringify `{JSObject T} (data : T) : Database :=
  own (as_object data).

(** [!value] and [value.type] on what a property read gave. *)
Definition falsy (value : Property) : bool :=
  match value with
  | Entry _ => false
  | Foreign is_truthy => negb is_truthy
  | Undefined => true
  end.

Definition type_of (value : Property) : option ContentType :=
  match value with
  | Entry stored => Some (stored_type stored)
  | _ => None
  end.

(** An action [{ type, data }].  [data] is a reference to one of the item
    objects of [currentItems], not a copy: it is the position of that object
    in the array. *)
Record Action := {
  act_type : EventType;
  act_data : nat;
}.

#[global] Instance Action_eq_dec : EqDecision Action.
Proof. solve_decision. Defined.

(** [CONFIG]: the values read from the environment ([None] when the variable
    is not set, which JavaScript renders as [undefined]). *)
Record Config := {
  COURSE_BASE_URL : option string;
  DEFAULT_THUMBNAIL : option string;
}.

(** ** Completions, the outside world and the monad of the cycle *)

(** How a call ends: normally with a value, or by throwing an error (kept as
    its message). *)
Inductive Completion (A : Type) :=
| Normal (a : A)
| Throw (error : string).
Arguments Normal {A} a.
Arguments Throw {A} error.

(** A JSON file on disk, as [readJSON] meets it.  A file that parses holds a
    value of the type its only writer, [writeJSON], stores in it. *)
Inductive File (T : Type) :=
| Missing
| Unreadable (error : string)
| Malformed (error : string)
| Holds (data : T).
Arguments Missing {T}.
Arguments Unreadable {T} error.
Arguments Malformed {T} error.
Arguments Holds {T} data.

(** The JSON-LD scripts of a frame: each parses to a value or not at all. *)
Inductive Frame :=
| Detached (error : string)
| Document (scripts : list (option JSON)).

(** What the driver meets when it navigates to an item page. *)
Record Visit := {
  visit_goto : option string;
  visit_frames : list Frame;
}.

(** A child of a title element: a text node or a nested element. *)
Inductive Child :=
| Text (s : string)
| Element (inner : string).

(** A node matched by [SELECTORS.COURSE_ITEM], seen through the three queries
    the loop makes on it. *)
Record Node := {
  node_href : option string;
  node_title : list (list Child);
  node_details : string;
}.

(** The course page: whether the item selector shows up in time, and the
    matched nodes in document order. *)
Record Page := {
  page_wait : option string;
  page_nodes : list Node;
}.

(** The answer of the webhook to a POST. *)
Inductive Reply :=
| Response (status : N)
| NetworkError (message : string).

Definition response_ok (status : N) : bool :=
  ((200 <=? status) && (status <=? 299))%N.

(** What [fs.writeFile] does: it writes the document, or fails and leaves
    some residue behind. *)
Inductive WriteOutcome (T : Type) :=
| Written
| WriteFailed (error : string) (residue : File T).
Arguments Written {T}.
Arguments WriteFailed {T} error residue.

(** The embed sent to the webhook (the timestamp is left out). *)
Record Embed := {
  embed_title : string;
  embed_description : string;
  embed_url : string;
  embed_color : N;
  embed_image : option JSON;
  embed_format : ContentType;
  embed_link : string;
  embed_footer : string;
}.

Record Payload := {
  username : string;
  embeds : list Embed;
}.

(** The answers of the collaborators during one cycle.  The webhook and the
    item pages are indexed by the number of POSTs made so far.  Of the
    authentication the cycle sees the lines it logs and whether it throws
    ([AuthenticationManager] below models it call by call). *)
Record Env := {
  env_launch : option string;
  env_login_log : list (string * string);
  env_login : option string;
  env_course_page : Page;
  env_visit : nat → string → Visit;
  env_webhook : nat → Reply;
  env_write : WriteOutcome Database;
}.

(** What persists and what has been observed: the catalog file, the POSTs
    made to the webhook (oldest first), the console, and the browser. *)
Record World := {
  database_file : File Database;
  requests : list Payload;
  console : list (string * string);
  browser_open : bool;
}.

Definition M (A : Type) : Type := World → Completion A * World.

#[global] Instance M_ret : MRet M := λ A a w, (Normal a, w).

#[global] Instance M_bind : MBind M :=
  λ A B k m w, match m w with
               | (Normal a, w') => k a w'
               | (Throw e, w') => (Throw e, w')
               end.

Definition throw {A} (error : string) : M A := λ w, (Throw error, w).

(** [try { m } catch (error) { handler }] *)
Definition try_catch {A} (m : M A) (handler : string → M A) : M A :=
  λ w, match m w with
       | (Normal a, w') => (Normal a, w')
       | (Throw e, w') => handler e w'
       end.

(** [try { m } finally { cleanup }] *)
Definition try_finally {A} (m : M A) (cleanup : M unit) : M A :=
  λ w, match m w with
       | (r, w') =>
           match cleanup w' with
           | (Normal _, w'') => (r, w'')
           | (Throw e, w'') => (Throw e, w'')
           end
       end.

(** A collaborator call that only succeeds or rejects. *)
Definition reject_on {A} (outcome : option string) (a : A) : M A :=
  match outcome with
  | None => mret a
  | Some e => throw e
  end.

(** ** Utility functions *)

(** [log(level, message)], without the timestamp. *)
Definition log (level message : string) : M unit :=
  λ w, (Normal tt,
        {| database_file := database_file w;
           requests := requests w;
           console := console w ++ [(level, message)];
           browser_open := browser_open w |}).

(** A run of calls of [log]. *)
Fixpoint log_all (lines : list (string * string)) : M unit :=
  match lines with
  | [] => mret tt
  | (level, message) :: rest => log level message;; log_all rest
  end.

(** The [try] block of [readJSON] on a file in a given state. *)
Definition readJSON_try `{Empty T} (file : File T) : M T :=
  match file with
  | Missing => mret ∅
  | Unreadable e => throw e
  | Malformed e => throw e
  | Holds data => mret data
  end.

Definition readJSON `{Empty T} (filepath : string) (file : File T) : M T :=
  try_catch (readJSON_try file)
    (λ error,
       log "WARNING" ("Failed to read " +:+ filepath +:+ ": " +:+ error);;
       mret ∅).

(** [fs.writeFile] of a document on the catalog file. *)
Definition writeFile (outcome : WriteOutcome Database) (data : Database) : M unit :=
  λ w, match outcome with
       | Written =>
           (Normal tt,
            {| database_file := Holds data;
               requests := requests w;
               console := console w;
               browser_open := browser_open w |})
       | WriteFailed e residue =>
           (Throw e,
            {| database_file := residue;
               requests := requests w;
               console := console w;
               browser_open := browser_open w |})
       end.

Definition writeJSON `{JSObject T} (outcome : WriteOutcome Database)
    (filepath : string) (data : T) : M unit :=
  try_catch (writeFile outcome (JSON_stringify data))
    (λ error,
       log "ERROR" ("Failed to write " +:+ filepath +:+ ": " +:+ error);;
       throw error).

Definition DATABASE_FILE : string := "database.json".

Definition get_world : M World := λ w, (Normal w, w).

(** [sleep(ms)]: time is not modelled. *)
Definition sleep : M unit := mret tt.

(** ** String primitives used by the scraper *)

(** [s.includes(sub)] *)
Fixpoint includes (sub s : string) : bool :=
  if String.prefix sub s then true
  else match s with
       | EmptyString => false
       | String _ rest => includes sub rest
       end.

(** [\d] *)
Definition is_digit (c : ascii) : bool :=
  ((48 <=? N_of_ascii c) && (N_of_ascii c <=? 57))%N.

(** The longest run of digits at the head of a string. *)
Fixpoint digits_prefix (s : string) : string :=
  match s with
  | EmptyString => EmptyString
  | String c rest => if is_digit c then String c (digits_prefix rest) else EmptyString
  end.

(** [href.match(/\/(\d+)/)], reduced to its capture group: the digits that
    follow the first slash that has a digit after it. *)
Fixpoint match_id (href : string) : option string :=
  match href with
  | EmptyString => None
  | String c rest =>
      if Ascii.eqb c "/" then
        match digits_prefix rest with
        | EmptyString => match_id rest
        | digits => Some digits
        end
      else match_id rest
  end.

(** The code points [trim] strips, [WhiteSpace] and [LineTerminator]: tab,
    line feed, vertical tab, form feed, carriage return, the space
    separators of Unicode, the line and paragraph separators and the byte
    order mark. *)
Definition white_space_code_points : list N :=
  [ 0x9; 0xA; 0xB; 0xC; 0xD; 0x20; 0xA0; 0x1680;
    0x2000; 0x2001; 0x2002; 0x2003; 0x2004; 0x2005; 0x2006; 0x2007;
    0x2008; 0x2009; 0x200A; 0x2028; 0x2029; 0x202F; 0x205F; 0x3000;
    0xFEFF ]%N.

(** The UTF-8 bytes of a code point of the basic plane. *)
Definition utf8 (code_point : N) : string :=
  let byte (n : N) := ascii_of_N n in
  if (code_point <? 0x80)%N then
    String (byte code_point) ""
  else if (code_point <? 0x800)%N then
    String (byte (0xC0 + code_point / 0x40)%N)
      (String (byte (0x80 + code_point mod 0x40)%N) "")
  else
    String (byte (0xE0 + code_point / 0x1000)%N)
      (String (byte (0x80 + (code_point / 0x40) mod 0x40)%N)
         (String (byte (0x80 + code_point mod 0x40)%N) "")).

Definition white_space : list string := utf8 <$> white_space_code_points.

(** What follows [t] in [s], when [s] begins with [t]. *)
Fixpoint strip_prefix (t s : string) : option string :=
  match t with
  | EmptyString => Some s
  | String a t' =>
      match s with
      | EmptyString => None
      | String b s' => if Ascii.eqb a b then strip_prefix t' s' else None
      end
  end.

(** [s] without its first character, when that is white space. *)
Definition strip_white_space (s : string) : option string :=
  head (omap (λ t, strip_prefix t s) white_space).

(** White space is taken off the head of [s], at most [fuel] times: each
    time takes a byte at least, so the length of [s] is fuel enough
    ([trimStart_stripped]). *)
Fixpoint trim_start_loop (fuel : nat) (s : string) : string :=
  match fuel with
  | 0 => s
  | S fuel =>
      match strip_white_space s with
      | Some rest => trim_start_loop fuel rest
      | None => s
      end
  end.

(** [s.trimStart()] *)
Definition trimStart (s : string) : string :=
  trim_start_loop (String.length s) s.

(** Nothing but white space. *)
Definition is_blank (s : string) : bool := String.eqb (trimStart s) "".

(** [s.trimEnd()]: [s] up to where only white space follows. *)
Fixpoint trimEnd (s : string) : string :=
  match s with
  | EmptyString => EmptyString
  | String c rest => if is_blank s then EmptyString else String c (trimEnd rest)
  end.

(** [s.trim()] *)
Definition trim (s : string) : string := trimEnd (trimStart s).

(** [base + href], where an unset base prints as [undefined]. *)
Definition js_concat (base : option string) (s : string) : string :=
  default "undefined" base +:+ s.

(** ** Content scraping *)

Module ContentScraper.

Definition identifyContentType (details url : string) : ContentType :=
  if includes "Video" details || includes "/lessons/" url then VIDEO
  else if includes "Text" details || includes "/texts/" url then TEXT
  else if includes "Quiz" details || includes "/quizzes/" url then QUIZ
  else OTHER.

(** [data.thumbnailUrl]: reading a property of [null] throws; a repeated
    member of an object is taken from its last occurrence. *)
Definition thumbnailUrl_of (data : JSON) : Completion (option JSON) :=
  match data with
  | JNull => Throw "TypeError: Cannot read properties of null"
  | JObj fields =>
      Normal (snd <$> last (filter (λ kv, fst kv = "thumbnailUrl") fields))
  | _ => Normal None
  end.

(** The function evaluated inside a frame: the loop over the JSON-LD scripts
    of the document ([None] stands for [null]). *)
Fixpoint find_in_scripts (scripts : list (option JSON)) : option JSON :=
  match scripts with
  | [] => None
  | script :: rest =>
      match script with
      | None => find_in_scripts rest
      | Some data =>
          match thumbnailUrl_of data with
          | Normal (Some v) => if truthy v then Some v else find_in_scripts rest
          | Normal None => find_in_scripts rest
          | Throw _ => find_in_scripts rest
          end
      end
  end.

(** [frame.evaluate(...)] *)
Definition evaluate (frame : Frame) : M (option JSON) :=
  match frame with
  | Detached e => throw e
  | Document scripts => mret (find_in_scripts scripts)
  end.

(** The loop over [page.frames()] and what follows it. *)
Fixpoint scan_frames (frames : list Frame) : M (option JSON) :=
  match frames with
  | [] => log "WARNING" "No thumbnail found";; mret None
  | frame :: rest =>
      thumbnailUrl ← evaluate frame;
      match thumbnailUrl with
      | Some v =>
          if truthy v then log "INFO" "Thumbnail found";; mret (Some v)
          else scan_frames rest
      | None => scan_frames rest
      end
  end.

(** [extractThumbnail(page, url)], where [page] is what the driver meets at
    [url]. *)
Definition extractThumbnail (page : Visit) (url : string) : M (option JSON) :=
  try_catch
    (log "INFO" ("Fetching thumbnail for: " +:+ url);;
     reject_on (visit_goto page) tt;;
     sleep;;
     scan_frames (visit_frames page))
    (λ error,
       log "WARNING" ("Failed to extract thumbnail: " +:+ error);;
       mret None).

(** The text of the title elements once their child elements are removed. *)
Definition own_text (elements : list (list Child)) : string :=
  foldr (λ child acc, match child with
                      | Text s => s +:+ acc
                      | Element _ => acc
                      end)
        "" (concat elements).

(** The callback of [.each] on one node: the [items] array afterwards. *)
Definition scrape_node (config : Config) (items : list Item) (element : Node)
    : list Item :=
  match node_href element with
  | None => items
  | Some href =>
      match (if String.eqb href "" then None else match_id href) with
      | None => items
      | Some id =>
          let text := trim (own_text (node_title element)) in
          let title := if String.eqb text "" then "Unknown Title" else text in
          let details := node_details element in
          let type := identifyContentType details href in
          let url := js_concat (COURSE_BASE_URL config) href in
          items ++ [ {| item_id := id; item_title := title; item_type := type;
                        item_url := url; item_image := None |} ]
      end
  end.

Definition scrapeContent (config : Config) (page : Page) : M (list Item) :=
  try_catch (reject_on (page_wait page) tt)
    (λ _, throw "Failed to load course menu");;
  mret (foldl (scrape_node config) [] (page_nodes page)).

End ContentScraper.

(** ** Notification system *)

Module NotificationService.

Definition newline : string := String (ascii_of_N 10) EmptyString.

Definition build_payload (config : Config) (content : Item)
    (eventType : EventType) : Payload :=
  let isNew := bool_decide (eventType = NEW) in
  {| username := "Masterclass Updates";
     embeds :=
       [ {| embed_title :=
              if isNew then ":rotating_light: Nouveau contenu disponible !"
              else ":fire: Du contenu a été mis à jour !";
            embed_description :=
              if isNew
              then "**" +:+ item_title content +:+ "**" +:+ newline +:+
                   "Une nouvelle leçon a été ajoutée sur la plateforme."
              else "**" +:+ item_title content +:+ "**" +:+ newline +:+
                   "Du contenu a été mis à jour.";
            embed_url := item_url content;
            embed_color := EMBED_COLORS eventType;
            embed_image :=
              js_or (item_image content) (JStr <$> DEFAULT_THUMBNAIL config);
            embed_format := item_type content;
            embed_link :=
              "👉 **[Accéder au Contenu](" +:+ item_url content +:+ ")**";
            embed_footer := "Go grind ! 🚀" |} ] |}.

(** [fetch(CONFIG.WEBHOOK_URL, ...)]: the POST is made, then the webhook
    answers with a status or the request fails. *)
Definition fetch (env : Env) (payload : Payload) : M N :=
  λ w,
    let w' := {| database_file := database_file w;
                 requests := requests w ++ [payload];
                 console := console w;
                 browser_open := browser_open w |} in
    match env_webhook env (length (requests w)) with
    | Response status => (Normal status, w')
    | NetworkError message => (Throw message, w')
    end.

Definition send (env : Env) (config : Config) (content : Item)
    (eventType : EventType) : M unit :=
  try_catch
    (status ← fetch env (build_payload config content eventType);
     if response_ok status
     then log "SUCCESS" ("Notification sent (" +:+ EVENT_TYPES_label eventType
                         +:+ "): " +:+ item_title content)
     else throw ("Discord API returned " +:+ pretty status))
    (λ error,
       log "ERROR" ("Failed to send notification: " +:+ error);;
       throw error).

End NotificationService.

(** ** Change detection *)

Module ChangeDetector.

(** The body of the [for] loop of [detectChanges] for the item object at
    position [k]: the [actions] array after the iteration. *)
Definition detect_step `{JSObject T} (database : T) (actions : list Action)
    (k : nat) (item : Item) : list Action :=
  let stored := get (as_object database) (item_id item) in
  if falsy stored then
    actions ++ [ {| act_type := NEW; act_data := k |} ]
  else if bool_decide (type_of stored ≠ Some (item_type item))
          && bool_decide (type_of stored = Some TEXT)
          && bool_decide (item_type item = VIDEO)
  then actions ++ [ {| act_type := UPDATE; act_data := k |} ]
  else actions.

Fixpoint detectChanges_loop `{JSObject T} (database : T) (k : nat)
    (currentItems : list Item) (actions : list Action) : list Action :=
  match currentItems with
  | [] => actions
  | item :: rest =>
      detectChanges_loop database (S k) rest (detect_step database actions k item)
  end.

Definition detectChanges `{JSObject T} (currentItems : list Item) (database : T)
    : list Action :=
  detectChanges_loop database 0 currentItems [].

(** The entry [updateDatabase] stores for an item. *)
Definition entry_of (item : Item) : Stored :=
  {| stored_title := item_title item; stored_type := item_type item |}.

(** [updateDatabase]: a fresh object, one assignment per item. *)
Definition updateDatabase (items : list Item) : PlainObject :=
  foldl (λ database item, assign database (item_id item) (entry_of item))
        {| own := ∅; prototype := None |} items.

End ChangeDetector.

(** ** Main monitoring system *)

Module CourseMonitor.

(** [action.data.image = value] *)
Definition set_image (item : Item) (value : option JSON) : Item :=
  {| item_id := item_id item; item_title := item_title item;
     item_type := item_type item; item_url := item_url item;
     item_image := value |}.

(** The first half of the loop body of [processActions]: the default image
    is set on the item object, then, for a video, the thumbnail if one is
    found.  The result is the object as it is handed to [send]. *)
Definition with_image (env : Env) (config : Config) (item : Item) : M Item :=
  let data := set_image item (JStr <$> DEFAULT_THUMBNAIL config) in
  if bool_decide (item_type data = VIDEO) then
    w ← get_world;
    thumbnail ← ContentScraper.extractThumbnail
                  (env_visit env (length (requests w)) (item_url data))
                  (item_url data);
    match thumbnail with
    | Some v => mret (if truthy v then set_image data (Some v) else data)
    | None => mret data
    end
  else mret data.

(** [processActions(actions, page)].  The item objects the actions point to
    are those of [currentItems]; the array is threaded through and returned
    as the loop leaves it. *)
Fixpoint processActions (env : Env) (config : Config) (actions : list Action)
    (currentItems : list Item) : M (list Item) :=
  match actions with
  | [] => mret currentItems
  | action :: rest =>
      match currentItems !! act_data action with
      | None => throw "TypeError: Cannot set properties of undefined"
      | Some item =>
          data ← with_image env config item;
          NotificationService.send env config data (act_type action);;
          sleep;;
          processActions env config rest (<[act_data action := data]> currentItems)
      end
  end.

(** The browser held in [this.browser] is opened or closed. *)
Definition set_browser (open : bool) : M unit :=
  λ w, (Normal tt,
        {| database_file := database_file w;
           requests := requests w;
           console := console w;
           browser_open := open |}).

(** [puppeteer.launch] followed by [newPage]. *)
Definition launch (env : Env) : M unit :=
  reject_on (env_launch env) tt;;
  set_browser true.

(** [this.browser.close()] *)
Definition close : M unit := set_browser false.

(** [AuthenticationManager.ensureAuthenticated(page)], by what it logs and
    how it ends. *)
Definition ensureAuthenticated (env : Env) : M unit :=
  log_all (env_login_log env);;
  reject_on (env_login env) tt.

(** [check()] *)
Definition check (env : Env) (config : Config) : M unit :=
  log "INFO" "Starting check";;
  try_finally
    (try_catch
       (launch env;;
        ensureAuthenticated env;;
        currentItems ← ContentScraper.scrapeContent config (env_course_page env);
        w ← get_world;
        database ← readJSON DATABASE_FILE (database_file w);
        let isFirstRun := bool_decide (size database = 0) in
        let actions := ChangeDetector.detectChanges currentItems database in
        if bool_decide (0 < length actions) then
          currentItems ←
            (if isFirstRun then
               log "INFO" ("Initialization: " +:+ pretty (length actions)
                           +:+ " courses stored");;
               mret currentItems
             else
               log "INFO" (pretty (length actions) +:+ " notifications to process");;
               processActions env config actions currentItems);
          let updatedDatabase := ChangeDetector.updateDatabase currentItems in
          writeJSON (env_write env) DATABASE_FILE updatedDatabase;;
          log "SUCCESS" "Database updated successfully"
        else
          log "INFO" "No changes detected")
       (λ error, log "ERROR" ("Critical error: " +:+ error)))
    close.

(** The world a cycle leaves behind. *)
Definition after_check (env : Env) (config : Config) (w : World) : World :=
  snd (check env config w).

End CourseMonitor.

(** ** Notions used to state the properties *)

(** The event [detectChanges] raises for the item object at position [k],
    if any. *)
Definition event_for `{JSObject T} (database : T) (k : nat) (item : Item)
    : option Action :=
  match get (as_object database) (item_id item) with
  | Entry stored =>
      if bool_decide (stored_type stored = TEXT ∧ item_type item = VIDEO)
      then Some {| act_type := UPDATE; act_data := k |}
      else None
  | Foreign true => None
  | Foreign false | Undefined => Some {| act_type := NEW; act_data := k |}
  end.

(** The events of the items at positions [k], [k+1], ... in that order. *)
Fixpoint events_from `{JSObject T} (database : T) (k : nat) (items : list Item)
    : list Action :=
  match items with
  | [] => []
  | item :: rest =>
      option_list (event_for database k item) ++ events_from database (S k) rest
  end.

(** The catalog a cycle works with: what [readJSON] makes of the file. *)
Definition catalog_of (file : File Database) : Database :=
  match file with
  | Holds data => data
  | _ => ∅
  end.

(** The items [scrapeContent] builds from the nodes of a page. *)
Definition scraped (config : Config) (page : Page) : list Item :=
  foldl (ContentScraper.scrape_node config) [] (page_nodes page).

(** The items one node contributes on its own. *)
Definition items_of_node (config : Config) (element : Node) : list Item :=
  ContentScraper.scrape_node config [] element.

(** A link target without any digit; a node without link target has none. *)
Definition digit_free (element : Node) : Prop :=
  match node_href element with
  | None => True
  | Some href => ∀ c, c ∈ String.list_ascii_of_string href → is_digit c = false
  end.

(** A string made of white space characters only. *)
Inductive blank : string → Prop :=
| blank_empty : blank ""
| blank_more (t s : string) : t ∈ white_space → blank s → blank (t +:+ s).

(** A child of a title element that adds nothing but white space to the
    text [scrapeContent] reads: a blank text node, or a nested element. *)
Definition blank_child (child : Child) : Prop :=
  match child with
  | Text s => blank s
  | Element _ => True
  end.

(** The thumbnail of one script: its [thumbnailUrl] when that is truthy. *)
Definition script_thumbnail (script : option JSON) : option JSON :=
  match script with
  | Some data =>
      match ContentScraper.thumbnailUrl_of data with
      | Normal (Some v) => if truthy v then Some v else None
      | _ => None
      end
  | None => None
  end.

(** The thumbnail of one frame that evaluates: that of its first script
    that has one. *)
Definition frame_thumbnail (frame : Frame) : option JSON :=
  match frame with
  | Document scripts => head (omap script_thumbnail scripts)
  | Detached _ => None
  end.

Definition evaluates (frame : Frame) : Prop :=
  match frame with
  | Document _ => True
  | Detached _ => False
  end.

(** The value [extractThumbnail] returns on a page. *)
Fixpoint scan_result (frames : list Frame) : option JSON :=
  match frames with
  | [] => None
  | Detached _ :: _ => None
  | Document scripts :: rest =>
      match ContentScraper.find_in_scripts scripts with
      | Some v => if truthy v then Some v else scan_result rest
      | None => scan_result rest
      end
  end.

Definition thumbnail_of (page : Visit) : option JSON :=
  match visit_goto page with
  | Some _ => None
  | None => scan_result (visit_frames page)
  end.

(** An item without its [image] field. *)
Definition core (item : Item) : Item := CourseMonitor.set_image item None.

(** The item object as [processActions] hands it to [send] when [n] POSTs
    were made before. *)
Definition prepare (env : Env) (config : Config) (n : nat) (item : Item) : Item :=
  let data := CourseMonitor.set_image item (JStr <$> DEFAULT_THUMBNAIL config) in
  if bool_decide (item_type item = VIDEO) then
    match thumbnail_of (env_visit env n (item_url item)) with
    | Some v => if truthy v then CourseMonitor.set_image data (Some v) else data
    | None => data
    end
  else data.

(** The POSTs of a batch whose sends all get an answer, in the order of the
    actions. *)
Fixpoint payloads (env : Env) (config : Config) (n : nat)
    (actions : list Action) (items : list Item) : list Payload :=
  match actions with
  | [] => []
  | action :: rest =>
      match items !! act_data action with
      | Some item =>
          NotificationService.build_payload config (prepare env config n item)
            (act_type action)
          :: payloads env config (S n) rest items
      | None => []
      end
  end.

(** Whether the webhook accepts a POST. *)
Definition reply_ok (reply : Reply) : bool :=
  match reply with
  | Response status => response_ok status
  | NetworkError _ => false
  end.

(** The [m] POSTs that follow the first [n] are all accepted. *)
Definition sends_ok (env : Env) (n m : nat) : Prop :=
  ∀ i, i < m → reply_ok (env_webhook env (n + i)) = true.

(** Two worlds that differ at most in what the console shows. *)
Definition same_but_console (w w' : World) : Prop :=
  database_file w' = database_file w
  ∧ requests w' = requests w
  ∧ browser_open w' = browser_open w.

(** A cycle that gets as far as change detection: browser, login and the
    course menu are all there. *)
Definition reaches_detection (env : Env) : Prop :=
  env_launch env = None
  ∧ env_login env = None
  ∧ page_wait (env_course_page env) = None.

(** ** Sample data *)

Definition sample_config : Config :=
  {| COURSE_BASE_URL := Some "https://school.example";
     DEFAULT_THUMBNAIL := Some "https://school.example/default.jpg" |}.

Definition sample_item (id title : string) (type : ContentType) : Item :=
  {| item_id := id; item_title := title; item_type := type;
     item_url := "https://school.example/courses/take/c/" +:+ id;
     item_image := None |}.

Definition sample_node (href : string) (title : list Child) : Node :=
  {| node_href := Some href; node_title := [title]; node_details := "" |}.

(** A video lesson, a text and a quiz. *)
Definition sample_page : Page :=
  {| page_wait := None;
     page_nodes :=
       [ sample_node "/courses/take/c/lessons/1-intro" [Text "Intro"];
         sample_node "/courses/take/c/texts/2-notes" [Text "Notes"];
         sample_node "/courses/take/c/quizzes/3-check" [Text "Check"] ] |}.

(** A page that shows item 1 as a text titled B. *)
Definition retitled_page : Page :=
  {| page_wait := None;
     page_nodes := [ sample_node "/courses/take/c/texts/1-b" [Text "B"] ] |}.

(** A section header, and a lesson whose title holds only white space (a
    space, a no-break space, an ideographic space, a line feed) around a
    nested badge. *)
Definition header_node : Node :=
  sample_node "/courses/take/c/section" [Text "Section"].

Definition untitled_node : Node :=
  sample_node "/courses/take/c/lessons/7"
    [ Text (" " +:+ utf8 0xA0); Element "New"; Text (utf8 0x3000 +:+ utf8 0xA) ].

Definition sample_visit : Visit :=
  {| visit_goto := None;
     visit_frames :=
       [ Document [];
         Document [ None; Some JNull;
                    Some (JObj [("thumbnailUrl", JStr "https://cdn.example/1.png")]) ] ] |}.

(** A page whose first frame is gone when it is evaluated, the second
    carrying a thumbnail. *)
Definition detached_visit : Visit :=
  {| visit_goto := None;
     visit_frames :=
       [ Detached "Execution context was destroyed";
         Document [ Some (JObj [("thumbnailUrl", JStr "https://cdn.example/1.png")]) ] ] |}.

Definition sample_env (page : Page) (webhook : nat → Reply)
    (write : WriteOutcome Database) : Env :=
  {| env_launch := None;
     env_login_log := [("INFO", "Cookies loaded from file")];
     env_login := None; env_course_page := page;
     env_visit := λ _ _, sample_visit; env_webhook := webhook;
     env_write := write |}.

Definition sample_world (file : File Database) : World :=
  {| database_file := file; requests := []; console := [];
     browser_open := false |}.

(** A catalog that knows item 1 as a text titled A. *)
Definition text_catalog : Database :=
  {[ "1" := {| stored_title := "A"; stored_type := TEXT |} ]}.

(** A catalog that knows none of the items of [sample_page]. *)
Definition old_catalog : Database :=
  {[ "9" := {| stored_title := "Old"; stored_type := QUIZ |} ]}.

Definition accepts_all (n : nat) : Reply := Response 204.

Definition second_send_fails (n : nat) : Reply :=
  if decide (n = 1) then Response 500 else Response 204.

(** The page answers, the webhook accepts everything but the second POST. *)
Definition refusing_env : Env := sample_env sample_page second_send_fails Written.

Definition accepting_env : Env := sample_env sample_page accepts_all Written.

Definition full_disk_env : Env :=
  sample_env sample_page accepts_all (WriteFailed "ENOSPC" Missing).

Definition retitled_env : Env := sample_env retitled_page accepts_all Written.

Definition fresh_world : World := sample_world Missing.

Definition known_world : World := sample_world (Holds old_catalog).

Definition text_world : World := sample_world (Holds text_catalog).

(** ** Authentication *)

(** A cookie record of the browser. *)
Record Cookie := {
  cookie_name : string;
  cookie_value : string;
  cookie_domain : string;
}.

(** What [readJSON] gives for a cookie file it cannot read is [{}]; like an
    empty array it has no keys, which is all [loadCookies] asks of it. *)
#[global] Instance cookies_empty : Empty (list Cookie) := [].

(** What the page is asked to do during authentication. *)
Inductive Call :=
| Goto (url : string)
| TypeInto (selector text : string)
| ClickAndWait (selector : string)
| SetCookie (cookies : list Cookie)
| ReadCookies.

(** Where a navigation ends: at a location, or with an error. *)
Inductive Landing :=
| Lands (url : string)
| NavigationError (error : string).

(** The answers of the page and of the disk during authentication; the
    answers of the page are indexed by the number of calls made before. *)
Record Driver := {
  drv_goto : nat → string → Landing;
  drv_type : nat → string → option string;
  drv_submit : nat → Landing;
  drv_setCookie : nat → list Cookie → option string;
  drv_cookies : nat → Completion (list Cookie);
  drv_write : WriteOutcome (list Cookie);
}.

(** The entries of [CONFIG] that authentication uses. *)
Record AuthConfig := {
  LOGIN_URL : string;
  COURSE_URL : string;
  THINKIFIC_EMAIL : string;
  THINKIFIC_PASSWORD : string;
}.

(** The state authentication works on: the world of the cycle (for its
    console), the cookie file, the location of the page ([page.url()]) and
    the calls made to the page, oldest first. *)
Record Session := {
  world : World;
  cookies_file : File (list Cookie);
  location : string;
  driven : list Call;
}.

Definition AM (A : Type) : Type := Session → Completion A * Session.

#[global] Instance AM_ret : MRet AM := λ A a s, (Normal a, s).

#[global] Instance AM_bind : MBind AM :=
  λ A B k m s, match m s with
               | (Normal a, s') => k a s'
               | (Throw e, s') => (Throw e, s')
               end.

Definition raise {A} (error : string) : AM A := λ s, (Throw error, s).

(** [try { m } catch (error) { handler }] during authentication. *)
Definition attempt {A} (m : AM A) (handler : string → AM A) : AM A :=
  λ s, match m s with
       | (Normal a, s') => (Normal a, s')
       | (Throw e, s') => handler e s'
       end.

(** A step of the cycle's monad, run on the world of the session. *)
Definition lift {A} (m : M A) : AM A :=
  λ s, match m (world s) with
       | (r, w') =>
           (r, {| world := w'; cookies_file := cookies_file s;
                  location := location s; driven := driven s |})
       end.

Definition get_session : AM Session := λ s, (Normal s, s).

(** The call is made: it is added to the calls of the session. *)
Definition called (call : Call) (s : Session) : Session :=
  {| world := world s; cookies_file := cookies_file s;
     location := location s; driven := driven s ++ [call] |}.

Definition moved (url : string) (s : Session) : Session :=
  {| world := world s; cookies_file := cookies_file s;
     location := url; driven := driven s |}.

(** [page.goto(url, ...)] *)
Definition goto (driver : Driver) (url : string) : AM unit :=
  λ s, match drv_goto driver (length (driven s)) url with
       | Lands dest => (Normal tt, moved dest (called (Goto url) s))
       | NavigationError e => (Throw e, called (Goto url) s)
       end.

(** [page.type(selector, text, ...)] *)
Definition type_into (driver : Driver) (selector text : string) : AM unit :=
  λ s, match drv_type driver (length (driven s)) selector with
       | None => (Normal tt, called (TypeInto selector text) s)
       | Some e => (Throw e, called (TypeInto selector text) s)
       end.

(** [Promise.all([page.waitForNavigation(...), page.click(selector)])] *)
Definition click_and_wait (driver : Driver) (selector : string) : AM unit :=
  λ s, match drv_submit driver (length (driven s)) with
       | Lands dest => (Normal tt, moved dest (called (ClickAndWait selector) s))
       | NavigationError e => (Throw e, called (ClickAndWait selector) s)
       end.

(** [page.setCookie(...cookies)] *)
Definition setCookie (driver : Driver) (cookies : list Cookie) : AM unit :=
  λ s, match drv_setCookie driver (length (driven s)) cookies with
       | None => (Normal tt, called (SetCookie cookies) s)
       | Some e => (Throw e, called (SetCookie cookies) s)
       end.

(** [page.cookies()] *)
Definition page_cookies (driver : Driver) : AM (list Cookie) :=
  λ s, (drv_cookies driver (length (driven s)), called ReadCookies s).

(** [writeJSON] on the cookie file. *)
Definition writeCookies (outcome : WriteOutcome (list Cookie)) (filepath : string)
    (data : list Cookie) : AM unit :=
  attempt
    (λ s, match outcome with
          | Written =>
              (Normal tt,
               {| world := world s; cookies_file := Holds data;
                  location := location s; driven := driven s |})
          | WriteFailed e residue =>
              (Throw e,
               {| world := world s; cookies_file := residue;
                  location := location s; driven := driven s |})
          end)
    (λ error,
       lift (log "ERROR" ("Failed to write " +:+ filepath +:+ ": " +:+ error));;
       raise error).

Definition COOKIES_FILE : string := "cookies.json".

(** [SELECTORS] *)
Definition double_quote : string := String (ascii_of_N 34) EmptyString.

Definition EMAIL_INPUT : string :=
  "input[name=" +:+ double_quote +:+ "user[email]" +:+ double_quote +:+ "]".

Definition PASSWORD_INPUT : string :=
  "input[name=" +:+ double_quote +:+ "user[password]" +:+ double_quote +:+ "]".

Definition SUBMIT_BUTTON : string :=
  "button[type=" +:+ double_quote +:+ "submit" +:+ double_quote +:+ "]".

Module AuthenticationManager.

Definition login (driver : Driver) (config : AuthConfig) : AM unit :=
  lift (log "INFO" "Attempting automatic login...");;
  attempt
    (goto driver (LOGIN_URL config);;
     type_into driver EMAIL_INPUT (THINKIFIC_EMAIL config);;
     type_into driver PASSWORD_INPUT (THINKIFIC_PASSWORD config);;
     click_and_wait driver SUBMIT_BUTTON;;
     s ← get_session;
     if includes "sign_in" (location s)
     then raise "Login failed - check credentials or CAPTCHA presence"
     else
       lift (log "INFO" "Login successful, saving cookies...");;
       cookies ← page_cookies driver;
       writeCookies (drv_write driver) COOKIES_FILE cookies)
    (λ error,
       lift (log "ERROR" ("Login failed: " +:+ error));;
       raise error).

Definition loadCookies (driver : Driver) : AM bool :=
  attempt
    (s ← get_session;
     cookies ← lift (readJSON COOKIES_FILE (cookies_file s));
     if bool_decide (length cookies = 0) then mret false
     else
       setCookie driver cookies;;
       lift (log "INFO" "Cookies loaded from file");;
       mret true)
    (λ error,
       lift (log "WARNING" ("Failed to load cookies: " +:+ error));;
       mret false).

Definition isSessionValid (driver : Driver) (config : AuthConfig) : AM bool :=
  attempt
    (goto driver (COURSE_URL config);;
     s ← get_session;
     mret (negb (includes "sign_in" (location s))))
    (λ error,
       lift (log "WARNING" ("Session validation failed: " +:+ error));;
       mret false).

Definition ensureAuthenticated (driver : Driver) (config : AuthConfig) : AM unit :=
  cookiesLoaded ← loadCookies driver;
  needsLogin ←
    (if cookiesLoaded : bool then
       sessionValid ← isSessionValid driver config;
       if sessionValid : bool then mret false
       else
         lift (log "WARNING" "Session expired, re-authentication required");;
         mret true
     else mret true);
  if needsLogin : bool then
    login driver config;;
    goto driver (COURSE_URL config)
  else mret tt.

End AuthenticationManager.

(** The calls a complete login makes, in their order. *)
Definition login_calls (config : AuthConfig) : list Call :=
  [ Goto (LOGIN_URL config);
    TypeInto EMAIL_INPUT (THINKIFIC_EMAIL config);
    TypeInto PASSWORD_INPUT (THINKIFIC_PASSWORD config);
    ClickAndWait SUBMIT_BUTTON;
    ReadCookies ].

(** The cookies a session starts from: what [readJSON] makes of the file. *)
Definition cookies_of (file : File (list Cookie)) : list Cookie :=
  match file with
  | Holds data => data
  | _ => []
  end.

(** The calls [loadCookies] makes: none without stored cookies. *)
Definition restore_calls (file : File (list Cookie)) : list Call :=
  match cookies_of file with
  | [] => []
  | cookies => [SetCookie cookies]
  end.

Definition sample_auth_config : AuthConfig :=
  {| LOGIN_URL := "https://school.example/users/sign_in";
     COURSE_URL := "https://school.example/courses/take/c";
     THINKIFIC_EMAIL := "student@school.example";
     THINKIFIC_PASSWORD := "secret" |}.

Definition sample_cookie : Cookie :=
  {| cookie_name := "_session_id"; cookie_value := "abc123";
     cookie_domain := ".school.example" |}.

(** A page that goes where it is sent and, after the form is submitted, to
    [landing]. *)
Definition sample_driver (landing : string) : Driver :=
  {| drv_goto := λ _ url, Lands url;
     drv_type := λ _ _, None;
     drv_submit := λ _, Lands landing;
     drv_setCookie := λ _ _, None;
     drv_cookies := λ _, Normal [sample_cookie];
     drv_write := Written |}.

Definition sample_session (file : File (list Cookie)) : Session :=
  {| world := fresh_world; cookies_file := file;
     location := "about:blank"; driven := [] |}.

(** ** Startup configuration *)

(** [process.env]: the variables that are set, each with its string value. *)
Abbreviation ProcessEnv := (gmap string string).

(** The [required] array of [validateEnvironment]. *)
Definition required : list string :=
  [ "DISCORD_WEBHOOK"; "THINKIFIC_EMAIL"; "THINKIFIC_PASSWORD";
    "COURSE_LOGIN_URL"; "COURSE_CONTENTS_URL"; "COURSE_BASE_URL";
    "DEFAULT_THUMBNAIL" ].

(** [!process.env[key]]: the variable is unset or set to the empty string. *)
Definition unset (process_env : ProcessEnv) (key : string) : bool :=
  match process_env !! key with
  | None => true
  | Some value => String.eqb value ""
  end.

(** [array.join(sep)] on strings. *)
Fixpoint join (sep : string) (parts : list string) : string :=
  match parts with
  | [] => ""
  | [part] => part
  | part :: rest => part +:+ sep +:+ join sep rest
  end.

Definition validateEnvironment (process_env : ProcessEnv) : Completion unit :=
  let missing := List.filter (unset process_env) required in
  if bool_decide (0 < length missing)
  then Throw ("Missing required environment variables: " +:+ join ", " missing)
  else Normal tt.

(** The two entries of [CONFIG] the model uses, as read from [process.env]. *)
Definition CONFIG (process_env : ProcessEnv) : Config :=
  {| COURSE_BASE_URL := process_env !! "BASE_URL";
     DEFAULT_THUMBNAIL := process_env !! "DEFAULT_THUMBNAIL" |}.

(** ** Further notions *)

(** [sub] occurs in [s]. *)
Definition contains (sub s : string) : Prop :=
  ∃ pre post, s = pre +:+ sub +:+ post.

(** Only digits. *)
Definition all_digits (s : string) : Prop :=
  ∀ c, c ∈ String.list_ascii_of_string s → is_digit c = true.

(** No slash of [s] has a digit right after it. *)
Definition slash_digit_free (s : string) : Prop :=
  ∀ pre c post, s = pre +:+ String "/" (String c post) → is_digit c = false.

(** An action whose reference is moved [n] positions up. *)
Definition shift_action (n : nat) (a : Action) : Action :=
  {| act_type := act_type a; act_data := n + act_data a |}.

(** The error that ends a cycle before change detection, if any: the browser
    does not start, the login fails, or the course menu does not load. *)
Definition failure_before_detection (env : Env) : option string :=
  match env_launch env with
  | Some e => Some e
  | None =>
      match env_login env with
      | Some e => Some e
      | None =>
          match page_wait (env_course_page env) with
          | Some _ => Some "Failed to load course menu"
          | None => None
          end
      end
  end.

(** The image of the notification for an item when [n] POSTs were made. *)
Definition notified_image (env : Env) (config : Config) (n : nat) (item : Item)
    : option JSON :=
  match (if bool_decide (item_type item = VIDEO)
         then thumbnail_of (env_visit env n (item_url item))
         else None) with
  | Some v => Some v
  | None => JStr <$> DEFAULT_THUMBNAIL config
  end.

(** The first item of [sample_page]. *)
Definition intro_item : Item :=
  {| item_id := "1"; item_title := "Intro"; item_type := VIDEO;
     item_url := "https://school.example/courses/take/c/lessons/1-intro";
     item_image := None |}.

(** ** The labels of the content kinds are distinct *)

Lemma CONTENT_TYPES_label_inj (a b : ContentType) :
  CONTENT_TYPES_label a = CONTENT_TYPES_label b → a = b.
Proof. destruct a, b; simpl; intros H; first [reflexivity | discriminate H]. Qed.

(** ** Change detection: the loop and its events *)

Lemma inherited_spec (key : string) :
  inherited key = true ↔ key ∈ Object_prototype.
Proof.
  unfold inherited. rewrite existsb_exists. split.
  - intros (name & Hin & Heq). apply String.eqb_eq in Heq as ->.
    by apply list_elem_of_In.
  - intros Hin. exists key. split; [by apply list_elem_of_In|].
    apply String.eqb_refl.
Qed.

Lemma get_parsed (database : Database) (key : string) :
  get (as_object database) key
  = match database !! key with
    | Some stored => Entry stored
    | None => if inherited key then Foreign true else Undefined
    end.
Proof. reflexivity. Qed.

Section detectChanges_facts.
Import ChangeDetector.
Context {T : Type} {catalog_object : JSObject T} (database : T).

Lemma detect_step_event (actions : list Action) (k : nat) (item : Item) :
  detect_step database actions k item
  = actions ++ option_list (event_for database k item).
Proof.
  unfold detect_step, event_for.
  destruct (get (as_object database) (item_id item)) as [stored|[]|]; simpl;
    [|by rewrite app_nil_r|done..].
  destruct (stored_type stored) eqn:Hs, (item_type item) eqn:Hi;
    simpl; rewrite ?app_nil_r; reflexivity.
Qed.

Lemma detectChanges_loop_events (items : list Item) :
  ∀ k actions,
    detectChanges_loop database k items actions
    = actions ++ events_from database k items.
Proof.
  induction items as [|item rest IH]; intros k actions; simpl.
  - by rewrite app_nil_r.
  - rewrite IH, detect_step_event. by rewrite <- app_assoc.
Qed.

Lemma detectChanges_events (items : list Item) :
  detectChanges items database = events_from database 0 items.
Proof. unfold detectChanges. by rewrite detectChanges_loop_events. Qed.

Lemma event_for_data (k : nat) (item : Item) (a : Action) :
  event_for database k item = Some a → act_data a = k.
Proof.
  unfold event_for.
  destruct (get (as_object database) (item_id item)) as [stored|[]|].
  - case_bool_decide; intros [= <-]; reflexivity.
  - done.
  - intros [= <-]; reflexivity.
  - intros [= <-]; reflexivity.
Qed.

Lemma elem_of_events_from (items : list Item) :
  ∀ k a,
    a ∈ events_from database k items
    ↔ ∃ j item, items !! j = Some item ∧ event_for database (k + j) item = Some a.
Proof.
  induction items as [|item rest IH]; intros k a; simpl.
  - split; [intros H; by apply elem_of_nil in H | intros (j & i & H & _); done].
  - rewrite elem_of_app, IH. split.
    + intros [H | (j & i & Hj & He)].
      * exists 0, item. split; [done|]. rewrite Nat.add_0_r.
        destruct (event_for database k item); simpl in H; [|by apply elem_of_nil in H].
        apply list_elem_of_singleton in H. by subst.
      * exists (S j), i. split; [done|]. by rewrite Nat.add_succ_r.
    + intros ([|j] & i & Hj & He); simpl in Hj.
      * left. injection Hj as ->. rewrite Nat.add_0_r in He. rewrite He.
        simpl. apply list_elem_of_singleton. done.
      * right. exists j, i. split; [done|]. by rewrite Nat.add_succ_r in He.
Qed.

Lemma elem_of_detectChanges (items : list Item) (a : Action) :
  a ∈ detectChanges items database
  ↔ ∃ item, items !! act_data a = Some item
            ∧ event_for database (act_data a) item = Some a.
Proof.
  rewrite detectChanges_events, elem_of_events_from. simpl. split.
  - intros (j & item & Hj & He). pose proof (event_for_data _ _ _ He) as ->.
    by exists item.
  - intros (item & Hj & He). by exists (act_data a), item.
Qed.

Lemma events_from_lower (items : list Item) :
  ∀ k, Forall (λ a, (k ≤ act_data a)%nat) (events_from database k items).
Proof.
  induction items as [|item rest IH]; intros k; simpl; [constructor|].
  apply Forall_app. split.
  - destruct (event_for database k item) eqn:He; simpl; [|constructor].
    apply event_for_data in He. repeat constructor. lia.
  - eapply Forall_impl; [apply IH|]. simpl. intros; lia.
Qed.

Lemma events_from_sorted (items : list Item) :
  ∀ k, StronglySorted lt (act_data <$> events_from database k items).
Proof.
  induction items as [|item rest IH]; intros k; simpl; [constructor|].
  destruct (event_for database k item) eqn:He; simpl; [|apply IH].
  constructor; [apply IH|].
  apply event_for_data in He. rewrite He.
  apply Forall_fmap. eapply Forall_impl; [apply (events_from_lower rest (S k))|].
  simpl. intros; lia.
Qed.

End detectChanges_facts.

Lemma detectChanges_empty_catalog (L : list Item) :
  Forall (λ item, item_id item ∉ Object_prototype) L →
  ChangeDetector.detectChanges L (∅ : Database)
  = imap (λ k _, {| act_type := NEW; act_data := k |}) L.
Proof.
  intros Hids. rewrite detectChanges_events.
  assert (∀ k, events_from (∅ : Database) k L
               = imap (λ j _, {| act_type := NEW; act_data := k + j |}) L) as H.
  { induction Hids as [|item rest Hid _ IH]; intros k; [reflexivity|].
    simpl. unfold event_for at 1. rewrite get_parsed, lookup_empty.
    destruct (inherited (item_id item)) eqn:Hin;
      [by apply inherited_spec in Hin|].
    simpl. rewrite Nat.add_0_r. f_equal. rewrite IH. apply imap_ext.
    intros j x _. simpl. by rewrite Nat.add_succ_r. }
  apply H.
Qed.

Lemma digits_not_inherited (id : string) :
  id ≠ EmptyString →
  (∀ c, c ∈ String.list_ascii_of_string id → is_digit c = true) →
  id ∉ Object_prototype.
Proof.
  destruct id as [|c rest]; [done|]. intros _ Hdigits Hin.
  specialize (Hdigits c (list_elem_of_here _ _)).
  unfold Object_prototype in Hin.
  repeat (apply elem_of_cons in Hin as [Hin | Hin];
          [injection Hin as -> _; discriminate Hdigits|]).
  by apply elem_of_nil in Hin.
Qed.

(** C1.  For the item object at position [k] of the current list, an UPDATE
    event is raised exactly when its id is in the catalog with stored kind
    Text and its own kind is Video; for any other pair of different kinds
    (stored, current) no event at all refers to that item. *)
Theorem detectChanges_upgrade_only_text_to_video
    (currentItems : list Item) (database : Database) (k : nat) (item : Item) :
  currentItems !! k = Some item →
  ({| act_type := UPDATE; act_data := k |}
     ∈ ChangeDetector.detectChanges currentItems database
   ↔ ∃ stored, database !! item_id item = Some stored
               ∧ stored_type stored = TEXT ∧ item_type item = VIDEO)
  ∧ (∀ stored,
       database !! item_id item = Some stored →
       stored_type stored ≠ item_type item →
       ¬ (stored_type stored = TEXT ∧ item_type item = VIDEO) →
       ∀ a, a ∈ ChangeDetector.detectChanges currentItems database →
            act_data a ≠ k).
Proof.
  intros Hk. split.
  - rewrite elem_of_detectChanges. simpl. rewrite Hk. split.
    + intros (item' & [= <-] & He). unfold event_for in He.
      rewrite get_parsed in He.
      destruct (database !! item_id item) as [stored|];
        [|by destruct (inherited (item_id item))].
      case_bool_decide as Hc; [|discriminate He].
      exists stored. tauto.
    + intros (stored & Hs & Ht & Hv). exists item. split; [done|].
      unfold event_for. rewrite get_parsed, Hs. by rewrite bool_decide_eq_true_2.
  - intros stored Hs _ Hno a Ha Heq.
    apply elem_of_detectChanges in Ha as (item' & Hk' & He).
    rewrite Heq, Hk in Hk'. injection Hk' as <-.
    unfold event_for in He. rewrite get_parsed, Hs in He.
    by rewrite bool_decide_eq_false_2 in He.
Qed.

(** C10.  An item whose id is in the catalog with the same kind as its own
    raises no event, whatever the stored and the current title are. *)
Theorem detectChanges_title_change_is_silent
    (currentItems : list Item) (database : Database) (k : nat) (item : Item)
    (stored : Stored) :
  currentItems !! k = Some item →
  database !! item_id item = Some stored →
  stored_type stored = item_type item →
  ∀ a, a ∈ ChangeDetector.detectChanges currentItems database → act_data a ≠ k.
Proof.
  intros Hk Hs Ht a Ha Heq.
  apply elem_of_detectChanges in Ha as (item' & Hk' & He).
  rewrite Heq, Hk in Hk'. injection Hk' as <-.
  unfold event_for in He. rewrite get_parsed, Hs in He.
  case_bool_decide as Hc; [|discriminate He].
  destruct Hc as [H1 H2]. congruence.
Qed.

(** ** The snapshot *)

Section updateDatabase_facts.
Import ChangeDetector.

Lemma updateDatabase_snoc (items : list Item) (item : Item) :
  updateDatabase (items ++ [item])
  = assign (updateDatabase items) (item_id item) (entry_of item).
Proof. unfold updateDatabase. by rewrite foldl_app. Qed.

Lemma eqb_proto (id : string) :
  String.eqb id "__proto__" = bool_decide (id = "__proto__").
Proof.
  case_bool_decide as Heq; [by rewrite Heq|]. by apply String.eqb_neq.
Qed.

Lemma updateDatabase_no_own_proto (items : list Item) :
  own (updateDatabase items) !! "__proto__" = None.
Proof.
  induction items as [|item items IH] using rev_ind; [done|].
  rewrite updateDatabase_snoc. unfold assign. rewrite eqb_proto.
  case_bool_decide as Heq; simpl.
  - rewrite Heq, bool_decide_eq_true_2 by done. done.
  - by rewrite lookup_insert_ne.
Qed.

Lemma updateDatabase_step (items : list Item) (item : Item) :
  updateDatabase (items ++ [item])
  = if bool_decide (item_id item = "__proto__")
    then {| own := own (updateDatabase items);
            prototype := Some (entry_of item) |}
    else {| own := <[ item_id item := entry_of item ]> (own (updateDatabase items));
            prototype := prototype (updateDatabase items) |}.
Proof.
  rewrite updateDatabase_snoc. unfold assign. rewrite eqb_proto.
  case_bool_decide as Heq; simpl; [|done].
  by rewrite Heq, bool_decide_eq_true_2 by apply updateDatabase_no_own_proto.
Qed.

Lemma updateDatabase_own_lookup (items : list Item) (id : string) :
  id ≠ "__proto__" →
  own (updateDatabase items) !! id
  = entry_of <$> last (filter (λ item, item_id item = id) items).
Proof.
  intros Hid. induction items as [|item items IH] using rev_ind; [done|].
  rewrite updateDatabase_step, filter_app, filter_cons, filter_nil.
  case_bool_decide as Hproto; simpl.
  - rewrite IH. destruct (decide (item_id item = id)) as [Heq|Hne];
      [congruence | by rewrite app_nil_r].
  - rewrite lookup_insert.
    destruct (decide (item_id item = id)) as [Heq|Hne].
    + by rewrite last_snoc.
    + by rewrite app_nil_r.
Qed.

Lemma updateDatabase_prototype (items : list Item) :
  prototype (updateDatabase items)
  = entry_of <$> last (filter (λ item, item_id item = "__proto__") items).
Proof.
  induction items as [|item items IH] using rev_ind; [done|].
  rewrite updateDatabase_step, filter_app, filter_cons, filter_nil.
  case_bool_decide as Hproto; simpl.
  - rewrite decide_True by done. by rewrite last_snoc.
  - rewrite decide_False by done. by rewrite app_nil_r.
Qed.

(** Reading back an id that was assigned gives the entry assigned last. *)
Lemma updateDatabase_get (items : list Item) (id : string) (kept : Item) :
  last (filter (λ item, item_id item = id) items) = Some kept →
  get (updateDatabase items) id = Entry (entry_of kept).
Proof.
  intros Hlast. unfold get.
  destruct (decide (id = "__proto__")) as [->|Hid].
  - rewrite updateDatabase_no_own_proto, updateDatabase_prototype, Hlast.
    reflexivity.
  - by rewrite updateDatabase_own_lookup, Hlast.
Qed.

(** The same id read from the document that was written and parsed again. *)
Lemma updateDatabase_get_parsed (items : list Item) (id : string) (kept : Item) :
  last (filter (λ item, item_id item = id) items) = Some kept →
  get (as_object (own (updateDatabase items))) id
  = if bool_decide (id = "__proto__") then Foreign true else Entry (entry_of kept).
Proof.
  intros Hlast. rewrite get_parsed. case_bool_decide as Hid.
  - by rewrite Hid, updateDatabase_no_own_proto.
  - by rewrite updateDatabase_own_lookup, Hlast.
Qed.

Lemma last_filter_is_Some (items : list Item) (item : Item) :
  item ∈ items →
  is_Some (last (filter (λ x, item_id x = item_id item) items)).
Proof.
  intros Hin. destruct (last _) as [kept|] eqn:Hlast; [by eexists|].
  apply last_None in Hlast.
  assert (item ∈ filter (λ x, item_id x = item_id item) items) as Hf
    by (by apply list_elem_of_filter).
  rewrite Hlast in Hf. by apply elem_of_nil in Hf.
Qed.

Lemma last_filter_unique (items : list Item) (item : Item) :
  NoDup (item_id <$> items) →
  item ∈ items →
  last (filter (λ x, item_id x = item_id item) items) = Some item.
Proof.
  induction items as [|x items IH] using rev_ind; intros Hnd Hin.
  - by apply elem_of_nil in Hin.
  - rewrite fmap_app in Hnd. apply NoDup_app in Hnd as (Hnd & Hfresh & _).
    rewrite filter_app, filter_cons, filter_nil.
    apply elem_of_app in Hin as [Hin | Hin].
    + rewrite decide_False; [rewrite app_nil_r; by apply IH|].
      intros Heq. apply (Hfresh (item_id item)).
      * apply list_elem_of_fmap. by exists item.
      * rewrite <- Heq. simpl. apply list_elem_of_singleton. done.
    + apply list_elem_of_singleton in Hin as ->.
      rewrite decide_True by done. by rewrite last_snoc.
Qed.

Lemma updateDatabase_elem_of_dom (items : list Item) (id : string) :
  id ∈ dom (own (updateDatabase items))
  ↔ id ∈ item_id <$> items ∧ id ≠ "__proto__".
Proof.
  induction items as [|item items IH] using rev_ind.
  - simpl. rewrite dom_empty_L. split.
    + intros Hin. by apply elem_of_empty in Hin.
    + intros [Hin _]. by apply elem_of_nil in Hin.
  - rewrite updateDatabase_step, fmap_app, elem_of_app. simpl.
    rewrite list_elem_of_singleton.
    case_bool_decide as Hproto; simpl.
    + rewrite IH. split; [tauto|].
      intros [[Hin | Heq] Hne]; [tauto | congruence].
    + rewrite dom_insert_L, elem_of_union, elem_of_singleton, IH. split.
      * intros [Heq | [Hin Hne]]; [|tauto]. split; [by right | congruence].
      * intros [[Hin | Heq] Hne]; tauto.
Qed.

Lemma updateDatabase_dom (items : list Item) :
  dom (own (updateDatabase items))
  = list_to_set (item_id <$> items) ∖ {[ "__proto__" ]}.
Proof.
  apply set_eq. intros id.
  rewrite updateDatabase_elem_of_dom, elem_of_difference,
    elem_of_list_to_set, elem_of_singleton.
  tauto.
Qed.

Lemma updateDatabase_core (items : list Item) :
  updateDatabase (core <$> items) = updateDatabase items.
Proof.
  induction items as [|item items IH] using rev_ind; [done|].
  rewrite fmap_app. simpl. rewrite !updateDatabase_snoc, IH.
  by destruct item.
Qed.

End updateDatabase_facts.

(** C6, as stated, fails on an item whose id is [__proto__]: the assignment
    replaces the prototype of the snapshot and adds no key, so the snapshot
    of that one item has no key at all. *)
Lemma updateDatabase_proto_id_adds_no_key :
  let item := sample_item "__proto__" "A" TEXT in
  item ∈ [item]
  ∧ own (ChangeDetector.updateDatabase [item]) !! item_id item = None
  ∧ dom (own (ChangeDetector.updateDatabase [item]))
    ≠ list_to_set (item_id <$> [item]).
Proof.
  split; [apply list_elem_of_here|]. split; [reflexivity|].
  intros Hdom. assert ("__proto__" ∈ dom (own (ChangeDetector.updateDatabase
                          [sample_item "__proto__" "A" TEXT]))) as Hin.
  { rewrite Hdom. apply elem_of_list_to_set, list_elem_of_here. }
  apply elem_of_dom in Hin as [entry Hentry]. discriminate Hentry.
Qed.

(** C6 (amended).  The own keys of the snapshot are exactly the ids of the
    current items other than [__proto__]; each key holds the entry of the
    last item carrying it, hence, ids being unique in a run, every such item
    is mapped to its own [{title, type}] entry; an item whose id is
    [__proto__] sets the prototype of the snapshot instead; an id of a prior
    catalog that no current item carries is absent.  When no item has the id
    [__proto__], as with the digit runs the scraper yields, the keys are
    exactly the ids of the current items. *)
Theorem updateDatabase_is_full_replace (items : list Item) :
  dom (own (ChangeDetector.updateDatabase items))
  = list_to_set (item_id <$> items) ∖ {[ "__proto__" ]}
  ∧ (∀ id, id ≠ "__proto__" →
       own (ChangeDetector.updateDatabase items) !! id
       = ChangeDetector.entry_of
           <$> last (filter (λ item, item_id item = id) items))
  ∧ (NoDup (item_id <$> items) →
     ∀ item, item ∈ items → item_id item ≠ "__proto__" →
       own (ChangeDetector.updateDatabase items) !! item_id item
       = Some (ChangeDetector.entry_of item))
  ∧ prototype (ChangeDetector.updateDatabase items)
    = ChangeDetector.entry_of
        <$> last (filter (λ item, item_id item = "__proto__") items)
  ∧ (∀ (prior : Database) id,
       is_Some (prior !! id) → id ∉ item_id <$> items →
       own (ChangeDetector.updateDatabase items) !! id = None)
  ∧ ("__proto__" ∉ item_id <$> items →
     dom (own (ChangeDetector.updateDatabase items))
     = list_to_set (item_id <$> items)
     ∧ prototype (ChangeDetector.updateDatabase items) = None).
Proof.
  split; [apply updateDatabase_dom|].
  split; [intros id Hid; by apply updateDatabase_own_lookup|].
  split.
  { intros Hnd item Hin Hid.
    by rewrite updateDatabase_own_lookup, (last_filter_unique items item Hnd Hin). }
  split; [apply updateDatabase_prototype|].
  split.
  { intros prior id _ Hid. apply not_elem_of_dom.
    rewrite updateDatabase_dom. rewrite elem_of_difference, elem_of_list_to_set.
    tauto. }
  intros Hproto. split.
  - rewrite updateDatabase_dom.
    apply difference_disjoint_L. apply disjoint_singleton_r.
    by rewrite elem_of_list_to_set.
  - rewrite updateDatabase_prototype.
    destruct (last _) as [kept|] eqn:Hlast; [|done].
    apply last_Some_elem_of, list_elem_of_filter in Hlast as [Hid Hin].
    destruct Hproto. apply list_elem_of_fmap. by exists kept.
Qed.

(** ** Strings and [trim] *)

Lemma append_cons (c : ascii) (s t : string) :
  String c s +:+ t = String c (s +:+ t).
Proof. reflexivity. Qed.

Lemma append_assoc (s t u : string) : (s +:+ t) +:+ u = s +:+ t +:+ u.
Proof.
  induction s as [|c s IH]; [done|]. by rewrite !append_cons, IH.
Qed.

Lemma append_empty_r (s : string) : s +:+ "" = s.
Proof. induction s as [|c s IH]; [done|]. by rewrite append_cons, IH. Qed.

Lemma length_append (s t : string) :
  String.length (s +:+ t) = String.length s + String.length t.
Proof. induction s as [|c s IH]; [done|]. simpl. by rewrite IH. Qed.

Section trim_facts.

Lemma strip_prefix_Some (t : string) :
  ∀ s rest, strip_prefix t s = Some rest → s = t +:+ rest.
Proof.
  induction t as [|a t IH]; intros s rest; simpl.
  - by intros [= ->].
  - destruct s as [|b s]; [done|].
    destruct (Ascii.eqb a b) eqn:Hab; [|done].
    apply Ascii.eqb_eq in Hab as ->. intros Hs. by rewrite (IH s rest Hs).
Qed.

Lemma strip_white_space_Some (s rest : string) :
  strip_white_space s = Some rest →
  ∃ t, t ∈ white_space ∧ s = t +:+ rest.
Proof.
  unfold strip_white_space. intros Hhead.
  apply head_Some_elem_of, list_elem_of_omap in Hhead as (t & Hin & Hstrip).
  exists t. split; [done|]. by apply strip_prefix_Some.
Qed.

Ltac list_white_space H :=
  let listed := eval vm_compute in white_space in
  change white_space with listed in H.

Lemma strip_white_space_token (t rest : string) :
  t ∈ white_space → strip_white_space (t +:+ rest) = Some rest.
Proof.
  intros Hin. list_white_space Hin.
  repeat (apply elem_of_cons in Hin as [-> | Hin]; [reflexivity|]).
  by apply elem_of_nil in Hin.
Qed.

Lemma white_space_not_empty (t : string) :
  t ∈ white_space → 0 < String.length t.
Proof.
  intros Hin. list_white_space Hin.
  repeat (apply elem_of_cons in Hin as [-> | Hin]; [simpl; lia|]).
  by apply elem_of_nil in Hin.
Qed.

Lemma trim_start_loop_blank (s : string) :
  blank s → ∀ fuel, (String.length s ≤ fuel)%nat → trim_start_loop fuel s = "".
Proof.
  induction 1 as [|t s Ht Hs IH]; intros fuel Hfuel.
  - by destruct fuel.
  - rewrite length_append in Hfuel.
    pose proof (white_space_not_empty t Ht).
    destruct fuel as [|fuel]; [lia|]. simpl.
    rewrite strip_white_space_token by done. apply IH. lia.
Qed.

Lemma trim_start_loop_split (fuel : nat) :
  ∀ s, ∃ lead, blank lead ∧ s = lead +:+ trim_start_loop fuel s.
Proof.
  induction fuel as [|fuel IH]; intros s; simpl.
  - exists "". split; [constructor | done].
  - destruct (strip_white_space s) as [rest|] eqn:Hstrip.
    + apply strip_white_space_Some in Hstrip as (t & Ht & ->).
      destruct (IH rest) as (lead & Hlead & Hrest).
      exists (t +:+ lead). split; [by constructor|].
      by rewrite append_assoc, <- Hrest.
    + exists "". split; [constructor | done].
Qed.

Lemma blank_append (s t : string) : blank s → blank t → blank (s +:+ t).
Proof.
  induction 1 as [|u s Hu Hs IH]; intros Ht; [done|].
  rewrite append_assoc. constructor; [done | by apply IH].
Qed.

Lemma trimStart_split (s : string) :
  ∃ lead, blank lead ∧ s = lead +:+ trimStart s.
Proof. apply trim_start_loop_split. Qed.

Lemma trim_start_loop_stripped (fuel : nat) :
  ∀ s, (String.length s ≤ fuel)%nat →
       strip_white_space (trim_start_loop fuel s) = None.
Proof.
  induction fuel as [|fuel IH]; intros s Hfuel; simpl.
  - destruct s; [done | simpl in Hfuel; lia].
  - destruct (strip_white_space s) as [rest|] eqn:Hstrip; [|done].
    apply IH.
    apply strip_white_space_Some in Hstrip as (t & Ht & ->).
    rewrite length_append in Hfuel.
    pose proof (white_space_not_empty t Ht). lia.
Qed.

(** What [trimStart] leaves does not begin with white space. *)
Lemma trimStart_stripped (s : string) :
  strip_white_space (trimStart s) = None.
Proof. by apply trim_start_loop_stripped. Qed.

Lemma is_blank_spec (s : string) : is_blank s = true ↔ blank s.
Proof.
  unfold is_blank. rewrite String.eqb_eq. split.
  - intros Hempty. destruct (trimStart_split s) as (lead & Hlead & Hs).
    rewrite Hempty, append_empty_r in Hs. by subst.
  - intros Hblank. by apply trim_start_loop_blank.
Qed.

Lemma trimEnd_split (s : string) :
  ∃ trail, blank trail ∧ s = trimEnd s +:+ trail.
Proof.
  induction s as [|c s (trail & Htrail & Hs)].
  - exists "". split; [constructor | done].
  - simpl. destruct (is_blank (String c s)) eqn:Hblank.
    + exists (String c s). split; [by apply is_blank_spec | done].
    + exists trail. split; [done|]. by rewrite append_cons, <- Hs.
Qed.

Lemma trimEnd_empty (s : string) : trimEnd s = "" ↔ blank s.
Proof.
  destruct s as [|c s]; simpl.
  - split; [constructor | done].
  - rewrite <- is_blank_spec. by destruct (is_blank (String c s)).
Qed.

(** [trim] gives the empty string exactly on white space. *)
Lemma trim_empty (s : string) : trim s = "" ↔ blank s.
Proof.
  unfold trim. rewrite trimEnd_empty. split.
  - intros Hrest. destruct (trimStart_split s) as (lead & Hlead & Hs).
    rewrite Hs. by apply blank_append.
  - intros Hblank. apply is_blank_spec in Hblank. unfold is_blank in Hblank.
    apply String.eqb_eq in Hblank. rewrite Hblank. constructor.
Qed.

(** [trim] takes white space off both ends. *)
Lemma trim_split (s : string) :
  ∃ lead trail, blank lead ∧ blank trail ∧ s = lead +:+ trim s +:+ trail.
Proof.
  destruct (trimStart_split s) as (lead & Hlead & Hs).
  destruct (trimEnd_split (trimStart s)) as (trail & Htrail & Ht).
  exists lead, trail. split; [done|]. split; [done|].
  unfold trim. by rewrite <- Ht.
Qed.

(** What [trim] leaves neither begins nor ends with white space. *)
Lemma trim_no_leading_white_space (s t rest : string) :
  t ∈ white_space → trim s ≠ t +:+ rest.
Proof.
  intros Ht Heq.
  destruct (trimEnd_split (trimStart s)) as (trail & _ & Hs).
  pose proof (trimStart_stripped s) as Hnone.
  fold (trim s) in Hs. rewrite Hs, Heq, append_assoc in Hnone.
  by rewrite strip_white_space_token in Hnone.
Qed.

Lemma trimEnd_no_trailing_white_space (s : string) :
  ∀ r t, t ∈ white_space → trimEnd s ≠ r +:+ t.
Proof.
  induction s as [|c s IH]; intros r t Ht Heq;
    pose proof (white_space_not_empty t Ht) as Hlen.
  - destruct r; [|done]. destruct t; [simpl in Hlen; lia | done].
  - simpl in Heq. destruct (is_blank (String c s)) eqn:Hblank.
    + destruct r; [|done]. destruct t; [simpl in Hlen; lia | done].
    + destruct r as [|d r].
      * destruct (trimEnd_split s) as (trail & Htrail & Hs).
        assert (blank (String c s)) as Hb.
        { assert (String c s = t +:+ trail) as ->
            by (change ("" +:+ t) with t in Heq;
                rewrite <- Heq, append_cons; by f_equal).
          by constructor. }
        apply is_blank_spec in Hb. congruence.
      * rewrite append_cons in Heq. injection Heq as _ Heq.
        by apply (IH r t).
Qed.

Lemma trim_no_trailing_white_space (s r t : string) :
  t ∈ white_space → trim s ≠ r +:+ t.
Proof. apply trimEnd_no_trailing_white_space. Qed.

End trim_facts.

Lemma own_text_blank (elements : list (list Child)) :
  Forall (Forall blank_child) elements →
  blank (ContentScraper.own_text elements).
Proof.
  unfold ContentScraper.own_text. intros Hall.
  induction Hall as [|children elements Hchildren _ IH]; [constructor|].
  simpl. rewrite foldr_app.
  induction Hchildren as [|child children Hchild _ IHc]; [done|].
  simpl. destruct child as [text|inner]; [|done].
  by apply blank_append.
Qed.

(** ** The scraper's node loop *)

Section scraper_facts.
Import ContentScraper.
Variable config : Config.

Lemma digits_prefix_digit_free (s : string) :
  (∀ c, c ∈ String.list_ascii_of_string s → is_digit c = false) →
  digits_prefix s = EmptyString.
Proof.
  destruct s as [|c rest]; [done|]. simpl. intros H.
  rewrite (H c); [done|]. apply list_elem_of_here.
Qed.

Lemma match_id_digit_free (href : string) :
  (∀ c, c ∈ String.list_ascii_of_string href → is_digit c = false) →
  match_id href = None.
Proof.
  induction href as [|c rest IH]; [done|]. simpl. intros H.
  assert (∀ c', c' ∈ String.list_ascii_of_string rest → is_digit c' = false) as Hrest.
  { intros c' Hc'. apply H. by apply list_elem_of_further. }
  rewrite (digits_prefix_digit_free rest Hrest), (IH Hrest).
  by destruct (Ascii.eqb c "/").
Qed.

Lemma match_id_nonempty (href id : string) :
  match_id href = Some id → String.eqb href "" = false.
Proof. by destruct href. Qed.

Lemma scrape_node_appends (items : list Item) (element : Node) :
  scrape_node config items element = items ++ items_of_node config element.
Proof.
  unfold items_of_node, scrape_node.
  destruct (node_href element) as [href|]; [|by rewrite app_nil_r].
  destruct (if String.eqb href "" then None else match_id href);
    [done | by rewrite app_nil_r].
Qed.

Lemma scrape_nodes_from (nodes : list Node) :
  ∀ items,
    foldl (scrape_node config) items nodes
    = items ++ foldl (scrape_node config) [] nodes.
Proof.
  induction nodes as [|element nodes IH]; intros items; simpl.
  - by rewrite app_nil_r.
  - rewrite IH, (IH (scrape_node config [] element)), scrape_node_appends.
    by rewrite <- app_assoc.
Qed.

Lemma scraped_split (wait : option string) (pre post : list Node) (element : Node) :
  scraped config {| page_wait := wait; page_nodes := pre ++ element :: post |}
  = scraped config {| page_wait := wait; page_nodes := pre |}
    ++ items_of_node config element
    ++ scraped config {| page_wait := wait; page_nodes := post |}.
Proof.
  unfold scraped. simpl. rewrite foldl_app. simpl.
  rewrite scrape_nodes_from, scrape_node_appends. by rewrite <- app_assoc.
Qed.

Lemma scraped_app (wait : option string) (pre post : list Node) :
  scraped config {| page_wait := wait; page_nodes := pre ++ post |}
  = scraped config {| page_wait := wait; page_nodes := pre |}
    ++ scraped config {| page_wait := wait; page_nodes := post |}.
Proof. unfold scraped. simpl. by rewrite foldl_app, scrape_nodes_from. Qed.

Lemma items_of_digit_free_node (element : Node) :
  digit_free element → items_of_node config element = [].
Proof.
  unfold digit_free, items_of_node, scrape_node.
  destruct (node_href element) as [href|]; [|done].
  intros H. rewrite (match_id_digit_free href H).
  by destruct (String.eqb href "").
Qed.

Lemma scrapeContent_loaded (page : Page) (w : World) :
  page_wait page = None →
  scrapeContent config page w = (Normal (scraped config page), w).
Proof. unfold scrapeContent. intros ->. reflexivity. Qed.

Lemma scrapeContent_timeout (page : Page) (w : World) (e : string) :
  page_wait page = Some e →
  scrapeContent config page w = (Throw "Failed to load course menu", w).
Proof. unfold scrapeContent. intros ->. reflexivity. Qed.

Lemma digits_prefix_digits (s : string) (c : ascii) :
  c ∈ String.list_ascii_of_string (digits_prefix s) → is_digit c = true.
Proof.
  induction s as [|d rest IH]; simpl; [by intros H; apply elem_of_nil in H|].
  destruct (is_digit d) eqn:Hd; simpl; [|by intros H; apply elem_of_nil in H].
  intros H. apply elem_of_cons in H as [-> | H]; [done | by apply IH].
Qed.

Lemma match_id_digits (href id : string) :
  match_id href = Some id →
  id ≠ EmptyString
  ∧ ∀ c, c ∈ String.list_ascii_of_string id → is_digit c = true.
Proof.
  induction href as [|d rest IH]; simpl; [done|].
  destruct (Ascii.eqb d "/"); [|done].
  destruct (digits_prefix rest) as [|c digits] eqn:Hp; [done|].
  intros [= <-]. split; [done|]. rewrite <- Hp. apply digits_prefix_digits.
Qed.

(** The ids of scraped items are non-empty runs of digits. *)
Lemma scraped_ids_are_digits (page : Page) (item : Item) :
  item ∈ scraped config page →
  item_id item ≠ EmptyString
  ∧ ∀ c, c ∈ String.list_ascii_of_string (item_id item) → is_digit c = true.
Proof.
  unfold scraped. induction (page_nodes page) as [|element nodes IH] using rev_ind.
  - intros H. by apply elem_of_nil in H.
  - rewrite foldl_app. simpl. rewrite scrape_node_appends.
    intros H. apply elem_of_app in H as [H | H]; [by apply IH|].
    unfold items_of_node, scrape_node in H.
    destruct (node_href element) as [href|]; [|by apply elem_of_nil in H].
    destruct (String.eqb href ""); [by apply elem_of_nil in H|].
    destruct (match_id href) as [id|] eqn:Hid; [|by apply elem_of_nil in H].
    apply list_elem_of_singleton in H as ->. simpl.
    by apply (match_id_digits href).
Qed.

Lemma scraped_not_inherited (page : Page) :
  Forall (λ item, item_id item ∉ Object_prototype) (scraped config page).
Proof.
  apply Forall_forall. intros item Hin.
  destruct (scraped_ids_are_digits page item Hin) as [Hne Hdigits].
  by apply digits_not_inherited.
Qed.

Lemma scraped_no_proto (page : Page) :
  "__proto__" ∉ item_id <$> scraped config page.
Proof.
  intros Hin. apply list_elem_of_fmap in Hin as (item & Heq & Hin).
  pose proof (scraped_not_inherited page) as Hall.
  rewrite Forall_forall in Hall. apply (Hall item Hin).
  rewrite <- Heq. apply inherited_spec. reflexivity.
Qed.

Lemma updateDatabase_scraped_dom (page : Page) :
  dom (own (ChangeDetector.updateDatabase (scraped config page)))
  = list_to_set (item_id <$> scraped config page).
Proof.
  rewrite updateDatabase_dom.
  apply difference_disjoint_L, disjoint_singleton_r.
  rewrite elem_of_list_to_set. apply scraped_no_proto.
Qed.

End scraper_facts.

(** C2, as stated, fails on an item whose id is a name every object
    inherits: [database[item.id]] then finds the inherited function, which is
    truthy and has no [type], and no event is raised for the item. *)
Lemma detectChanges_inherited_name_is_not_new :
  let L := [sample_item "constructor" "A" VIDEO] in
  ChangeDetector.detectChanges L (∅ : Database) = []
  ∧ ChangeDetector.detectChanges L (∅ : Database)
    ≠ imap (λ k _, {| act_type := NEW; act_data := k |}) L.
Proof. split; [reflexivity | discriminate]. Qed.

(** C2 (amended).  On the empty catalog the events are one NEW per item, the
    k-th event pointing to the k-th item, for every list none of whose ids is
    a name inherited from [Object.prototype], hence for every list the
    scraper yields; on any catalog the items the events point to come in
    strictly increasing position, so the events follow the order of the list
    and no item has two of them. *)
Theorem detectChanges_keeps_input_order (L : list Item) (database : Database) :
  (Forall (λ item, item_id item ∉ Object_prototype) L →
   ChangeDetector.detectChanges L (∅ : Database)
   = imap (λ k _, {| act_type := NEW; act_data := k |}) L)
  ∧ (∀ config page,
       L = scraped config page →
       ChangeDetector.detectChanges L (∅ : Database)
       = imap (λ k _, {| act_type := NEW; act_data := k |}) L)
  ∧ StronglySorted lt (act_data <$> ChangeDetector.detectChanges L database)
  ∧ (∀ a, a ∈ ChangeDetector.detectChanges L database → act_data a < length L).
Proof.
  split; [apply detectChanges_empty_catalog|]. split; [|split].
  - intros config page ->.
    apply detectChanges_empty_catalog, scraped_not_inherited.
  - rewrite detectChanges_events. apply events_from_sorted.
  - intros a Ha. apply elem_of_detectChanges in Ha as (item & Hk & _).
    by apply lookup_lt_Some in Hk.
Qed.

(** C7.  On a page whose menu loads, a node whose link target has no digit
    is passed over: the scrape ends normally and its items are those of the
    page without that node.  A node that does yield an id and whose title
    elements hold nothing but white space next to their nested elements
    becomes an item titled [Unknown Title]; when its own text is not all
    white space, the title is that text without the white space at its two
    ends, and is not empty. *)
Theorem scrapeContent_skips_and_defaults
    (config : Config) (pre post : list Node) (element : Node) (w : World) :
  let page := {| page_wait := None; page_nodes := pre ++ element :: post |} in
  let before := {| page_wait := None; page_nodes := pre |} in
  let after := {| page_wait := None; page_nodes := post |} in
  let item_of href id title :=
    {| item_id := id;
       item_title := title;
       item_type :=
         ContentScraper.identifyContentType (node_details element) href;
       item_url := js_concat (COURSE_BASE_URL config) href;
       item_image := None |} in
  (digit_free element →
     ContentScraper.scrapeContent config page w
     = (Normal (scraped config before ++ scraped config after), w)
     ∧ items_of_node config element = [])
  ∧ (∀ href id,
       node_href element = Some href →
       match_id href = Some id →
       Forall (Forall blank_child) (node_title element) →
       ContentScraper.scrapeContent config page w
       = (Normal (scraped config before
                  ++ [item_of href id "Unknown Title"]
                  ++ scraped config after), w))
  ∧ (∀ href id,
       node_href element = Some href →
       match_id href = Some id →
       ¬ blank (ContentScraper.own_text (node_title element)) →
       ∃ lead title trail,
         ContentScraper.own_text (node_title element) = lead +:+ title +:+ trail
         ∧ blank lead ∧ blank trail ∧ title ≠ ""
         ∧ (∀ t rest, t ∈ white_space → title ≠ t +:+ rest)
         ∧ (∀ t rest, t ∈ white_space → title ≠ rest +:+ t)
         ∧ ContentScraper.scrapeContent config page w
           = (Normal (scraped config before
                      ++ [item_of href id title]
                      ++ scraped config after), w)).
Proof.
  intros page before after item_of. split; [|split].
  - intros Hfree. split; [|by apply items_of_digit_free_node].
    rewrite scrapeContent_loaded by done. unfold page.
    by rewrite scraped_split, items_of_digit_free_node.
  - intros href id Hhref Hid Htitle.
    rewrite scrapeContent_loaded by done. unfold page.
    rewrite scraped_split. do 3 f_equal.
    unfold items_of_node, ContentScraper.scrape_node.
    rewrite Hhref, (match_id_nonempty href id Hid), Hid.
    apply own_text_blank, trim_empty in Htitle. rewrite Htitle. reflexivity.
  - intros href id Hhref Hid Htitle.
    destruct (trim_split (ContentScraper.own_text (node_title element)))
      as (lead & trail & Hlead & Htrail & Htext).
    exists lead, (trim (ContentScraper.own_text (node_title element))), trail.
    assert (trim (ContentScraper.own_text (node_title element)) ≠ "") as Hne
      by (by rewrite trim_empty).
    split; [done|]. split; [done|]. split; [done|]. split; [done|].
    split; [intros t rest Ht; by apply trim_no_leading_white_space|].
    split; [intros t rest Ht; by apply trim_no_trailing_white_space|].
    rewrite scrapeContent_loaded by done. unfold page.
    rewrite scraped_split. do 3 f_equal.
    unfold items_of_node, ContentScraper.scrape_node.
    rewrite Hhref, (match_id_nonempty href id Hid), Hid. simpl.
    apply String.eqb_neq in Hne. by rewrite Hne.
Qed.

(** ** The thumbnail lookup *)

Section thumbnail_facts.
Import ContentScraper.

Lemma same_but_console_refl (w : World) : same_but_console w w.
Proof. by repeat split. Qed.

Lemma same_but_console_trans (w1 w2 w3 : World) :
  same_but_console w1 w2 → same_but_console w2 w3 → same_but_console w1 w3.
Proof.
  intros (H1 & H2 & H3) (H4 & H5 & H6).
  repeat split; congruence.
Qed.

Lemma log_effect (level message : string) (w : World) :
  ∃ w', log level message w = (Normal tt, w')
        ∧ same_but_console w w'
        ∧ console w' = console w ++ [(level, message)].
Proof. eexists. split; [reflexivity|]. by repeat split. Qed.

Lemma log_all_effect (lines : list (string * string)) :
  ∀ w, ∃ w', log_all lines w = (Normal tt, w')
             ∧ same_but_console w w'
             ∧ console w' = console w ++ lines.
Proof.
  induction lines as [|[level message] rest IH]; intros w.
  - exists w. split; [done|]. split; [apply same_but_console_refl|].
    by rewrite app_nil_r.
  - destruct (log_effect level message w) as (w1 & Hlog & Hsame1 & Hc1).
    destruct (IH w1) as (w2 & Hrest & Hsame2 & Hc2).
    exists w2. simpl. unfold mbind, M_bind. rewrite Hlog.
    split; [done|]. split; [by eapply same_but_console_trans|].
    by rewrite Hc2, Hc1, <- app_assoc.
Qed.

Lemma ensureAuthenticated_run (env : Env) (w : World) :
  ∃ w', CourseMonitor.ensureAuthenticated env w
        = (match env_login env with
           | None => Normal tt
           | Some e => Throw e
           end, w')
        ∧ same_but_console w w'
        ∧ console w' = console w ++ env_login_log env.
Proof.
  unfold CourseMonitor.ensureAuthenticated, mbind, M_bind.
  destruct (log_all_effect (env_login_log env) w) as (w' & -> & Hsame & Hc).
  exists w'. split; [|by split]. by destruct (env_login env).
Qed.

Lemma find_in_scripts_head (scripts : list (option JSON)) :
  find_in_scripts scripts = head (omap script_thumbnail scripts).
Proof.
  induction scripts as [|script rest IH]; [done|]. simpl.
  destruct script as [data|]; simpl; [|done].
  destruct (thumbnailUrl_of data) as [[v|]|]; simpl; try done.
  by destruct (truthy v).
Qed.

Lemma script_thumbnail_truthy (script : option JSON) (v : JSON) :
  script_thumbnail script = Some v → truthy v = true.
Proof.
  destruct script as [data|]; simpl; [|done].
  destruct (thumbnailUrl_of data) as [[u|]|]; try done.
  destruct (truthy u) eqn:Hu; [|done]. by intros [= <-].
Qed.

Lemma frame_thumbnail_truthy (frame : Frame) (v : JSON) :
  frame_thumbnail frame = Some v → truthy v = true.
Proof.
  destruct frame as [e|scripts]; simpl; [done|].
  induction scripts as [|script rest IH]; simpl; [done|].
  destruct (script_thumbnail script) as [u|] eqn:Hs; simpl; [|done].
  intros [= <-]. by eapply script_thumbnail_truthy.
Qed.

Lemma scan_result_absent (frames : list Frame) :
  Forall (λ frame, frame_thumbnail frame = None) frames →
  scan_result frames = None.
Proof.
  induction 1 as [|frame rest Hf _ IH]; [done|]. simpl.
  destruct frame as [e|scripts]; [done|].
  rewrite find_in_scripts_head. simpl in Hf. by rewrite Hf.
Qed.

Lemma scan_result_first (pre post : list Frame) (frame : Frame) (v : JSON) :
  Forall (λ f, evaluates f ∧ frame_thumbnail f = None) pre →
  frame_thumbnail frame = Some v →
  scan_result (pre ++ frame :: post) = Some v.
Proof.
  intros Hpre Hv. induction Hpre as [|f rest [Hev Hf] _ IH]; simpl.
  - destruct frame as [e|scripts]; [done|].
    rewrite find_in_scripts_head. simpl in Hv. rewrite Hv.
    by rewrite (frame_thumbnail_truthy (Document scripts) v Hv).
  - destruct f as [e|scripts]; [done|].
    rewrite find_in_scripts_head. simpl in Hf. by rewrite Hf.
Qed.

Lemma scan_frames_outcome (frames : list Frame) :
  ∀ w, ∃ r w',
    scan_frames frames w = (r, w')
    ∧ same_but_console w w'
    ∧ (r = Normal (scan_result frames)
       ∨ (∃ e, r = Throw e) ∧ scan_result frames = None).
Proof.
  induction frames as [|frame rest IH]; intros w.
  - do 2 eexists. split; [reflexivity|]. split; [by repeat split | by left].
  - destruct frame as [e|scripts].
    + do 2 eexists. split; [reflexivity|].
      split; [apply same_but_console_refl|]. right. eauto.
    + simpl. unfold mbind, M_bind. simpl.
      destruct (find_in_scripts scripts) as [v|] eqn:Hfind; [|apply IH].
      destruct (truthy v); [|apply IH].
      do 2 eexists. split; [reflexivity|]. split; [by repeat split | by left].
Qed.

Lemma extractThumbnail_value (page : Visit) (url : string) (w : World) :
  ∃ w', extractThumbnail page url w = (Normal (thumbnail_of page), w')
        ∧ same_but_console w w'.
Proof.
  unfold extractThumbnail, thumbnail_of, try_catch.
  destruct (log_effect "INFO" ("Fetching thumbnail for: " +:+ url) w)
    as (w1 & Hlog & Hsame1 & _).
  unfold mbind, M_bind. rewrite Hlog.
  destruct (visit_goto page) as [e|]; simpl.
  - eexists. split; [reflexivity|].
    eapply same_but_console_trans; [apply Hsame1 | by repeat split].
  - destruct (scan_frames_outcome (visit_frames page) w1)
      as (r & w2 & Hscan & Hsame2 & Hr).
    rewrite Hscan. destruct Hr as [-> | [[e ->] Hnone]].
    + eexists. split; [reflexivity|]. by eapply same_but_console_trans.
    + rewrite Hnone. eexists. split; [reflexivity|].
      eapply same_but_console_trans; [apply Hsame1|].
      eapply same_but_console_trans; [apply Hsame2 | by repeat split].
Qed.

Lemma scan_result_Some (frames : list Frame) (v : JSON) :
  scan_result frames = Some v →
  ∃ pre frame post,
    frames = pre ++ frame :: post
    ∧ Forall (λ f, evaluates f ∧ frame_thumbnail f = None) pre
    ∧ frame_thumbnail frame = Some v.
Proof.
  induction frames as [|frame rest IH]; [done|]. simpl.
  destruct frame as [e|scripts]; [done|].
  rewrite find_in_scripts_head.
  destruct (head (omap script_thumbnail scripts)) as [u|] eqn:Hu.
  - rewrite (frame_thumbnail_truthy (Document scripts) u Hu). intros [= ->].
    exists [], (Document scripts), rest. split; [done|]. by split.
  - intros Hrest. destruct (IH Hrest) as (pre & frame & post & -> & Hpre & Hv).
    exists (Document scripts :: pre), frame, post.
    split; [done|]. split; [|done]. constructor; [by split | done].
Qed.

Lemma scan_result_detached (pre post : list Frame) (e : string) :
  Forall (λ f, frame_thumbnail f = None) pre →
  scan_result (pre ++ Detached e :: post) = None.
Proof.
  induction 1 as [|f rest Hf _ IH]; [done|]. simpl.
  destruct f as [e'|scripts]; [done|].
  rewrite find_in_scripts_head. simpl in Hf. by rewrite Hf.
Qed.

End thumbnail_facts.

(** C8, as stated, fails when a frame cannot be evaluated before a thumbnail
    is found: the navigation succeeds and the second frame carries a
    thumbnail, but evaluating the first frame rejects, the [catch] takes
    over and the result is [null] instead of that thumbnail. *)
Lemma extractThumbnail_gives_up_on_detached_frame :
  visit_goto detached_visit = None
  ∧ (∃ frame, frame ∈ visit_frames detached_visit
              ∧ frame_thumbnail frame = Some (JStr "https://cdn.example/1.png"))
  ∧ fst (ContentScraper.extractThumbnail detached_visit
           "https://school.example/1" fresh_world)
    = Normal None.
Proof.
  split; [reflexivity|]. split; [|reflexivity].
  eexists. split; [apply list_elem_of_further, list_elem_of_here | reflexivity].
Qed.

(** C8 (amended).  [extractThumbnail] always ends normally.  It returns a
    thumbnail exactly when the navigation succeeds, some frame has one and
    every frame before the first such frame could be evaluated; the value is
    then the thumbnail of that frame, the truthy [thumbnailUrl] of its first
    script carrying one.  In every other case it returns [null]: when the
    navigation fails, when no frame has a thumbnail, and when evaluating a
    frame fails before a thumbnail is found, whatever the later frames
    hold. *)
Theorem extractThumbnail_never_raises (page : Visit) (url : string) (w : World) :
  (∃ result w',
     ContentScraper.extractThumbnail page url w = (Normal result, w'))
  ∧ (∀ v,
       fst (ContentScraper.extractThumbnail page url w) = Normal (Some v)
       ↔ visit_goto page = None
         ∧ ∃ pre frame post,
             visit_frames page = pre ++ frame :: post
             ∧ Forall (λ f, evaluates f ∧ frame_thumbnail f = None) pre
             ∧ frame_thumbnail frame = Some v)
  ∧ (is_Some (visit_goto page) →
     fst (ContentScraper.extractThumbnail page url w) = Normal None)
  ∧ (Forall (λ frame, frame_thumbnail frame = None) (visit_frames page) →
     fst (ContentScraper.extractThumbnail page url w) = Normal None)
  ∧ (∀ pre e post,
       visit_frames page = pre ++ Detached e :: post →
       Forall (λ f, frame_thumbnail f = None) pre →
       fst (ContentScraper.extractThumbnail page url w) = Normal None).
Proof.
  destruct (extractThumbnail_value page url w) as (w' & Hrun & _).
  rewrite Hrun. simpl. unfold thumbnail_of.
  split; [eauto|]. split; [|split; [|split]].
  - intros v. split.
    + intros [= Hv]. destruct (visit_goto page); [done|].
      split; [done|]. by apply scan_result_Some.
    + intros (-> & pre & frame & post & -> & Hpre & Hv).
      by rewrite (scan_result_first pre post frame v).
  - intros [e ->]. reflexivity.
  - intros Hnone. destruct (visit_goto page); [done|].
    by rewrite scan_result_absent.
  - intros pre e post -> Hpre. destruct (visit_goto page); [done|].
    by rewrite scan_result_detached.
Qed.

(** ** The catalog store *)

Lemma bind_run {A B} (m : M A) (k : A → M B) (w : World) :
  (m ≫= k) w = match m w with
               | (Normal a, w') => k a w'
               | (Throw e, w') => (Throw e, w')
               end.
Proof. reflexivity. Qed.

Lemma readJSON_value (filepath : string) (file : File Database) (w : World) :
  ∃ w', readJSON filepath file w = (Normal (catalog_of file), w')
        ∧ same_but_console w w'.
Proof.
  destruct file; eexists; (split; [reflexivity|]); by repeat split.
Qed.

Lemma writeJSON_written `{JSObject T} (filepath : string) (data : T) (w : World) :
  ∃ w', writeJSON Written filepath data w = (Normal tt, w')
        ∧ database_file w' = Holds (JSON_stringify data)
        ∧ requests w' = requests w
        ∧ console w' = console w.
Proof. eexists. split; [reflexivity|]. by repeat split. Qed.

Lemma writeJSON_failed `{JSObject T} (e : string) (residue : File Database)
    (filepath : string) (data : T) (w : World) :
  ∃ w', writeJSON (WriteFailed e residue) filepath data w = (Throw e, w')
        ∧ database_file w' = residue
        ∧ requests w' = requests w
        ∧ console w'
          = console w ++ [("ERROR", "Failed to write " +:+ filepath +:+ ": " +:+ e)].
Proof. eexists. split; [reflexivity|]. by repeat split. Qed.

(** ** Dispatch *)

Section dispatch_facts.
Import CourseMonitor NotificationService.
Variables (env : Env) (config : Config).

Lemma send_accepted (content : Item) (eventType : EventType) (w : World) :
  reply_ok (env_webhook env (length (requests w))) = true →
  ∃ w', send env config content eventType w = (Normal tt, w')
        ∧ database_file w' = database_file w
        ∧ requests w' = requests w ++ [build_payload config content eventType].
Proof.
  intros Hok. unfold send, try_catch, fetch. rewrite bind_run.
  destruct (env_webhook env (length (requests w))) as [status|message];
    [|discriminate Hok].
  simpl in Hok. rewrite Hok. eexists. split; [reflexivity|]. by split.
Qed.

Lemma send_refused (content : Item) (eventType : EventType) (w : World) :
  reply_ok (env_webhook env (length (requests w))) = false →
  ∃ e w', send env config content eventType w = (Throw e, w')
          ∧ database_file w' = database_file w
          ∧ requests w' = requests w ++ [build_payload config content eventType].
Proof.
  intros Hok. unfold send, try_catch, fetch. rewrite bind_run.
  destruct (env_webhook env (length (requests w))) as [status|message].
  - simpl in Hok. rewrite Hok. do 2 eexists. split; [reflexivity|]. by split.
  - do 2 eexists. split; [reflexivity|]. by split.
Qed.

Lemma with_image_value (item : Item) (w : World) :
  ∃ w', with_image env config item w
        = (Normal (prepare env config (length (requests w)) item), w')
        ∧ same_but_console w w'.
Proof.
  unfold with_image, prepare. simpl.
  case_bool_decide; [|eexists; split; [reflexivity | apply same_but_console_refl]].
  rewrite bind_run. simpl. rewrite bind_run.
  destruct (extractThumbnail_value
              (env_visit env (length (requests w)) (item_url item))
              (item_url item) w) as (w' & -> & Hsame).
  exists w'. split; [|done].
  by destruct (thumbnail_of _).
Qed.

Lemma core_prepare (n : nat) (item : Item) :
  core (prepare env config n item) = core item.
Proof.
  unfold prepare. case_bool_decide; [|done].
  destruct (thumbnail_of _) as [v|]; [|done]. by destruct (truthy v).
Qed.

Lemma prepare_core (n : nat) (item : Item) :
  prepare env config n (core item) = prepare env config n item.
Proof. reflexivity. Qed.

Lemma prepare_same_core (n : nat) (a b : Item) :
  core a = core b → prepare env config n a = prepare env config n b.
Proof. intros H. by rewrite <- (prepare_core n a), H, prepare_core. Qed.

Lemma payloads_same_core (actions : list Action) :
  ∀ n items1 items2,
    core <$> items1 = core <$> items2 →
    payloads env config n actions items1 = payloads env config n actions items2.
Proof.
  induction actions as [|action rest IH]; intros n items1 items2 Hcore; [done|].
  simpl.
  assert (core <$> items1 !! act_data action = core <$> items2 !! act_data action)
    as Hk by (by rewrite <- !list_lookup_fmap, Hcore).
  destruct (items1 !! act_data action) as [a|], (items2 !! act_data action) as [b|];
    simpl in Hk; try done.
  apply (inj Some) in Hk.
  by rewrite (prepare_same_core n a b Hk), (IH _ _ _ Hcore).
Qed.

Lemma core_insert_prepared (items : list Item) (k n : nat) (item : Item) :
  items !! k = Some item →
  core <$> <[k := prepare env config n item]> items = core <$> items.
Proof.
  intros Hk. rewrite list_fmap_insert, core_prepare.
  apply list_insert_id. by rewrite list_lookup_fmap, Hk.
Qed.

Lemma processActions_all_sent (actions : list Action) :
  ∀ items w,
    Forall (λ a, act_data a < length items) actions →
    sends_ok env (length (requests w)) (length actions) →
    ∃ items' w',
      processActions env config actions items w = (Normal items', w')
      ∧ core <$> items' = core <$> items
      ∧ database_file w' = database_file w
      ∧ requests w'
        = requests w ++ payloads env config (length (requests w)) actions items.
Proof.
  induction actions as [|action rest IH]; intros items w Hbound Hok.
  - exists items, w. simpl. by rewrite app_nil_r.
  - apply Forall_cons in Hbound as [Hk Hbound].
    apply lookup_lt_is_Some in Hk as [item Hk].
    simpl. rewrite Hk, bind_run.
    destruct (with_image_value item w) as (w1 & -> & Hf1 & Hr1 & _).
    rewrite bind_run.
    destruct (send_accepted (prepare env config (length (requests w)) item)
                (act_type action) w1) as (w2 & -> & Hf2 & Hr2).
    { rewrite Hr1. specialize (Hok 0). rewrite Nat.add_0_r in Hok.
      apply Hok. simpl. lia. }
    rewrite bind_run. simpl.
    destruct (IH (<[act_data action := prepare env config (length (requests w)) item]> items) w2)
      as (items' & w3 & -> & Hcore & Hf3 & Hr3).
    { by rewrite length_insert. }
    { rewrite Hr2, Hr1, length_app. simpl. intros i Hi.
      replace (length (requests w) + 1 + i) with (length (requests w) + S i) by lia.
      apply Hok. simpl. lia. }
    exists items', w3. split; [done|].
    split; [by rewrite Hcore, core_insert_prepared|].
    split; [congruence|].
    rewrite Hr3, Hr2, Hr1, length_app, <- app_assoc. simpl.
    rewrite Nat.add_1_r.
    rewrite (payloads_same_core rest (S (length (requests w))) _ items); [done|].
    by apply core_insert_prepared.
Qed.

Lemma processActions_first_failure (actions : list Action) :
  ∀ j items w,
    Forall (λ a, act_data a < length items) actions →
    j < length actions →
    sends_ok env (length (requests w)) j →
    reply_ok (env_webhook env (length (requests w) + j)) = false →
    ∃ e w',
      processActions env config actions items w = (Throw e, w')
      ∧ database_file w' = database_file w
      ∧ requests w'
        = requests w
          ++ take (S j) (payloads env config (length (requests w)) actions items).
Proof.
  induction actions as [|action rest IH]; intros j items w Hbound Hj Hok Hfail.
  - simpl in Hj. lia.
  - apply Forall_cons in Hbound as [Hk Hbound].
    apply lookup_lt_is_Some in Hk as [item Hk].
    simpl. rewrite Hk, bind_run.
    destruct (with_image_value item w) as (w1 & -> & Hf1 & Hr1 & _).
    rewrite bind_run.
    destruct j as [|j].
    + destruct (send_refused (prepare env config (length (requests w)) item)
                  (act_type action) w1) as (e & w2 & -> & Hf2 & Hr2).
      { by rewrite Hr1, <- (Nat.add_0_r (length (requests w))). }
      exists e, w2. split; [done|]. split; [congruence|].
      rewrite Hr2, Hr1. simpl. by rewrite take_0.
    + destruct (send_accepted (prepare env config (length (requests w)) item)
                  (act_type action) w1) as (w2 & -> & Hf2 & Hr2).
      { rewrite Hr1. specialize (Hok 0). rewrite Nat.add_0_r in Hok.
        apply Hok. lia. }
      rewrite bind_run. simpl.
      assert (length (requests w2) = S (length (requests w))) as Hlen.
      { rewrite Hr2, Hr1, length_app. simpl. lia. }
      destruct (IH j (<[act_data action := prepare env config (length (requests w)) item]> items) w2)
        as (e & w3 & -> & Hf3 & Hr3).
      { by rewrite length_insert. }
      { simpl in Hj. lia. }
      { rewrite Hlen. intros i Hi.
        replace (S (length (requests w)) + i) with (length (requests w) + S i) by lia.
        apply Hok. lia. }
      { rewrite Hlen.
        by replace (S (length (requests w)) + j) with (length (requests w) + S j) by lia. }
      exists e, w3. split; [done|]. split; [congruence|].
      rewrite Hr3, Hlen, Hr2, Hr1, <- app_assoc. simpl.
      rewrite (payloads_same_core rest (S (length (requests w))) _ items); [done|].
      by apply core_insert_prepared.
Qed.

Lemma payloads_length (actions : list Action) :
  ∀ n items,
    Forall (λ a, act_data a < length items) actions →
    length (payloads env config n actions items) = length actions.
Proof.
  induction actions as [|action rest IH]; intros n items Hbound; [done|].
  apply Forall_cons in Hbound as [Hk Hbound].
  apply lookup_lt_is_Some in Hk as [item Hk].
  simpl. rewrite Hk. simpl. by rewrite IH.
Qed.

End dispatch_facts.

(** ** The monitoring cycle *)

Lemma detectChanges_in_range (items : list Item) (database : Database) :
  Forall (λ a, act_data a < length items)
         (ChangeDetector.detectChanges items database).
Proof.
  apply Forall_forall. intros a Ha.
  apply elem_of_detectChanges in Ha as (item & Hk & _).
  by apply lookup_lt_Some in Hk.
Qed.

Section cycle_facts.
Import ChangeDetector CourseMonitor ContentScraper.
Variables (env : Env) (config : Config) (w : World).

Ltac run_log w' H :=
  rewrite bind_run;
  match goal with
  | |- context [log ?l ?m ?w0] =>
      let Hrun := fresh "Hrun" in
      destruct (log_effect l m w0) as (w' & Hrun & H);
      rewrite Hrun; clear Hrun
  end.

Ltac run_to_detection Hreach w1 Hf Hr :=
  destruct Hreach as (Hlaunch & Hlogin & Hwait);
  unfold check; rewrite bind_run; simpl;
  unfold try_finally, try_catch;
  rewrite bind_run; unfold launch at 1; rewrite Hlaunch; simpl;
  rewrite bind_run;
  match goal with
  | |- context [ensureAuthenticated env ?w0] =>
      let Hrun := fresh "Hrun" in
      let wa := fresh "wa" in
      let Hfa := fresh "Hfa" in
      let Hra := fresh "Hra" in
      destruct (ensureAuthenticated_run env w0) as (wa & Hrun & (Hfa & Hra & _) & _);
      rewrite Hrun, Hlogin; clear Hrun; simpl in Hfa, Hra;
      rewrite bind_run, scrapeContent_loaded by done;
      rewrite bind_run; simpl; rewrite bind_run, Hfa;
      match goal with
      | |- context [readJSON ?p ?f ?w0] =>
          let Hrun := fresh "Hrun" in
          destruct (readJSON_value p f w0) as (w1 & Hrun & Hf & Hr & _);
          rewrite Hrun; clear Hrun; rewrite Hfa in Hf; rewrite Hra in Hr
      end
  end.

Lemma check_no_change :
  reaches_detection env →
  detectChanges (scraped config (env_course_page env))
                (catalog_of (database_file w)) = [] →
  ∃ w', check env config w = (Normal tt, w')
        ∧ database_file w' = database_file w
        ∧ requests w' = requests w.
Proof.
  intros Hreach Hnone. run_to_detection Hreach w1 Hf1 Hr1.
  rewrite Hnone. simpl.
  eexists. split; [reflexivity|]. simpl. by split.
Qed.

Ltac run_write Hwrite e residue w3 Hf3 Hr3 Hc3 :=
  rewrite bind_run;
  destruct (env_write env) as [|e residue] eqn:Hwrite;
  match goal with
  | |- context [writeJSON Written ?p ?d ?w0] =>
      let Hrun := fresh "Hrun" in
      destruct (writeJSON_written p d w0) as (w3 & Hrun & Hf3 & Hr3 & Hc3);
      rewrite Hrun; clear Hrun
  | |- context [writeJSON (WriteFailed _ _) ?p ?d ?w0] =>
      let Hrun := fresh "Hrun" in
      destruct (writeJSON_failed e residue p d w0) as (w3 & Hrun & Hf3 & Hr3 & Hc3);
      rewrite Hrun; clear Hrun
  end.

Lemma check_bootstrap :
  reaches_detection env →
  detectChanges (scraped config (env_course_page env))
                (catalog_of (database_file w)) ≠ [] →
  size (catalog_of (database_file w)) = 0 →
  ∃ w', check env config w = (Normal tt, w')
        ∧ requests w' = requests w
        ∧ (env_write env = Written →
           database_file w'
           = Holds (own (updateDatabase (scraped config (env_course_page env)))))
        ∧ (∀ e residue, env_write env = WriteFailed e residue →
           database_file w' = residue
           ∧ ∃ lines, console w'
               = lines ++ [("ERROR", "Failed to write " +:+ DATABASE_FILE +:+ ": " +:+ e);
                           ("ERROR", "Critical error: " +:+ e)]).
Proof.
  intros Hreach Hsome Hsize. run_to_detection Hreach w1 Hf1 Hr1.
  rewrite bool_decide_eq_true_2
    by (destruct (detectChanges _ _); [done | simpl; lia]).
  rewrite (bool_decide_eq_true_2 _ Hsize).
  rewrite bind_run. run_log w2 Hw2. simpl.
  destruct Hw2 as ((Hf2 & Hr2 & _) & _).
  run_write Hwrite e residue w3 Hf3 Hr3 Hc3; simpl;
    (eexists; split; [reflexivity|]); simpl.
  - split; [congruence|]. split; [done|]. intros e residue [=].
  - split; [congruence|]. split; [done|]. intros e' residue' [= <- <-].
    split; [done|]. exists (console w2). by rewrite Hc3, <- app_assoc.
Qed.

Lemma check_dispatched :
  reaches_detection env →
  detectChanges (scraped config (env_course_page env))
                (catalog_of (database_file w)) ≠ [] →
  size (catalog_of (database_file w)) ≠ 0 →
  sends_ok env (length (requests w))
    (length (detectChanges (scraped config (env_course_page env))
                           (catalog_of (database_file w)))) →
  ∃ w', check env config w = (Normal tt, w')
        ∧ requests w'
          = requests w
            ++ payloads env config (length (requests w))
                 (detectChanges (scraped config (env_course_page env))
                                (catalog_of (database_file w)))
                 (scraped config (env_course_page env))
        ∧ (env_write env = Written →
           database_file w'
           = Holds (own (updateDatabase (scraped config (env_course_page env)))))
        ∧ (∀ e residue, env_write env = WriteFailed e residue →
           database_file w' = residue
           ∧ ∃ lines, console w'
               = lines ++ [("ERROR", "Failed to write " +:+ DATABASE_FILE +:+ ": " +:+ e);
                           ("ERROR", "Critical error: " +:+ e)]).
Proof.
  intros Hreach Hsome Hsize Hok. run_to_detection Hreach w1 Hf1 Hr1.
  rewrite bool_decide_eq_true_2
    by (destruct (detectChanges _ _); [done | simpl; lia]).
  rewrite (bool_decide_eq_false_2 _ Hsize).
  rewrite bind_run. run_log w2 Hw2.
  destruct Hw2 as ((Hf2 & Hr2 & _) & _).
  destruct (processActions_all_sent env config
              (detectChanges (scraped config (env_course_page env))
                             (catalog_of (database_file w)))
              (scraped config (env_course_page env)) w2)
    as (items' & w3 & -> & Hcore & Hf3 & Hr3).
  { apply detectChanges_in_range. }
  { by rewrite Hr2, Hr1. }
  rewrite <- (updateDatabase_core items'), Hcore, updateDatabase_core.
  rewrite Hr2, Hr1 in Hr3.
  run_write Hwrite e residue w4 Hf4 Hr4 Hc4; simpl;
    (eexists; split; [reflexivity|]); simpl.
  - split; [congruence|]. split; [done|]. intros e residue [=].
  - split; [congruence|]. split; [done|]. intros e' residue' [= <- <-].
    split; [done|]. exists (console w3). by rewrite Hc4, <- app_assoc.
Qed.

Lemma check_aborted (j : nat) :
  reaches_detection env →
  size (catalog_of (database_file w)) ≠ 0 →
  j < length (detectChanges (scraped config (env_course_page env))
                            (catalog_of (database_file w))) →
  sends_ok env (length (requests w)) j →
  reply_ok (env_webhook env (length (requests w) + j)) = false →
  ∃ w', check env config w = (Normal tt, w')
        ∧ requests w'
          = requests w
            ++ take (S j)
                 (payloads env config (length (requests w))
                    (detectChanges (scraped config (env_course_page env))
                                   (catalog_of (database_file w)))
                    (scraped config (env_course_page env)))
        ∧ database_file w' = database_file w.
Proof.
  intros Hreach Hsize Hj Hok Hfail. run_to_detection Hreach w1 Hf1 Hr1.
  rewrite bool_decide_eq_true_2 by lia.
  rewrite (bool_decide_eq_false_2 _ Hsize).
  rewrite bind_run. run_log w2 Hw2.
  destruct Hw2 as ((Hf2 & Hr2 & _) & _).
  destruct (processActions_first_failure env config
              (detectChanges (scraped config (env_course_page env))
                             (catalog_of (database_file w))) j
              (scraped config (env_course_page env)) w2)
    as (e & w3 & -> & Hf3 & Hr3).
  { apply detectChanges_in_range. }
  { done. }
  { by rewrite Hr2, Hr1. }
  { by rewrite Hr2, Hr1. }
  rewrite Hr2, Hr1 in Hr3. simpl.
  eexists. split; [reflexivity|]. simpl. split; congruence.
Qed.

End cycle_facts.

Lemma payloads_lookup (env : Env) (config : Config) (actions : list Action) :
  ∀ n items i a,
    Forall (λ a, act_data a < length items) actions →
    actions !! i = Some a →
    ∃ item, items !! act_data a = Some item
      ∧ payloads env config n actions items !! i
        = Some (NotificationService.build_payload config
                  (prepare env config (n + i) item) (act_type a)).
Proof.
  induction actions as [|action rest IH]; intros n items i a Hbound Hi; [done|].
  apply Forall_cons in Hbound as [Hk Hbound].
  apply lookup_lt_is_Some in Hk as [item Hk].
  destruct i as [|i]; simpl in Hi.
  - injection Hi as <-. exists item. split; [done|]. simpl.
    by rewrite Hk, Nat.add_0_r.
  - destruct (IH (S n) items i a Hbound Hi) as (item' & Hk' & Hp).
    exists item'. split; [done|]. simpl. rewrite Hk. simpl.
    by rewrite Hp, Nat.add_succ_r.
Qed.

Lemma first_refusal (env : Env) (n m : nat) :
  sends_ok env n m
  ∨ ∃ j, j < m ∧ sends_ok env n j ∧ reply_ok (env_webhook env (n + j)) = false.
Proof.
  induction m as [|m [Hok | (j & Hj & Hok & Hfail)]].
  - left. intros i Hi. lia.
  - destruct (reply_ok (env_webhook env (n + m))) eqn:Hm.
    + left. intros i Hi. destruct (decide (i = m)) as [->|]; [done|].
      apply Hok. lia.
    + right. exists m. split; [lia|]. by split.
  - right. exists j. split; [lia|]. by split.
Qed.

(** C3.  In a cycle that is not the bootstrap, the POSTs of the batch follow
    the order of the events: as long as the sends are accepted, the i-th POST
    is the one of the i-th event.  When the j-th send is the first refused,
    its POST is the last of the cycle, the catalog file is left as it was,
    and a next cycle on the same page detects the same events again. *)
Theorem dispatch_stops_at_first_failure (env : Env) (config : Config) (w : World) :
  let items := scraped config (env_course_page env) in
  let actions :=
    ChangeDetector.detectChanges items (catalog_of (database_file w)) in
  let n := length (requests w) in
  let w' := CourseMonitor.after_check env config w in
  let sent_for i a :=
    ∃ item, items !! act_data a = Some item
      ∧ requests w' !! (n + i)
        = Some (NotificationService.build_payload config
                  (prepare env config (n + i) item) (act_type a)) in
  reaches_detection env →
  size (catalog_of (database_file w)) ≠ 0 →
  take n (requests w') = requests w
  ∧ (∀ j, (j ≤ length actions)%nat → sends_ok env n j →
       ∀ i a, i < j → actions !! i = Some a → sent_for i a)
  ∧ (∀ j a,
       actions !! j = Some a →
       sends_ok env n j →
       reply_ok (env_webhook env (n + j)) = false →
       sent_for j a
       ∧ length (requests w') = n + S j
       ∧ database_file w' = database_file w
       ∧ ∀ env', env_course_page env' = env_course_page env →
           ChangeDetector.detectChanges
             (scraped config (env_course_page env'))
             (catalog_of (database_file w'))
           = actions).
Proof.
  intros items actions n w' sent_for Hreach Hsize.
  pose proof (detectChanges_in_range items (catalog_of (database_file w)))
    as Hbound. fold actions in Hbound.
  assert (∀ j, j < length actions → sends_ok env n j →
               reply_ok (env_webhook env (n + j)) = false →
               requests w'
               = requests w ++ take (S j) (payloads env config n actions items)
               ∧ database_file w' = database_file w) as Habort.
  { intros j Hj Hok Hfail.
    destruct (check_aborted env config w j Hreach Hsize Hj Hok Hfail)
      as (w1 & Hrun & Hr & Hf).
    unfold w', CourseMonitor.after_check. rewrite Hrun. by split. }
  assert (sends_ok env n (length actions) →
          requests w' = requests w ++ payloads env config n actions items)
    as Hall.
  { intros Hok. unfold w', CourseMonitor.after_check.
    destruct (decide (actions = [])) as [Hnil | Hsome].
    - destruct (check_no_change env config w Hreach Hnil) as (w1 & -> & _ & Hr).
      simpl. fold items actions. rewrite Hnil. simpl. by rewrite app_nil_r.
    - destruct (check_dispatched env config w Hreach Hsome Hsize Hok)
        as (w1 & -> & Hr & _). done. }
  assert (∀ j i a, i < S j → actions !! i = Some a →
            requests w'
            = requests w ++ take (S j) (payloads env config n actions items) →
            sent_for i a) as Hsent.
  { intros j i a Hi Ha Hr.
    destruct (payloads_lookup env config actions n items i a Hbound Ha)
      as (item & Hk & Hp).
    exists item. split; [done|].
    rewrite Hr, lookup_app_r by (unfold n; lia).
    replace (n + i - length (requests w)) with i by (unfold n; lia).
    by rewrite lookup_take_lt. }
  split; [|split].
  - destruct (first_refusal env n (length actions))
      as [Hok | (j & Hj & Hok & Hfail)].
    + rewrite (Hall Hok). apply take_app_length.
    + destruct (Habort j Hj Hok Hfail) as [-> _]. apply take_app_length.
  - intros j Hj Hok i a Hi Ha.
    destruct (first_refusal env n (length actions))
      as [Hall_ok | (j' & Hj' & Hok' & Hfail)].
    + destruct (payloads_lookup env config actions n items i a Hbound Ha)
        as (item & Hk & Hp).
      exists item. split; [done|].
      rewrite (Hall Hall_ok), lookup_app_r by (unfold n; lia).
      by replace (n + i - length (requests w)) with i by (unfold n; lia).
    + assert (j ≤ j')%nat as Hle.
      { destruct (decide (j ≤ j')%nat) as [|Hgt]; [done|].
        rewrite Hok in Hfail by lia. discriminate Hfail. }
      destruct (Habort j' Hj' Hok' Hfail) as [Hr _].
      apply (Hsent j' i a); [lia | done | done].
  - intros j a Ha Hok Hfail.
    assert (j < length actions) as Hj by (by apply lookup_lt_Some in Ha).
    destruct (Habort j Hj Hok Hfail) as [Hr Hf].
    split; [apply (Hsent j j a); [lia | done | done]|].
    split.
    { rewrite Hr, length_app, length_take_le; [done|].
      rewrite payloads_length by done. lia. }
    split; [done|].
    intros env' Hpage. by rewrite Hpage, Hf.
Qed.

(** C4.  A cycle that starts on an empty catalog and gets to write makes no
    POST, however many items the page lists, and leaves a catalog whose keys
    are the ids of all current items: the snapshot of the item list, which
    is written to the file whenever the list is not empty. *)
Theorem bootstrap_cycle_is_silent (env : Env) (config : Config) (w : World) :
  let items := scraped config (env_course_page env) in
  let w' := CourseMonitor.after_check env config w in
  reaches_detection env →
  size (catalog_of (database_file w)) = 0 →
  env_write env = Written →
  fst (CourseMonitor.check env config w) = Normal tt
  ∧ requests w' = requests w
  ∧ catalog_of (database_file w') = own (ChangeDetector.updateDatabase items)
  ∧ dom (catalog_of (database_file w')) = list_to_set (item_id <$> items)
  ∧ (items ≠ [] →
     database_file w' = Holds (own (ChangeDetector.updateDatabase items))).
Proof.
  intros items w' Hreach Hsize Hwrite.
  pose proof (map_size_empty_inv _ Hsize) as Hempty.
  unfold w', CourseMonitor.after_check.
  destruct (decide (items = [])) as [Hnil | Hsome].
  - destruct (check_no_change env config w Hreach) as (w1 & -> & Hf & Hr).
    { fold items. by rewrite Hnil, Hempty. }
    simpl. rewrite Hf, Hempty, Hnil.
    split; [done|]. split; [done|]. split; [done|]. split; [|done].
    by rewrite dom_empty_L.
  - destruct (check_bootstrap env config w Hreach) as (w1 & -> & Hr & Hf & _).
    { fold items.
      rewrite Hempty, detectChanges_empty_catalog
        by apply scraped_not_inherited.
      by destruct items. }
    { done. }
    simpl. rewrite (Hf Hwrite). simpl. fold items.
    split; [done|]. split; [done|]. split; [done|].
    split; [apply updateDatabase_scraped_dom | done].
Qed.

(** C5, as stated, fails on a cycle without events: the catalog knows item 1
    as a text titled A, the page shows it as a text titled B; nothing is
    detected, nothing has to be sent, and the file keeps the entry titled A
    instead of the snapshot of the current list. *)
Lemma zero_event_cycle_keeps_prior_catalog :
  reaches_detection retitled_env
  ∧ size (catalog_of (database_file text_world)) ≠ 0
  ∧ ChangeDetector.detectChanges
      (scraped sample_config (env_course_page retitled_env))
      (catalog_of (database_file text_world)) = []
  ∧ sends_ok retitled_env (length (requests text_world)) 0
  ∧ env_write retitled_env = Written
  ∧ database_file (CourseMonitor.after_check retitled_env sample_config text_world)
    = Holds text_catalog
  ∧ catalog_of
      (database_file (CourseMonitor.after_check retitled_env sample_config text_world))
    ≠ own (ChangeDetector.updateDatabase
             (scraped sample_config (env_course_page retitled_env))).
Proof.
  split; [by repeat split|].
  split; [intros H; vm_compute in H; discriminate H|].
  split; [by vm_compute|].
  split; [intros i Hi; lia|].
  split; [reflexivity|].
  split; [by vm_compute|].
  intros H. apply (f_equal (λ m : Database, stored_title <$> m !! "1")) in H.
  vm_compute in H. discriminate H.
Qed.

(** C5 (amended).  In a cycle that is not the bootstrap, in which every send
    is accepted and the write succeeds: when at least one event is detected,
    the POSTs of all events are made and the file then holds the snapshot of
    the current item list, whatever it held before; when no event is
    detected, nothing is sent and the file is left as it was. *)
Theorem successful_cycle_commits_snapshot (env : Env) (config : Config) (w : World) :
  let items := scraped config (env_course_page env) in
  let actions :=
    ChangeDetector.detectChanges items (catalog_of (database_file w)) in
  let w' := CourseMonitor.after_check env config w in
  reaches_detection env →
  size (catalog_of (database_file w)) ≠ 0 →
  sends_ok env (length (requests w)) (length actions) →
  env_write env = Written →
  fst (CourseMonitor.check env config w) = Normal tt
  ∧ (actions ≠ [] →
     database_file w' = Holds (own (ChangeDetector.updateDatabase items))
     ∧ requests w'
       = requests w ++ payloads env config (length (requests w)) actions items)
  ∧ (actions = [] →
     database_file w' = database_file w ∧ requests w' = requests w).
Proof.
  intros items actions w' Hreach Hsize Hok Hwrite.
  unfold w', CourseMonitor.after_check.
  destruct (decide (actions = [])) as [Hnil | Hsome].
  - destruct (check_no_change env config w Hreach Hnil) as (w1 & -> & Hf & Hr).
    simpl. split; [done|]. split; [done|]. by intros _.
  - destruct (check_dispatched env config w Hreach Hsome Hsize Hok)
      as (w1 & -> & Hr & Hf & _).
    simpl. split; [done|]. split; [|done]. intros _. split; [by apply Hf | done].
Qed.

(** C9.  Reading a catalog file that is missing, unreadable or malformed
    ends normally with the empty catalog.  A failing write makes [writeJSON]
    throw; in a cycle that gets to the commit the error reaches the handler
    of [check], which reports it as critical, and the file holds what the
    failed write left, not a committed snapshot. *)
Theorem catalog_store_failure_policy :
  (∀ (filepath : string) (file : File Database) (w : World),
     file = Missing ∨ (∃ e, file = Unreadable e) ∨ (∃ e, file = Malformed e) →
     ∃ w', readJSON filepath file w = (Normal ∅, w') ∧ same_but_console w w')
  ∧ (∀ (e : string) (residue : File Database) (filepath : string)
       (data : Database) (w : World),
       ∃ w', writeJSON (WriteFailed e residue) filepath data w = (Throw e, w')
             ∧ database_file w' = residue)
  ∧ (∀ (env : Env) (config : Config) (w : World) (e : string)
       (residue : File Database),
       let items := scraped config (env_course_page env) in
       let actions :=
         ChangeDetector.detectChanges items (catalog_of (database_file w)) in
       let w' := CourseMonitor.after_check env config w in
       reaches_detection env →
       actions ≠ [] →
       (size (catalog_of (database_file w)) = 0
        ∨ size (catalog_of (database_file w)) ≠ 0
          ∧ sends_ok env (length (requests w)) (length actions)) →
       env_write env = WriteFailed e residue →
       fst (CourseMonitor.check env config w) = Normal tt
       ∧ database_file w' = residue
       ∧ ∃ lines,
           console w'
           = lines ++ [("ERROR", "Failed to write " +:+ DATABASE_FILE +:+ ": " +:+ e);
                       ("ERROR", "Critical error: " +:+ e)]).
Proof.
  split; [|split].
  - intros filepath file w Hfail.
    destruct (readJSON_value filepath file w) as (w' & Hrun & Hsame).
    exists w'. split; [|done]. rewrite Hrun.
    by destruct Hfail as [-> | [[e ->] | [e ->]]].
  - intros e residue filepath data w.
    destruct (writeJSON_failed e residue filepath data w) as (w' & Hrun & Hf & _).
    by exists w'.
  - intros env config w e residue items actions w' Hreach Hsome Hcommit Hwrite.
    unfold w', CourseMonitor.after_check.
    destruct Hcommit as [Hsize | [Hsize Hok]].
    + destruct (check_bootstrap env config w Hreach Hsome Hsize)
        as (w1 & -> & _ & _ & Hfail).
      destruct (Hfail e residue Hwrite) as [Hf Hlines]. by simpl.
    + destruct (check_dispatched env config w Hreach Hsome Hsize Hok)
        as (w1 & -> & _ & _ & Hfail).
      destruct (Hfail e residue Hwrite) as [Hf Hlines]. by simpl.
Qed.

(** ** The properties on the sample data *)

(** C1 on the catalog that knows item 1 as a text, the page showing it as a
    video. *)
Lemma detectChanges_upgrade_only_text_to_video_witness :
  [sample_item "1" "A" VIDEO] !! 0 = Some (sample_item "1" "A" VIDEO)
  ∧ {| act_type := UPDATE; act_data := 0 |}
      ∈ ChangeDetector.detectChanges [sample_item "1" "A" VIDEO] text_catalog.
Proof.
  split; [reflexivity|].
  apply (detectChanges_upgrade_only_text_to_video
           [sample_item "1" "A" VIDEO] text_catalog 0
           (sample_item "1" "A" VIDEO) eq_refl).
  exists {| stored_title := "A"; stored_type := TEXT |}.
  split; [reflexivity|]. split; reflexivity.
Defined.

(** C2 on the three items of the sample page. *)
Lemma detectChanges_keeps_input_order_witness :
  Forall (λ item, item_id item ∉ Object_prototype)
         (scraped sample_config sample_page)
  ∧ ChangeDetector.detectChanges (scraped sample_config sample_page)
      (∅ : Database)
    = [ {| act_type := NEW; act_data := 0 |};
        {| act_type := NEW; act_data := 1 |};
        {| act_type := NEW; act_data := 2 |} ].
Proof.
  assert (Forall (λ item, item_id item ∉ Object_prototype)
                 (scraped sample_config sample_page)) as Hids.
  { apply (bool_decide_unpack _). by vm_compute. }
  split; [exact Hids|].
  rewrite (proj1 (detectChanges_keeps_input_order
                    (scraped sample_config sample_page) ∅) Hids).
  reflexivity.
Defined.

(** C10 on item 1, stored as a text titled A and shown as a text titled B. *)
Lemma detectChanges_title_change_is_silent_witness :
  ([sample_item "1" "B" TEXT] !! 0 = Some (sample_item "1" "B" TEXT)
   ∧ text_catalog !! "1" = Some {| stored_title := "A"; stored_type := TEXT |}
   ∧ TEXT = item_type (sample_item "1" "B" TEXT))
  ∧ ∀ a, a ∈ ChangeDetector.detectChanges [sample_item "1" "B" TEXT] text_catalog →
         act_data a ≠ 0.
Proof.
  split; [by repeat split|].
  apply (detectChanges_title_change_is_silent
           [sample_item "1" "B" TEXT] text_catalog 0 (sample_item "1" "B" TEXT)
           {| stored_title := "A"; stored_type := TEXT |});
    reflexivity.
Defined.

(** C6 on two items with different ids. *)
Lemma updateDatabase_is_full_replace_witness :
  (NoDup (item_id <$> [sample_item "1" "A" VIDEO; sample_item "2" "B" QUIZ])
   ∧ item_id (sample_item "1" "A" VIDEO) ≠ "__proto__")
  ∧ own (ChangeDetector.updateDatabase
           [sample_item "1" "A" VIDEO; sample_item "2" "B" QUIZ]) !! "1"
    = Some {| stored_title := "A"; stored_type := VIDEO |}.
Proof.
  assert (NoDup (item_id <$> [sample_item "1" "A" VIDEO; sample_item "2" "B" QUIZ]))
    as Hnd.
  { apply (bool_decide_unpack _). by vm_compute. }
  assert (item_id (sample_item "1" "A" VIDEO) ≠ "__proto__") as Hid
    by discriminate.
  split; [by split|].
  apply (proj1 (proj2 (proj2 (updateDatabase_is_full_replace
                                [sample_item "1" "A" VIDEO;
                                 sample_item "2" "B" QUIZ]))) Hnd
           (sample_item "1" "A" VIDEO)); [apply list_elem_of_here | exact Hid].
Defined.

(** C7 on a page that ends with a section header and a lesson whose title
    holds only white space around a badge: the header is passed over and the
    lesson is titled [Unknown Title]. *)
Lemma scrapeContent_skips_and_defaults_witness :
  (digit_free header_node
   ∧ node_href untitled_node = Some "/courses/take/c/lessons/7"
   ∧ match_id "/courses/take/c/lessons/7" = Some "7"
   ∧ Forall (Forall blank_child) (node_title untitled_node))
  ∧ ContentScraper.scrapeContent sample_config
      {| page_wait := None;
         page_nodes := page_nodes sample_page ++ header_node :: [untitled_node] |}
      fresh_world
    = (Normal (scraped sample_config sample_page
               ++ scraped sample_config
                    {| page_wait := None; page_nodes := [untitled_node] |}),
       fresh_world)
  ∧ ContentScraper.scrapeContent sample_config
      {| page_wait := None; page_nodes := [header_node] ++ untitled_node :: [] |}
      fresh_world
    = (Normal [ {| item_id := "7";
                   item_title := "Unknown Title";
                   item_type := VIDEO;
                   item_url := "https://school.example/courses/take/c/lessons/7";
                   item_image := None |} ],
       fresh_world).
Proof.
  assert (digit_free header_node) as Hfree.
  { unfold digit_free. simpl. apply Forall_forall.
    repeat (constructor; [reflexivity|]). constructor. }
  assert (Forall (Forall blank_child) (node_title untitled_node)) as Hblank.
  { repeat constructor; simpl; by apply is_blank_spec. }
  split; [by repeat split|]. split.
  - apply (proj1 (proj1 (scrapeContent_skips_and_defaults sample_config
                           (page_nodes sample_page) [untitled_node]
                           header_node fresh_world) Hfree)).
  - apply (proj1 (proj2 (scrapeContent_skips_and_defaults sample_config
                           [header_node] [] untitled_node fresh_world))
             "/courses/take/c/lessons/7" "7" eq_refl eq_refl Hblank).
Defined.

(** C8 (amended) on a page whose second frame carries the thumbnail, the
    first one being evaluated without finding any. *)
Lemma extractThumbnail_never_raises_witness :
  (visit_goto sample_visit = None
   ∧ Forall (λ f, evaluates f ∧ frame_thumbnail f = None) [Document []])
  ∧ fst (ContentScraper.extractThumbnail sample_visit "https://school.example/1"
           fresh_world)
    = Normal (Some (JStr "https://cdn.example/1.png")).
Proof.
  assert (Forall (λ f, evaluates f ∧ frame_thumbnail f = None) [Document []])
    as Hpre.
  { constructor; [by split | constructor]. }
  split; [by split|].
  apply (proj1 (proj2 (extractThumbnail_never_raises sample_visit
                         "https://school.example/1" fresh_world))
           (JStr "https://cdn.example/1.png")).
  split; [reflexivity|].
  exists [Document []], (Document
    [ None; Some JNull;
      Some (JObj [("thumbnailUrl", JStr "https://cdn.example/1.png")]) ]), [].
  split; [reflexivity|]. split; [exact Hpre | reflexivity].
Defined.

(** C3 on three new items, the webhook refusing the second POST. *)
Lemma dispatch_stops_at_first_failure_witness :
  (reaches_detection refusing_env
   ∧ size (catalog_of (database_file known_world)) ≠ 0
   ∧ sends_ok refusing_env 0 1
   ∧ reply_ok (env_webhook refusing_env 1) = false)
  ∧ length (requests (CourseMonitor.after_check refusing_env sample_config
                        known_world)) = 2
  ∧ database_file (CourseMonitor.after_check refusing_env sample_config
                     known_world)
    = Holds old_catalog.
Proof.
  assert (reaches_detection refusing_env) as Hreach by (by repeat split).
  assert (size (catalog_of (database_file known_world)) ≠ 0) as Hsize.
  { intros H. vm_compute in H. discriminate H. }
  assert (sends_ok refusing_env 0 1) as Hok.
  { intros i Hi. destruct i as [|i]; [reflexivity | lia]. }
  split; [by repeat split|].
  destruct (proj2 (proj2 (dispatch_stops_at_first_failure refusing_env
                            sample_config known_world Hreach Hsize))
              1 {| act_type := NEW; act_data := 1 |} eq_refl Hok eq_refl)
    as (_ & Hlen & Hfile & _).
  split; [exact Hlen | exact Hfile].
Defined.

(** C4 on a first run over the three items of the sample page. *)
Lemma bootstrap_cycle_is_silent_witness :
  (reaches_detection accepting_env
   ∧ size (catalog_of (database_file fresh_world)) = 0
   ∧ env_write accepting_env = Written)
  ∧ requests (CourseMonitor.after_check accepting_env sample_config fresh_world)
    = []
  ∧ database_file (CourseMonitor.after_check accepting_env sample_config
                     fresh_world)
    = Holds (own (ChangeDetector.updateDatabase (scraped sample_config sample_page))).
Proof.
  assert (reaches_detection accepting_env) as Hreach by (by repeat split).
  split; [by repeat split|].
  destruct (bootstrap_cycle_is_silent accepting_env sample_config fresh_world
              Hreach eq_refl eq_refl) as (_ & Hr & _ & _ & Hf).
  split; [exact Hr|]. apply Hf. discriminate.
Defined.

(** C5 (amended) on three new items, every POST accepted. *)
Lemma successful_cycle_commits_snapshot_witness :
  (reaches_detection accepting_env
   ∧ size (catalog_of (database_file known_world)) ≠ 0
   ∧ sends_ok accepting_env 0 3
   ∧ env_write accepting_env = Written)
  ∧ database_file (CourseMonitor.after_check accepting_env sample_config
                     known_world)
    = Holds (own (ChangeDetector.updateDatabase (scraped sample_config sample_page)))
  ∧ length (requests (CourseMonitor.after_check accepting_env sample_config
                        known_world)) = 3.
Proof.
  assert (reaches_detection accepting_env) as Hreach by (by repeat split).
  assert (size (catalog_of (database_file known_world)) ≠ 0) as Hsize.
  { intros H. vm_compute in H. discriminate H. }
  assert (sends_ok accepting_env 0 3) as Hok by (intros i Hi; reflexivity).
  split; [by repeat split|].
  destruct (successful_cycle_commits_snapshot accepting_env sample_config
              known_world Hreach Hsize Hok eq_refl) as (_ & Hsome & _).
  destruct (Hsome ltac:(discriminate)) as [Hf Hr].
  split; [exact Hf|]. rewrite Hr. reflexivity.
Defined.

(** C9 on a first run whose write fails for lack of space. *)
Lemma catalog_store_failure_policy_witness :
  (reaches_detection full_disk_env
   ∧ size (catalog_of (database_file fresh_world)) = 0
   ∧ env_write full_disk_env = WriteFailed "ENOSPC" Missing)
  ∧ fst (CourseMonitor.check full_disk_env sample_config fresh_world) = Normal tt
  ∧ database_file (CourseMonitor.after_check full_disk_env sample_config
                     fresh_world) = Missing.
Proof.
  assert (reaches_detection full_disk_env) as Hreach by (by repeat split).
  split; [by repeat split|].
  destruct (proj2 (proj2 catalog_store_failure_policy) full_disk_env
              sample_config fresh_world "ENOSPC" Missing Hreach
              ltac:(discriminate) (or_introl eq_refl) eq_refl)
    as (Hrun & Hf & _).
  split; [exact Hrun | exact Hf].
Defined.

(** * Further properties of the code *)

(** ** Change detection and snapshot, continued *)

Lemma events_from_shift `{JSObject T} (database : T) (items : list Item) :
  ∀ k, events_from database k items
       = shift_action k <$> events_from database 0 items.
Proof.
  induction items as [|item rest IH]; intros k; [done|].
  simpl. rewrite (IH (S k)), (IH 1), fmap_app, <- list_fmap_compose.
  f_equal.
  - unfold event_for, shift_action.
    destruct (get (as_object database) (item_id item)) as [stored|[]|]; simpl;
      [case_bool_decide; simpl; [|done]|done|..]; by rewrite Nat.add_0_r.
  - apply list_fmap_ext. intros i a _. unfold shift_action. simpl.
    f_equal. lia.
Qed.

Lemma events_from_app `{JSObject T} (database : T) (l1 l2 : list Item) :
  ∀ k, events_from database k (l1 ++ l2)
       = events_from database k l1 ++ events_from database (k + length l1) l2.
Proof.
  induction l1 as [|item rest IH]; intros k; simpl.
  - by rewrite Nat.add_0_r.
  - rewrite IH, <- app_assoc. by rewrite Nat.add_succ_r.
Qed.

(** X1.  Against a catalog read from the file, a NEW event points to the
    item at position [k] exactly when the id of that item is neither a key
    of the catalog nor a name inherited from [Object.prototype], whatever
    its kind is. *)
Theorem detectChanges_new_iff_unknown_id
    (currentItems : list Item) (database : Database) (k : nat) :
  {| act_type := NEW; act_data := k |}
    ∈ ChangeDetector.detectChanges currentItems database
  ↔ ∃ item, currentItems !! k = Some item
            ∧ database !! item_id item = None
            ∧ item_id item ∉ Object_prototype.
Proof.
  rewrite elem_of_detectChanges. simpl. split.
  - intros (item & Hk & He). exists item. split; [done|].
    unfold event_for in He. rewrite get_parsed in He.
    destruct (database !! item_id item); [by case_bool_decide|].
    split; [done|]. rewrite <- inherited_spec.
    by destruct (inherited (item_id item)).
  - intros (item & Hk & Hnone & Hid). exists item. split; [done|].
    unfold event_for. rewrite get_parsed, Hnone.
    rewrite <- inherited_spec in Hid.
    by destruct (inherited (item_id item)).
Qed.

(** X2.  The events of a list are those of its parts, the references of the
    second part moved up by the length of the first: what is raised for an
    item does not depend on the other items of the list. *)
Theorem detectChanges_app (l1 l2 : list Item) (database : Database) :
  ChangeDetector.detectChanges (l1 ++ l2) database
  = ChangeDetector.detectChanges l1 database
    ++ (shift_action (length l1) <$> ChangeDetector.detectChanges l2 database).
Proof.
  rewrite !detectChanges_events, events_from_app. simpl.
  by rewrite (events_from_shift database l2 (length l1)).
Qed.

Lemma detectChanges_after_updateDatabase_silent (items : list Item) :
  NoDup (item_id <$> items) →
  ChangeDetector.detectChanges items (ChangeDetector.updateDatabase items) = [].
Proof.
  intros Hnd. apply elem_of_nil_inv. intros a Ha.
  apply elem_of_detectChanges in Ha as (item & Hk & He).
  apply list_elem_of_lookup_2 in Hk.
  unfold event_for in He.
  change (as_object (ChangeDetector.updateDatabase items))
    with (ChangeDetector.updateDatabase items) in He.
  rewrite (updateDatabase_get items (item_id item) item) in He
    by (by apply last_filter_unique).
  simpl in He. case_bool_decide as Hc; [|done].
  destruct Hc as [H1 H2]. congruence.
Qed.

(** The same against the document that a cycle wrote and the next one reads. *)
Lemma detectChanges_after_commit_silent (items : list Item) :
  NoDup (item_id <$> items) →
  ChangeDetector.detectChanges items (own (ChangeDetector.updateDatabase items))
  = [].
Proof.
  intros Hnd. apply elem_of_nil_inv. intros a Ha.
  apply elem_of_detectChanges in Ha as (item & Hk & He).
  apply list_elem_of_lookup_2 in Hk.
  unfold event_for in He.
  rewrite (updateDatabase_get_parsed items (item_id item) item) in He
    by (by apply last_filter_unique).
  case_bool_decide; [done|].
  simpl in He. case_bool_decide as Hc; [|done].
  destruct Hc as [H1 H2]. congruence.
Qed.

(** X3.  Detecting the items against their own snapshot raises nothing, as
    long as no two items share an id. *)
Theorem redetection_after_snapshot_is_silent (items : list Item) :
  NoDup (item_id <$> items) →
  ChangeDetector.detectChanges items (ChangeDetector.updateDatabase items) = [].
Proof. apply detectChanges_after_updateDatabase_silent. Qed.

Lemma redetection_after_snapshot_is_silent_witness :
  NoDup (item_id <$> scraped sample_config sample_page)
  ∧ ChangeDetector.detectChanges (scraped sample_config sample_page)
      (ChangeDetector.updateDatabase (scraped sample_config sample_page)) = [].
Proof.
  assert (NoDup (item_id <$> scraped sample_config sample_page)) as Hnd.
  { apply (bool_decide_unpack _). by vm_compute. }
  split; [exact Hnd|].
  exact (redetection_after_snapshot_is_silent _ Hnd).
Defined.

(** X4.  The snapshot has at most as many own keys as there are items, and
    exactly as many when no two items share an id and none has the id
    [__proto__], which sets the prototype instead of a key. *)
Theorem updateDatabase_size (items : list Item) :
  (size (own (ChangeDetector.updateDatabase items)) ≤ length items)%nat
  ∧ (NoDup (item_id <$> items) → "__proto__" ∉ item_id <$> items →
     size (own (ChangeDetector.updateDatabase items)) = length items).
Proof.
  assert (size (list_to_set (item_id <$> items) : gset string) ≤ length items)%nat
    as Hle.
  { induction items as [|item items IH]; [done|].
    rewrite fmap_cons, list_to_set_cons. simpl.
    rewrite size_union_alt, size_singleton.
    pose proof (subseteq_size
                  (list_to_set (item_id <$> items) ∖ {[item_id item]})
                  (list_to_set (item_id <$> items) : gset string)
                  ltac:(by apply subseteq_difference_l)).
    lia. }
  rewrite <- size_dom, updateDatabase_dom. split.
  - pose proof (subseteq_size
                  (list_to_set (item_id <$> items) ∖ {[ "__proto__" ]})
                  (list_to_set (item_id <$> items) : gset string)
                  ltac:(by apply subseteq_difference_l)).
    lia.
  - intros Hnd Hproto.
    rewrite difference_disjoint_L
      by (apply disjoint_singleton_r; by rewrite elem_of_list_to_set).
    rewrite size_list_to_set by done. by rewrite length_fmap.
Qed.

Lemma updateDatabase_size_witness :
  (NoDup (item_id <$> scraped sample_config sample_page)
   ∧ "__proto__" ∉ item_id <$> scraped sample_config sample_page)
  ∧ size (own (ChangeDetector.updateDatabase (scraped sample_config sample_page)))
    = 3.
Proof.
  assert (NoDup (item_id <$> scraped sample_config sample_page)) as Hnd.
  { apply (bool_decide_unpack _). by vm_compute. }
  assert ("__proto__" ∉ item_id <$> scraped sample_config sample_page) as Hid.
  { apply (bool_decide_unpack _). by vm_compute. }
  split; [by split|].
  exact (proj2 (updateDatabase_size (scraped sample_config sample_page)) Hnd Hid).
Defined.

(** ** The scraper, continued *)

Lemma prefix_spec (sub : string) :
  ∀ s, String.prefix sub s = true ↔ ∃ post, s = sub +:+ post.
Proof.
  induction sub as [|a sub IH]; intros s.
  - split; [intros _; exists s; reflexivity | by destruct s].
  - destruct s as [|b s]; simpl;
      [split; [done | intros [post H]; discriminate H]|].
    destruct (Ascii.ascii_dec a b) as [->|Hne].
    + rewrite IH. split; intros [post H]; exists post.
      * by rewrite append_cons, <- H.
      * rewrite append_cons in H. by injection H.
    + split; [done|]. intros [post H]. rewrite append_cons in H.
      injection H as Hb _. by destruct Hne.
Qed.

Lemma includes_spec (sub s : string) :
  includes sub s = true ↔ contains sub s.
Proof.
  unfold contains. split.
  - induction s as [|c rest IH].
    + change (includes sub "")
        with (if String.prefix sub "" then true else false).
      destruct (String.prefix sub "") eqn:Hp; [|intros H; discriminate H].
      intros _. apply prefix_spec in Hp as [post Hp]. by exists "", post.
    + change (includes sub (String c rest))
        with (if String.prefix sub (String c rest) then true
              else includes sub rest).
      destruct (String.prefix sub (String c rest)) eqn:Hp.
      * intros _. apply prefix_spec in Hp as [post Hp]. by exists "", post.
      * intros H. destruct (IH H) as (pre & post & ->).
        by exists (String c pre), post.
  - intros (pre & post & ->). induction pre as [|c pre IH].
    + assert (String.prefix sub (sub +:+ post) = true) as Hp
        by (apply prefix_spec; by exists post).
      change ("" +:+ sub +:+ post) with (sub +:+ post).
      destruct (sub +:+ post) as [|c rest].
      * change (includes sub "")
          with (if String.prefix sub "" then true else false).
        by rewrite Hp.
      * change (includes sub (String c rest))
          with (if String.prefix sub (String c rest) then true
                else includes sub rest).
        by rewrite Hp.
    + rewrite append_cons.
      change (includes sub (String c (pre +:+ sub +:+ post)))
        with (if String.prefix sub (String c (pre +:+ sub +:+ post)) then true
              else includes sub (pre +:+ sub +:+ post)).
      by destruct (String.prefix sub (String c (pre +:+ sub +:+ post))).
Qed.

(** X5.  The kind of an item follows the first marker found, in the order
    video, text, quiz: [Video] in the details or [/lessons/] in the link make
    it a video whatever else occurs; text markers count only without a video
    marker, quiz markers only without both; without any marker the kind is
    the default one. *)
Theorem identifyContentType_priority (details url : string) :
  let video := contains "Video" details ∨ contains "/lessons/" url in
  let text := contains "Text" details ∨ contains "/texts/" url in
  let quiz := contains "Quiz" details ∨ contains "/quizzes/" url in
  (ContentScraper.identifyContentType details url = VIDEO ↔ video)
  ∧ (ContentScraper.identifyContentType details url = TEXT ↔ ¬ video ∧ text)
  ∧ (ContentScraper.identifyContentType details url = QUIZ
     ↔ ¬ video ∧ ¬ text ∧ quiz)
  ∧ (ContentScraper.identifyContentType details url = OTHER
     ↔ ¬ video ∧ ¬ text ∧ ¬ quiz).
Proof.
  simpl. rewrite <- !includes_spec. unfold ContentScraper.identifyContentType.
  destruct (includes "Video" details), (includes "/lessons/" url),
    (includes "Text" details), (includes "/texts/" url),
    (includes "Quiz" details), (includes "/quizzes/" url);
    simpl; repeat split; try (intros H; discriminate H); intuition discriminate.
Qed.

Lemma digits_prefix_split (s : string) :
  ∃ post, s = digits_prefix s +:+ post
          ∧ ∀ c rest, post = String c rest → is_digit c = false.
Proof.
  induction s as [|d s (post & Hs & Hpost)]; simpl.
  - exists "". split; [done|]. intros c rest H. discriminate H.
  - destruct (is_digit d) eqn:Hd.
    + exists post. split; [by rewrite append_cons, <- Hs | done].
    + exists (String d s). split; [done|]. by intros c rest [= <- _].
Qed.

Lemma digits_prefix_app (id post : string) :
  all_digits id →
  (∀ c rest, post = String c rest → is_digit c = false) →
  digits_prefix (id +:+ post) = id.
Proof.
  intros Hid Hpost. induction id as [|d id IH].
  - change ("" +:+ post) with post. destruct post as [|c rest]; [done|].
    simpl. by rewrite (Hpost c rest).
  - rewrite append_cons. simpl.
    rewrite (Hid d) by apply list_elem_of_here.
    rewrite IH; [done|]. intros c Hc. apply Hid. by apply list_elem_of_further.
Qed.

Lemma slash_digit_free_cons (d : ascii) (s : string) :
  slash_digit_free (String d s)
  ↔ slash_digit_free s
    ∧ (d = "/"%char → ∀ c rest, s = String c rest → is_digit c = false).
Proof.
  unfold slash_digit_free. split.
  - intros H. split.
    + intros pre c post ->. apply (H (String d pre) c post). reflexivity.
    + intros -> c rest ->. apply (H "" c rest). reflexivity.
  - intros [Hs Hd] pre c post Heq. destruct pre as [|e pre].
    + injection Heq as -> ->. by apply (Hd eq_refl c post).
    + rewrite append_cons in Heq. injection Heq as _ ->. by apply (Hs pre c post).
Qed.

Lemma slash_digit_free_nil : slash_digit_free "".
Proof. intros [|e pre] c post H; discriminate H. Qed.

Lemma digits_prefix_empty (s : string) :
  digits_prefix s = "" ↔ ∀ c rest, s = String c rest → is_digit c = false.
Proof.
  destruct s as [|d s]; simpl.
  - split; [intros _ c rest H; discriminate H | done].
  - destruct (is_digit d) eqn:Hd.
    + split; [done|]. intros H. specialize (H d s eq_refl). congruence.
    + split; [|done]. by intros _ c rest [= <- _].
Qed.

Lemma match_id_none (href : string) :
  match_id href = None ↔ slash_digit_free href.
Proof.
  induction href as [|d rest IH]; simpl.
  - split; [intros _; apply slash_digit_free_nil | done].
  - rewrite slash_digit_free_cons, <- IH, <- digits_prefix_empty.
    destruct (Ascii.eqb_spec d "/") as [->|Hne].
    + destruct (digits_prefix rest) eqn:Hp.
      * split; [by intros H | by intros [H _]].
      * split; [done|]. intros [_ H]. by specialize (H eq_refl).
    + split; [by intros H | by intros [H _]].
Qed.

(** X6.  The id taken from a link target is the maximal run of digits that
    follows the first slash having a digit right after it; a target without
    such a slash yields no id, even when it contains digits elsewhere. *)
Theorem match_id_first_slash_digits (href : string) :
  (match_id href = None ↔ slash_digit_free href)
  ∧ (∀ id,
       match_id href = Some id
       ↔ ∃ pre post,
           href = pre +:+ String "/" (id +:+ post)
           ∧ slash_digit_free pre
           ∧ id ≠ "" ∧ all_digits id
           ∧ ∀ c rest, post = String c rest → is_digit c = false).
Proof.
  split; [apply match_id_none|]. intros id. split.
  - revert id. induction href as [|d rest IH]; intros id; simpl; [done|].
    assert (match_id rest = Some id →
            (d = "/"%char → digits_prefix rest = "") →
            ∃ pre post,
              String d rest = pre +:+ String "/" (id +:+ post)
              ∧ slash_digit_free pre ∧ id ≠ "" ∧ all_digits id
              ∧ ∀ c r, post = String c r → is_digit c = false) as Hlater.
    { intros Hm Hd. destruct (IH id Hm) as (pre & post & -> & Hpre & Hrest).
      exists (String d pre), post. split; [done|]. split; [|done].
      apply slash_digit_free_cons. split; [done|].
      intros -> c r ->. specialize (Hd eq_refl).
      rewrite append_cons in Hd.
      exact (proj1 (digits_prefix_empty _) Hd c _ eq_refl). }
    destruct (Ascii.eqb_spec d "/") as [->|Hne]; [|by intros H; apply Hlater].
    destruct (digits_prefix rest) as [|c ds] eqn:Hp; [by intros H; apply Hlater|].
    intros [= <-]. destruct (digits_prefix_split rest) as (post & Hrest & Hpost).
    exists "", post. split; [by rewrite Hp in Hrest; rewrite Hrest at 1|].
    split; [apply slash_digit_free_nil|]. split; [done|]. split; [|done].
    intros x Hx. rewrite <- Hp in Hx. by apply digits_prefix_digits in Hx.
  - intros (pre & post & -> & Hpre & Hne & Hid & Hpost).
    induction pre as [|d pre IH].
    + change ("" +:+ String "/" (id +:+ post)) with (String "/" (id +:+ post)).
      simpl. rewrite (digits_prefix_app id post Hid Hpost).
      by destruct id.
    + apply slash_digit_free_cons in Hpre as [Hpre Hd].
      rewrite append_cons. simpl. rewrite (IH Hpre).
      destruct (Ascii.eqb_spec d "/") as [->|]; [|done].
      assert (digits_prefix (pre +:+ String "/" (id +:+ post)) = "") as ->; [|done].
      apply digits_prefix_empty. intros c rest Heq.
      destruct pre as [|e pre]; [by injection Heq as <- _|].
      rewrite append_cons in Heq. injection Heq as <- _.
      by apply (Hd eq_refl e pre).
Qed.

Lemma items_of_node_cases (config : Config) (element : Node) :
  items_of_node config element = []
  ∨ ∃ href id,
      node_href element = Some href
      ∧ match_id href = Some id
      ∧ items_of_node config element
        = [ {| item_id := id;
               item_title :=
                 (let text := trim (ContentScraper.own_text (node_title element)) in
                  if String.eqb text "" then "Unknown Title" else text);
               item_type :=
                 ContentScraper.identifyContentType (node_details element) href;
               item_url := js_concat (COURSE_BASE_URL config) href;
               item_image := None |} ].
Proof.
  unfold items_of_node, ContentScraper.scrape_node.
  destruct (node_href element) as [href|]; [|by left].
  destruct (String.eqb href ""); [by left|].
  destruct (match_id href) as [id|] eqn:Hid; [|by left].
  right. by exists href, id.
Qed.

Lemma scraped_join (config : Config) (page : Page) :
  scraped config page = mjoin (items_of_node config <$> page_nodes page).
Proof.
  unfold scraped. induction (page_nodes page) as [|element nodes IH] using rev_ind.
  - done.
  - rewrite foldl_app, fmap_app, join_app. simpl.
    by rewrite scrape_node_appends, IH, app_nil_r.
Qed.

Lemma scraped_items_origin (config : Config) (page : Page) (item : Item) :
  item ∈ scraped config page →
  item_id item ≠ "" ∧ all_digits (item_id item)
  ∧ item_title item ≠ ""
  ∧ item_image item = None
  ∧ ∃ element href,
      element ∈ page_nodes page
      ∧ node_href element = Some href
      ∧ match_id href = Some (item_id item)
      ∧ item_url item = js_concat (COURSE_BASE_URL config) href
      ∧ item_type item
        = ContentScraper.identifyContentType (node_details element) href.
Proof.
  rewrite scraped_join. intros Hin.
  apply list_elem_of_join in Hin as (l & Hitem & Hl).
  apply list_elem_of_fmap in Hl as (element & -> & Helement).
  destruct (items_of_node_cases config element)
    as [Hnone | (href & id & Hhref & Hid & Hone)].
  - rewrite Hnone in Hitem. by apply elem_of_nil in Hitem.
  - rewrite Hone in Hitem. apply list_elem_of_singleton in Hitem as ->. simpl.
    destruct (match_id_digits href id Hid) as [Hne Hdigits].
    split; [done|]. split; [done|]. split.
    { by destruct (String.eqb_spec
                     (trim (ContentScraper.own_text (node_title element))) ""). }
    split; [done|]. by exists element, href.
Qed.

(** X7.  Every scraped item comes from a node of the page: its id is the
    non-empty run of digits matched in the node's link target, its url is
    the base url followed by that target, its kind is read from the node's
    details and target, its title is not empty and it carries no image. *)
Theorem scraped_items_are_well_formed (config : Config) (page : Page) (item : Item) :
  item ∈ scraped config page →
  item_id item ≠ "" ∧ all_digits (item_id item)
  ∧ item_title item ≠ ""
  ∧ item_image item = None
  ∧ ∃ element href,
      element ∈ page_nodes page
      ∧ node_href element = Some href
      ∧ match_id href = Some (item_id item)
      ∧ item_url item = js_concat (COURSE_BASE_URL config) href
      ∧ item_type item
        = ContentScraper.identifyContentType (node_details element) href.
Proof. apply scraped_items_origin. Qed.

Lemma scraped_items_are_well_formed_witness :
  intro_item ∈ scraped sample_config sample_page
  ∧ all_digits (item_id intro_item).
Proof.
  assert (intro_item ∈ scraped sample_config sample_page) as Hin.
  { change (scraped sample_config sample_page)
      with (intro_item :: tail (scraped sample_config sample_page)).
    apply list_elem_of_here. }
  split; [exact Hin|].
  exact (proj1 (proj2 (scraped_items_are_well_formed
                         sample_config sample_page _ Hin))).
Defined.

(** X8.  The scraped items follow the document order of the nodes: each node
    gives no item or one, and the list is what the nodes give, one after
    the other; so there are never more items than nodes. *)
Theorem scraped_follows_document_order (config : Config) (page : Page) :
  scraped config page = mjoin (items_of_node config <$> page_nodes page)
  ∧ Forall (λ element, (length (items_of_node config element) ≤ 1)%nat)
           (page_nodes page)
  ∧ (length (scraped config page) ≤ length (page_nodes page))%nat.
Proof.
  split; [apply scraped_join|].
  assert (∀ element, (length (items_of_node config element) ≤ 1)%nat) as Hone.
  { intros element.
    destruct (items_of_node_cases config element)
      as [-> | (href & id & _ & _ & ->)]; simpl; lia. }
  split; [by apply Forall_forall|].
  rewrite scraped_join.
  induction (page_nodes page) as [|element nodes IH]; [done|].
  rewrite fmap_cons. change (mjoin (?x :: ?l)) with (x ++ mjoin l).
  rewrite length_app. specialize (Hone element). simpl length. lia.
Qed.

(** ** The thumbnail lookup, continued *)

Lemma find_in_scripts_truthy (scripts : list (option JSON)) (v : JSON) :
  ContentScraper.find_in_scripts scripts = Some v → truthy v = true.
Proof.
  rewrite find_in_scripts_head.
  intros H. by apply (frame_thumbnail_truthy (Document scripts)).
Qed.

Lemma scan_result_truthy (frames : list Frame) (v : JSON) :
  scan_result frames = Some v → truthy v = true.
Proof.
  induction frames as [|[e|scripts] rest IH]; simpl; [done | done |].
  destruct (ContentScraper.find_in_scripts scripts) as [u|] eqn:Hfind; [|done].
  destruct (truthy u) eqn:Hu; [|done]. by intros [= <-].
Qed.

(** X9.  A thumbnail returned by [extractThumbnail] is always a truthy
    value (never an empty string, zero, [false] or [null]), and the lookup
    makes no POST and leaves the catalog file alone. *)
Theorem extractThumbnail_result_is_truthy
    (page : Visit) (url : string) (w : World) :
  same_but_console w (snd (ContentScraper.extractThumbnail page url w))
  ∧ ∀ v, fst (ContentScraper.extractThumbnail page url w) = Normal (Some v) →
         truthy v = true.
Proof.
  destruct (extractThumbnail_value page url w) as (w' & -> & Hsame).
  split; [done|]. simpl. intros v [= Hv]. unfold thumbnail_of in Hv.
  destruct (visit_goto page); [done|]. by apply scan_result_truthy in Hv.
Qed.

(** ** Notification and dispatch, continued *)

(** X10.  Whatever the webhook answers, [send] makes exactly one POST, with
    the payload built from the content, and does not touch the catalog
    file.  It ends normally exactly when the answer is a 2xx status; it
    throws [Discord API returned <status>] on any other status and the
    network error itself when the request fails. *)
Theorem send_posts_once (env : Env) (config : Config) (content : Item)
    (eventType : EventType) (w : World) :
  let r := fst (NotificationService.send env config content eventType w) in
  let w' := snd (NotificationService.send env config content eventType w) in
  requests w'
  = requests w ++ [NotificationService.build_payload config content eventType]
  ∧ database_file w' = database_file w
  ∧ (r = Normal tt ↔ reply_ok (env_webhook env (length (requests w))) = true)
  ∧ (∀ status,
       env_webhook env (length (requests w)) = Response status →
       response_ok status = false →
       r = Throw ("Discord API returned " +:+ pretty status))
  ∧ (∀ message,
       env_webhook env (length (requests w)) = NetworkError message →
       r = Throw message).
Proof.
  unfold NotificationService.send, try_catch, NotificationService.fetch.
  rewrite bind_run.
  destruct (env_webhook env (length (requests w))) as [status|message]; simpl.
  - destruct (response_ok status) eqn:Hok; simpl.
    + repeat split; try done. intros s [= <-] Hs. congruence.
    + repeat split; try done. by intros s [= <-] _.
  - repeat split; try done. by intros m [= <-].
Qed.

(** X11.  The item object handed to [send] keeps the id, title, kind and url
    of the item, and the image of the notification built from it is: for a
    video, the thumbnail of its page when one is found; in every other case
    the configured default thumbnail. *)
Theorem notification_image_policy (env : Env) (config : Config) (item : Item)
    (eventType : EventType) (w : World) :
  ∃ data w',
    CourseMonitor.with_image env config item w = (Normal data, w')
    ∧ same_but_console w w'
    ∧ core data = core item
    ∧ embed_image
        <$> embeds (NotificationService.build_payload config data eventType)
      = [notified_image env config (length (requests w)) item].
Proof.
  destruct (with_image_value env config item w) as (w' & Hrun & Hsame).
  exists (prepare env config (length (requests w)) item), w'.
  split; [done|]. split; [done|]. split; [apply core_prepare|].
  unfold prepare, notified_image. simpl.
  destruct (bool_decide (item_type item = VIDEO)).
  - destruct (thumbnail_of _) as [v|] eqn:Hv.
    + unfold thumbnail_of in Hv.
      assert (truthy v = true) as Ht.
      { destruct (visit_goto _); [done|]. by apply scan_result_truthy in Hv. }
      rewrite Ht. simpl. by rewrite Ht.
    + simpl. by destruct (DEFAULT_THUMBNAIL config) as [d|]; simpl;
        [destruct (negb (String.eqb d ""))|].
  - simpl. by destruct (DEFAULT_THUMBNAIL config) as [d|]; simpl;
      [destruct (negb (String.eqb d ""))|].
Qed.

Lemma with_image_total (env : Env) (config : Config) (item : Item) (w : World) :
  ∃ data w',
    CourseMonitor.with_image env config item w = (Normal data, w')
    ∧ core data = core item.
Proof.
  destruct (with_image_value env config item w) as (w' & Hrun & _).
  exists (prepare env config (length (requests w)) item), w'.
  split; [done | apply core_prepare].
Qed.

(** X12.  When [processActions] ends normally it has changed nothing but the
    [image] of items its actions point to: the array keeps its length, every
    item keeps its id, title, kind and url, and an item no action points to
    is left exactly as it was. *)
Theorem processActions_changes_images_only (env : Env) (config : Config)
    (actions : list Action) :
  ∀ items w items' w',
    CourseMonitor.processActions env config actions items w = (Normal items', w') →
    length items' = length items
    ∧ core <$> items' = core <$> items
    ∧ ∀ k, k ∉ act_data <$> actions → items' !! k = items !! k.
Proof.
  induction actions as [|action rest IH]; intros items w items' w' Hrun.
  - injection Hrun as <- <-. done.
  - simpl in Hrun. destruct (items !! act_data action) as [item|] eqn:Hk;
      [|discriminate Hrun].
    rewrite bind_run in Hrun.
    destruct (with_image_total env config item w) as (data & w1 & Hdata & Hcore).
    rewrite Hdata, bind_run in Hrun.
    destruct (NotificationService.send env config data (act_type action) w1)
      as [[[]|e] w2]; [|discriminate Hrun].
    rewrite bind_run in Hrun. simpl in Hrun.
    destruct (IH _ _ _ _ Hrun) as (Hlen & Hcores & Hrest).
    split; [by rewrite Hlen, length_insert|].
    split.
    { rewrite Hcores, list_fmap_insert, Hcore.
      apply list_insert_id. by rewrite list_lookup_fmap, Hk. }
    intros k Hnot. rewrite fmap_cons in Hnot.
    apply not_elem_of_cons in Hnot as [Hne Hnot].
    rewrite (Hrest k Hnot). by apply list_lookup_insert_ne.
Qed.

Lemma processActions_changes_images_only_witness :
  CourseMonitor.processActions accepting_env sample_config
    [ {| act_type := NEW; act_data := 1 |} ]
    (scraped sample_config sample_page) known_world
  = (Normal (<[1 := CourseMonitor.set_image
                      {| item_id := "2"; item_title := "Notes"; item_type := TEXT;
                         item_url := "https://school.example/courses/take/c/texts/2-notes";
                         item_image := None |}
                      (Some (JStr "https://school.example/default.jpg"))]>
               (scraped sample_config sample_page)),
     snd (CourseMonitor.processActions accepting_env sample_config
            [ {| act_type := NEW; act_data := 1 |} ]
            (scraped sample_config sample_page) known_world))
  ∧ <[1 := CourseMonitor.set_image
             {| item_id := "2"; item_title := "Notes"; item_type := TEXT;
                item_url := "https://school.example/courses/take/c/texts/2-notes";
                item_image := None |}
             (Some (JStr "https://school.example/default.jpg"))]>
      (scraped sample_config sample_page) !! 0
    = scraped sample_config sample_page !! 0.
Proof.
  assert (CourseMonitor.processActions accepting_env sample_config
            [ {| act_type := NEW; act_data := 1 |} ]
            (scraped sample_config sample_page) known_world
          = (Normal (<[1 := CourseMonitor.set_image
                      {| item_id := "2"; item_title := "Notes"; item_type := TEXT;
                         item_url := "https://school.example/courses/take/c/texts/2-notes";
                         item_image := None |}
                      (Some (JStr "https://school.example/default.jpg"))]>
               (scraped sample_config sample_page)),
     snd (CourseMonitor.processActions accepting_env sample_config
            [ {| act_type := NEW; act_data := 1 |} ]
            (scraped sample_config sample_page) known_world))) as Hrun.
  { by vm_compute. }
  split; [exact Hrun|].
  apply (proj2 (proj2 (processActions_changes_images_only _ _ _ _ _ _ _ Hrun)) 0).
  intros H. apply list_elem_of_singleton in H. discriminate H.
Defined.

(** ** The monitoring cycle, continued *)

Lemma guarded_total (m : M unit) (report : string → string) (w : World) :
  ∃ w',
    try_finally (try_catch m (λ error, log "ERROR" (report error)))
      CourseMonitor.close w
    = (Normal tt, w')
    ∧ browser_open w' = false.
Proof.
  unfold try_finally, try_catch.
  destruct (m w) as [[[]|e] w1]; simpl; eauto.
Qed.

(** X13.  Whatever the browser, the login, the page, the webhook and the disk
    do, [check] ends normally: no error of a cycle reaches its caller, and
    the browser is closed when it returns. *)
Theorem check_contains_every_error (env : Env) (config : Config) (w : World) :
  fst (CourseMonitor.check env config w) = Normal tt
  ∧ browser_open (CourseMonitor.after_check env config w) = false.
Proof.
  unfold CourseMonitor.after_check, CourseMonitor.check. rewrite bind_run.
  destruct (log_effect "INFO" "Starting check" w) as (w0 & -> & _).
  match goal with
  | |- context [try_finally (try_catch ?m _) _ w0] =>
      destruct (guarded_total m (λ error, "Critical error: " +:+ error) w0)
        as (w' & -> & Hclosed)
  end.
  by split.
Qed.

Lemma reaches_detection_no_failure (env : Env) :
  reaches_detection env ↔ failure_before_detection env = None.
Proof.
  unfold reaches_detection, failure_before_detection.
  destruct (env_launch env), (env_login env), (page_wait (env_course_page env));
    split; try done; by intros (H1 & H2 & H3).
Qed.

Lemma check_fails_early (env : Env) (config : Config) (w : World) (msg : string) :
  failure_before_detection env = Some msg →
  ∃ w', CourseMonitor.check env config w = (Normal tt, w')
        ∧ requests w' = requests w
        ∧ database_file w' = database_file w
        ∧ ∃ lines,
            console w'
            = console w ++ lines ++ [("ERROR", "Critical error: " +:+ msg)].
Proof.
  unfold failure_before_detection. intros Hfail.
  unfold CourseMonitor.check. rewrite bind_run. simpl.
  unfold try_finally, try_catch. rewrite bind_run.
  unfold CourseMonitor.launch at 1.
  destruct (env_launch env) as [e|]; simpl.
  { injection Hfail as <-. eexists. split; [reflexivity|]. simpl.
    split; [done|]. split; [done|].
    exists [("INFO", "Starting check")]. by rewrite <- app_assoc. }
  rewrite bind_run.
  match goal with
  | |- context [CourseMonitor.ensureAuthenticated env ?w0] =>
      destruct (ensureAuthenticated_run env w0)
        as (wa & -> & (Hfa & Hra & _) & Hca)
  end.
  simpl in Hfa, Hra, Hca.
  destruct (env_login env) as [e|]; simpl.
  { injection Hfail as <-. eexists. split; [reflexivity|]. simpl.
    split; [done|]. split; [done|].
    exists (("INFO", "Starting check") :: env_login_log env).
    by rewrite Hca, <- !app_assoc. }
  destruct (page_wait (env_course_page env)) as [e|] eqn:Hwait; [|done].
  injection Hfail as <-.
  rewrite bind_run, (scrapeContent_timeout config _ _ e Hwait). simpl.
  eexists. split; [reflexivity|]. simpl.
  split; [done|]. split; [done|].
  exists (("INFO", "Starting check") :: env_login_log env).
  by rewrite Hca, <- !app_assoc.
Qed.

(** X14.  A cycle in which the browser does not start, the authentication
    throws or the course menu does not load makes no POST and leaves the
    catalog file as it was; it ends normally, and the last line it adds to
    the console reports the error as critical.  For the menu the reported
    error is always [Failed to load course menu]. *)
Theorem cycle_fails_before_detection (env : Env) (config : Config) (w : World)
    (msg : string) :
  failure_before_detection env = Some msg →
  fst (CourseMonitor.check env config w) = Normal tt
  ∧ requests (CourseMonitor.after_check env config w) = requests w
  ∧ database_file (CourseMonitor.after_check env config w) = database_file w
  ∧ (∃ lines,
       console (CourseMonitor.after_check env config w)
       = console w ++ lines ++ [("ERROR", "Critical error: " +:+ msg)])
  ∧ (env_launch env = None → env_login env = None →
     msg = "Failed to load course menu").
Proof.
  intros Hfail. unfold CourseMonitor.after_check.
  destruct (check_fails_early env config w msg Hfail)
    as (w' & -> & Hr & Hf & Hc).
  simpl. split; [done|]. split; [done|]. split; [done|]. split; [done|].
  intros Hlaunch Hlogin. unfold failure_before_detection in Hfail.
  rewrite Hlaunch, Hlogin in Hfail.
  destruct (page_wait (env_course_page env)); [by injection Hfail | done].
Qed.

Lemma cycle_fails_before_detection_witness :
  failure_before_detection
    (sample_env {| page_wait := Some "TimeoutError"; page_nodes := [] |}
       accepts_all Written)
  = Some "Failed to load course menu"
  ∧ database_file
      (CourseMonitor.after_check
         (sample_env {| page_wait := Some "TimeoutError"; page_nodes := [] |}
            accepts_all Written)
         sample_config known_world)
    = Holds old_catalog.
Proof.
  split; [reflexivity|].
  exact (proj1 (proj2 (proj2 (cycle_fails_before_detection
                                (sample_env
                                   {| page_wait := Some "TimeoutError";
                                      page_nodes := [] |}
                                   accepts_all Written)
                                sample_config known_world
                                "Failed to load course menu" eq_refl)))).
Defined.

(** X15.  In any cycle the POSTs made are added after the earlier ones and
    are at most as many as the events detected, none at all on an empty
    catalog; and the catalog file is either left as it was or, after events
    were detected, is what the write of the full snapshot of the current
    items leaves. *)
Theorem cycle_effects_are_bounded (env : Env) (config : Config) (w : World) :
  let items := scraped config (env_course_page env) in
  let actions :=
    ChangeDetector.detectChanges items (catalog_of (database_file w)) in
  let w' := CourseMonitor.after_check env config w in
  (∃ sent,
     requests w' = requests w ++ sent
     ∧ (length sent ≤ length actions)%nat
     ∧ (size (catalog_of (database_file w)) = 0 → sent = [])
     ∧ (sent ≠ [] → reaches_detection env))
  ∧ (database_file w' = database_file w
     ∨ reaches_detection env ∧ actions ≠ []
       ∧ database_file w'
         = match env_write env with
           | Written => Holds (own (ChangeDetector.updateDatabase items))
           | WriteFailed _ residue => residue
           end).
Proof.
  intros items actions w'. unfold w', CourseMonitor.after_check.
  destruct (failure_before_detection env) as [msg|] eqn:Hfail.
  { destruct (check_fails_early env config w msg Hfail) as (w1 & -> & Hr & Hf & _).
    simpl. split; [|by left].
    exists []. rewrite app_nil_r. split; [done|]. split; [simpl; lia|].
    by split. }
  apply reaches_detection_no_failure in Hfail as Hreach.
  assert (∀ w1 : World,
            (env_write env = Written →
             database_file w1 = Holds (own (ChangeDetector.updateDatabase items))) →
            (∀ e residue, env_write env = WriteFailed e residue →
               database_file w1 = residue
               ∧ ∃ lines, console w1
                   = lines ++ [("ERROR", "Failed to write " +:+ DATABASE_FILE
                                           +:+ ": " +:+ e);
                               ("ERROR", "Critical error: " +:+ e)]) →
            database_file w1
            = match env_write env with
              | Written => Holds (own (ChangeDetector.updateDatabase items))
              | WriteFailed _ residue => residue
              end) as Hwritten.
  { intros w1 Hok Hko. destruct (env_write env) as [|e residue].
    - by apply Hok.
    - by destruct (Hko e residue eq_refl). }
  destruct (decide (actions = [])) as [Hnil | Hsome].
  { destruct (check_no_change env config w Hreach Hnil) as (w1 & -> & Hf & Hr).
    simpl. split; [|by left].
    exists []. rewrite app_nil_r. split; [done|]. split; [simpl; lia|].
    by split. }
  destruct (decide (size (catalog_of (database_file w)) = 0)) as [Hsize | Hsize].
  { destruct (check_bootstrap env config w Hreach Hsome Hsize)
      as (w1 & -> & Hr & Hok & Hko).
    simpl. split; [|right; by auto].
    exists []. rewrite app_nil_r. split; [done|]. split; [simpl; lia|].
    by split. }
  pose proof (detectChanges_in_range items (catalog_of (database_file w)))
    as Hbound. fold actions in Hbound.
  destruct (first_refusal env (length (requests w)) (length actions))
    as [Hall | (j & Hj & Hok & Hko)].
  - destruct (check_dispatched env config w Hreach Hsome Hsize Hall)
      as (w1 & -> & Hr & Hfok & Hfko).
    simpl. split; [|right; by auto].
    eexists. split; [exact Hr|].
    split; [by rewrite payloads_length|]. by split.
  - destruct (check_aborted env config w j Hreach Hsize Hj Hok Hko)
      as (w1 & -> & Hr & Hf).
    simpl. split; [|by left].
    eexists. split; [exact Hr|].
    split.
    { rewrite length_take, payloads_length by done. fold actions. lia. }
    by split.
Qed.

(** X16.  After a cycle that gets to its end with every send accepted (or on
    an empty catalog) and the write done, a next cycle on the same page,
    whose items have distinct ids, detects nothing: it makes no POST and
    leaves the catalog file as the first cycle left it. *)
Theorem next_cycle_on_same_page_is_silent
    (env env' : Env) (config : Config) (w : World) :
  let items := scraped config (env_course_page env) in
  let actions :=
    ChangeDetector.detectChanges items (catalog_of (database_file w)) in
  let w1 := CourseMonitor.after_check env config w in
  let w2 := CourseMonitor.after_check env' config w1 in
  reaches_detection env →
  env_write env = Written →
  (size (catalog_of (database_file w)) = 0
   ∨ sends_ok env (length (requests w)) (length actions)) →
  NoDup (item_id <$> items) →
  reaches_detection env' →
  env_course_page env' = env_course_page env →
  requests w2 = requests w1 ∧ database_file w2 = database_file w1.
Proof.
  intros items actions w1 w2 Hreach Hwrite Hsent Hnd Hreach' Hpage.
  assert (ChangeDetector.detectChanges
            (scraped config (env_course_page env'))
            (catalog_of (database_file w1)) = []) as Hsilent.
  { rewrite Hpage. fold items. unfold w1, CourseMonitor.after_check.
    destruct (decide (actions = [])) as [Hnil | Hsome].
    - destruct (check_no_change env config w Hreach Hnil) as (w' & -> & Hf & _).
      simpl. by rewrite Hf.
    - assert (database_file (CourseMonitor.check env config w).2
              = Holds (own (ChangeDetector.updateDatabase items))) as ->.
      { destruct (decide (size (catalog_of (database_file w)) = 0))
          as [Hsize | Hsize].
        - destruct (check_bootstrap env config w Hreach Hsome Hsize)
            as (w' & -> & _ & Hok & _). by apply Hok.
        - destruct Hsent as [Hzero | Hall]; [done|].
          destruct (check_dispatched env config w Hreach Hsome Hsize Hall)
            as (w' & -> & _ & Hok & _). by apply Hok. }
      simpl. by apply detectChanges_after_commit_silent. }
  unfold w2, CourseMonitor.after_check.
  by destruct (check_no_change env' config w1 Hreach' Hsilent)
    as (w' & -> & Hf & Hr).
Qed.

Lemma next_cycle_on_same_page_is_silent_witness :
  (reaches_detection accepting_env
   ∧ env_write accepting_env = Written
   ∧ sends_ok accepting_env 0 3
   ∧ NoDup (item_id <$> scraped sample_config sample_page))
  ∧ requests (CourseMonitor.after_check accepting_env sample_config
                (CourseMonitor.after_check accepting_env sample_config
                   known_world))
    = requests (CourseMonitor.after_check accepting_env sample_config
                  known_world).
Proof.
  assert (reaches_detection accepting_env) as Hreach by (by repeat split).
  assert (sends_ok accepting_env 0 3) as Hok by (intros i Hi; reflexivity).
  assert (NoDup (item_id <$> scraped sample_config sample_page)) as Hnd.
  { apply (bool_decide_unpack _). by vm_compute. }
  split; [by repeat split|].
  exact (proj1 (next_cycle_on_same_page_is_silent accepting_env accepting_env
                  sample_config known_world Hreach eq_refl (or_intror Hok)
                  Hnd Hreach eq_refl)).
Defined.

(** ** Startup configuration *)

Lemma contains_refl (s : string) : contains s s.
Proof.
  exists "", "". change ("" +:+ s +:+ "") with (s +:+ "").
  induction s as [|c s IH]; [done|]. by rewrite append_cons, <- IH.
Qed.

Lemma contains_append_l (sub s t : string) :
  contains sub s → contains sub (s +:+ t).
Proof.
  intros (pre & post & ->). exists pre, (post +:+ t).
  by rewrite !append_assoc.
Qed.

Lemma contains_append_r (sub s t : string) :
  contains sub t → contains sub (s +:+ t).
Proof.
  intros (pre & post & ->). exists (s +:+ pre), post.
  by rewrite append_assoc.
Qed.

Lemma contains_join (sep key : string) (parts : list string) :
  key ∈ parts → contains key (join sep parts).
Proof.
  induction parts as [|part rest IH]; [by intros H; apply elem_of_nil in H|].
  intros Hin. apply elem_of_cons in Hin as [-> | Hin].
  - destruct rest as [|next rest]; [apply contains_refl|].
    apply contains_append_l, contains_refl.
  - destruct rest as [|next rest]; [by apply elem_of_nil in Hin|].
    change (join sep (part :: next :: rest))
      with (part +:+ sep +:+ join sep (next :: rest)).
    by apply contains_append_r, contains_append_r, IH.
Qed.

Lemma unset_false (process_env : ProcessEnv) (key : string) :
  unset process_env key = false
  ↔ ∃ value, process_env !! key = Some value ∧ value ≠ "".
Proof.
  unfold unset. destruct (process_env !! key) as [value|].
  - destruct (String.eqb_spec value ""); split; try done.
    + intros (v & [= <-] & Hne). done.
    + intros _. by exists value.
  - split; [done | by intros (v & H & _)].
Qed.

Lemma validateEnvironment_passes (process_env : ProcessEnv) :
  validateEnvironment process_env = Normal tt
  ↔ ∀ key, key ∈ required →
      ∃ value, process_env !! key = Some value ∧ value ≠ "".
Proof.
  unfold validateEnvironment. split.
  - intros Hok key Hkey. apply unset_false.
    destruct (unset process_env key) eqn:Hunset; [|done].
    assert (In key (List.filter (unset process_env) required)) as Hin.
    { apply List.filter_In. split; [by apply list_elem_of_In | done]. }
    destruct (List.filter (unset process_env) required); [done|].
    simpl in Hok. discriminate Hok.
  - intros Hall.
    destruct (List.filter (unset process_env) required) as [|key rest] eqn:Hf;
      [done|].
    assert (In key (List.filter (unset process_env) required)) as Hin
      by (rewrite Hf; by left).
    apply List.filter_In in Hin as [Hkey Hunset].
    apply list_elem_of_In, Hall, unset_false in Hkey. congruence.
Qed.

(** X17.  [validateEnvironment] passes exactly when each of the seven
    required variables is set to a non-empty string; otherwise it throws,
    and the message names every required variable that is unset or empty,
    not only the first. *)
Theorem validateEnvironment_reports_all_missing (process_env : ProcessEnv) :
  (validateEnvironment process_env = Normal tt
   ↔ ∀ key, key ∈ required →
       ∃ value, process_env !! key = Some value ∧ value ≠ "")
  ∧ (∀ key, key ∈ required → unset process_env key = true →
       ∃ msg, validateEnvironment process_env = Throw msg ∧ contains key msg).
Proof.
  split; [apply validateEnvironment_passes|].
  unfold validateEnvironment.
  - intros key Hkey Hunset.
    assert (key ∈ List.filter (unset process_env) required) as Hin.
    { apply list_elem_of_In, List.filter_In.
      split; [by apply list_elem_of_In | done]. }
    rewrite bool_decide_eq_true_2.
    + eexists. split; [reflexivity|].
      by apply contains_append_r, contains_join.
    + destruct (List.filter (unset process_env) required);
        [by apply elem_of_nil in Hin | simpl; lia].
Qed.

(** X18.  [validateEnvironment] never looks at [BASE_URL], the variable
    [CONFIG.COURSE_BASE_URL] is read from: removing it changes nothing for
    the validation, and then every scraped url starts with [undefined].
    A passed validation does guarantee a non-empty default thumbnail. *)
Theorem validation_ignores_BASE_URL (process_env : ProcessEnv) :
  validateEnvironment (delete "BASE_URL" process_env)
  = validateEnvironment process_env
  ∧ COURSE_BASE_URL (CONFIG (delete "BASE_URL" process_env)) = None
  ∧ (∀ page item,
       item ∈ scraped (CONFIG (delete "BASE_URL" process_env)) page →
       String.prefix "undefined" (item_url item) = true)
  ∧ (validateEnvironment process_env = Normal tt →
     ∃ d, DEFAULT_THUMBNAIL (CONFIG process_env) = Some d ∧ d ≠ "").
Proof.
  split; [|split; [|split]].
  - unfold validateEnvironment.
    assert (List.filter (unset (delete "BASE_URL" process_env)) required
            = List.filter (unset process_env) required) as ->; [|done].
    apply List.filter_ext_in. intros key Hkey. unfold unset.
    rewrite lookup_delete_ne; [done|].
    intros <-. apply list_elem_of_In in Hkey. vm_compute in Hkey.
    by repeat (apply elem_of_cons in Hkey as [Hkey | Hkey];
               [discriminate Hkey|]); apply elem_of_nil in Hkey.
  - simpl. apply lookup_delete_eq.
  - intros page item Hin.
    destruct (scraped_items_origin _ page item Hin)
      as (_ & _ & _ & _ & element & href & _ & _ & _ & -> & _).
    simpl. rewrite lookup_delete_eq. apply prefix_spec. by exists href.
  - intros Hok.
    pose proof (proj1 (validateEnvironment_passes process_env) Hok) as Hall.
    apply (Hall "DEFAULT_THUMBNAIL").
    apply list_elem_of_In. vm_compute. tauto.
Qed.

(** ** Authentication *)

Section authentication_facts.
Import AuthenticationManager.
Variables (driver : Driver) (config : AuthConfig).

Lemma am_bind_run {A B} (m : AM A) (k : A → AM B) (s : Session) :
  (m ≫= k) s = match m s with
               | (Normal a, s') => k a s'
               | (Throw e, s') => (Throw e, s')
               end.
Proof. reflexivity. Qed.

Lemma readJSON_cookies_value (file : File (list Cookie)) (w : World) :
  ∃ w', readJSON COOKIES_FILE file w = (Normal (cookies_of file), w')
        ∧ same_but_console w w'.
Proof.
  destruct file; eexists; (split; [reflexivity|]); by repeat split.
Qed.

Lemma isSessionValid_run (s : Session) :
  ∃ valid s',
    isSessionValid driver config s = (Normal valid, s')
    ∧ driven s' = driven s ++ [Goto (COURSE_URL config)]
    ∧ cookies_file s' = cookies_file s
    ∧ requests (world s') = requests (world s)
    ∧ (valid = true
       ↔ ∃ dest, drv_goto driver (length (driven s)) (COURSE_URL config) = Lands dest
                 ∧ includes "sign_in" dest = false)
    ∧ (∀ dest,
         drv_goto driver (length (driven s)) (COURSE_URL config) = Lands dest →
         location s' = dest).
Proof.
  unfold isSessionValid, attempt, goto. rewrite am_bind_run.
  destruct (drv_goto driver (length (driven s)) (COURSE_URL config))
    as [dest|e]; simpl.
  - do 2 eexists. split; [reflexivity|]. simpl. repeat split; try done.
    + intros Hv. exists dest. by apply negb_true_iff in Hv.
    + intros (d & [= <-] & Hd). by rewrite Hd.
    + by intros d [= <-].
  - do 2 eexists. split; [reflexivity|]. simpl. repeat split; try done.
    by intros (d & Hd & _).
Qed.

Lemma loadCookies_run (s : Session) :
  ∃ loaded s',
    loadCookies driver s = (Normal loaded, s')
    ∧ cookies_file s' = cookies_file s
    ∧ location s' = location s
    ∧ requests (world s') = requests (world s)
    ∧ driven s' = driven s ++ restore_calls (cookies_file s)
    ∧ (loaded = true
       ↔ cookies_of (cookies_file s) ≠ []
         ∧ drv_setCookie driver (length (driven s)) (cookies_of (cookies_file s))
           = None).
Proof.
  unfold loadCookies, attempt, restore_calls. rewrite am_bind_run. simpl.
  rewrite am_bind_run. unfold lift.
  destruct (readJSON_cookies_value (cookies_file s) (world s))
    as (w' & -> & _ & Hreq & _).
  destruct (cookies_of (cookies_file s)) as [|cookie cookies]; simpl.
  - do 2 eexists. split; [reflexivity|]. simpl. rewrite app_nil_r.
    repeat split; try done. by intros [H _].
  - rewrite am_bind_run. unfold setCookie. simpl.
    destruct (drv_setCookie driver (length (driven s)) (cookie :: cookies))
      as [e|]; simpl.
    + do 2 eexists. split; [reflexivity|]. simpl.
      repeat split; try done. by intros [_ H].
    + do 2 eexists. split; [reflexivity|]. simpl. repeat split; done.
Qed.

Ltac login_stops :=
  simpl; do 3 eexists; (split; [reflexivity|]); simpl;
  (split; [by rewrite <- ?app_assoc|]);
  (split; [by eexists|]);
  (split; [apply list_elem_of_here|]);
  (split; [done|]);
  (split; [by intros [=]|]);
  (split; [by intros H|]);
  intros ? [= <-]; by eexists.

Lemma login_run (s : Session) :
  ∃ r s' calls,
    login driver config s = (r, s')
    ∧ driven s' = driven s ++ calls
    ∧ calls `prefix_of` login_calls config
    ∧ Goto (LOGIN_URL config) ∈ calls
    ∧ requests (world s') = requests (world s)
    ∧ (r = Normal tt →
       calls = login_calls config
       ∧ includes "sign_in" (location s') = false
       ∧ drv_write driver = Written
       ∧ drv_cookies driver (length (driven s) + 4)
         = Normal (cookies_of (cookies_file s'))
       ∧ cookies_file s' = Holds (cookies_of (cookies_file s')))
    ∧ (cookies_file s' ≠ cookies_file s → calls = login_calls config)
    ∧ (∀ e, r = Throw e →
         ∃ lines, console (world s') = lines ++ [("ERROR", "Login failed: " +:+ e)]).
Proof.
  unfold login. rewrite am_bind_run. simpl.
  unfold attempt. rewrite am_bind_run. unfold goto at 1. simpl.
  destruct (drv_goto driver (length (driven s)) (LOGIN_URL config)) as [d1|e];
    [|login_stops].
  rewrite am_bind_run. unfold type_into at 1. simpl.
  destruct (drv_type driver _ EMAIL_INPUT) as [e|]; [login_stops|].
  rewrite am_bind_run. unfold type_into at 1. simpl.
  destruct (drv_type driver _ PASSWORD_INPUT) as [e|]; [login_stops|].
  rewrite am_bind_run. unfold click_and_wait at 1. simpl.
  destruct (drv_submit driver _) as [d2|e]; [|login_stops].
  rewrite am_bind_run. simpl.
  destruct (includes "sign_in" d2) eqn:Hsign; [login_stops|].
  rewrite am_bind_run. simpl. rewrite am_bind_run. unfold page_cookies at 1.
  simpl.
  destruct (drv_cookies driver _) as [cookies|e] eqn:Hcookies; [|login_stops].
  rewrite !length_app in Hcookies. simpl in Hcookies.
  replace (length (driven s) + 1 + 1 + 1 + 1) with (length (driven s) + 4)
    in Hcookies by lia.
  unfold writeCookies, attempt.
  destruct (drv_write driver) as [|e residue]; simpl.
  - do 3 eexists. split; [reflexivity|]. simpl.
    split; [by rewrite <- !app_assoc|]. split; [done|].
    split; [apply list_elem_of_here|]. split; [done|].
    split; [done|]. split; [done|]. by intros e [=].
  - do 3 eexists. split; [reflexivity|]. simpl.
    split; [by rewrite <- !app_assoc|]. split; [done|].
    split; [apply list_elem_of_here|]. split; [done|].
    split; [by intros [=]|]. split; [done|].
    intros ? [= <-]. by eexists.
Qed.

(** X22.  When the page is back on a location with [sign_in] after the form
    is submitted, [login] throws [Login failed - check credentials or
    CAPTCHA presence]: the cookies of the page are not read and the cookie
    file is left as it was. *)
Theorem login_rejected_credentials (s : Session) (d dest : string) :
  drv_goto driver (length (driven s)) (LOGIN_URL config) = Lands d →
  drv_type driver (length (driven s) + 1) EMAIL_INPUT = None →
  drv_type driver (length (driven s) + 2) PASSWORD_INPUT = None →
  drv_submit driver (length (driven s) + 3) = Lands dest →
  includes "sign_in" dest = true →
  ∃ s',
    login driver config s
    = (Throw "Login failed - check credentials or CAPTCHA presence", s')
    ∧ cookies_file s' = cookies_file s
    ∧ driven s' = driven s ++ take 4 (login_calls config)
    ∧ ∃ lines,
        console (world s')
        = lines ++ [("ERROR", "Login failed: Login failed - check credentials or CAPTCHA presence")].
Proof.
  intros Hgoto Hemail Hpassword Hsubmit Hsign.
  replace (length (driven s) + 2) with (length (driven s) + 1 + 1)
    in Hpassword by lia.
  replace (length (driven s) + 3) with (length (driven s) + 1 + 1 + 1)
    in Hsubmit by lia.
  unfold login. rewrite am_bind_run. simpl.
  unfold attempt. rewrite am_bind_run. unfold goto at 1. simpl.
  rewrite Hgoto.
  rewrite am_bind_run. unfold type_into at 1. simpl.
  rewrite !length_app. simpl. rewrite Hemail.
  rewrite am_bind_run. unfold type_into at 1. simpl.
  rewrite !length_app. simpl. rewrite Hpassword.
  rewrite am_bind_run. unfold click_and_wait at 1. simpl.
  rewrite !length_app. simpl. rewrite Hsubmit.
  rewrite am_bind_run. simpl. rewrite Hsign. simpl.
  eexists. split; [reflexivity|]. simpl. split; [done|].
  split; [by rewrite <- !app_assoc|]. by eexists.
Qed.

Lemma login_then_course_run (s : Session) :
  ∃ r s' lcalls final,
    (login driver config ≫= λ _, goto driver (COURSE_URL config)) s = (r, s')
    ∧ driven s' = driven s ++ lcalls ++ final
    ∧ lcalls `prefix_of` login_calls config
    ∧ Goto (LOGIN_URL config) ∈ lcalls
    ∧ final `prefix_of` [Goto (COURSE_URL config)]
    ∧ requests (world s') = requests (world s)
    ∧ (final ≠ [] →
       lcalls = login_calls config
       ∧ drv_write driver = Written
       ∧ cookies_file s' = Holds (cookies_of (cookies_file s')))
    ∧ (cookies_file s' ≠ cookies_file s → lcalls = login_calls config)
    ∧ (r = Normal tt → final = [Goto (COURSE_URL config)]).
Proof.
  rewrite am_bind_run.
  destruct (login_run s)
    as (r1 & s1 & lcalls & -> & Hd & Hp & Hin & Hreq & Hok & Hfile & _).
  destruct r1 as [[]|e].
  - destruct (Hok eq_refl) as (Hall & _ & Hwrite & _ & Hholds).
    unfold goto.
    destruct (drv_goto driver (length (driven s1)) (COURSE_URL config))
      as [dest|e]; simpl.
    + exists (Normal tt). eexists. exists lcalls, [Goto (COURSE_URL config)].
      split; [reflexivity|]. simpl. rewrite Hd, <- app_assoc.
      repeat split; try done.
    + exists (Throw e). eexists. exists lcalls, [Goto (COURSE_URL config)].
      split; [reflexivity|]. simpl. rewrite Hd, <- app_assoc.
      repeat split; try done.
  - exists (Throw e), s1, lcalls, []. split; [done|].
    rewrite app_nil_r. repeat split; try done. by eexists.
Qed.

(** X23.  The calls of [ensureAuthenticated] are, in this order: the stored
    cookies being set, if there are any; the probe of the course url, if
    the cookies were set; an initial part of the login sequence, unless the
    probe found a valid session; the course url again after a login that
    succeeded.  So credentials are typed only inside a login, every error
    it throws comes from a login path, and the cookie file changes only
    through a complete login. *)
Theorem ensureAuthenticated_calls (s : Session) :
  ∃ r s' probe lcalls final,
    ensureAuthenticated driver config s = (r, s')
    ∧ driven s'
      = driven s ++ restore_calls (cookies_file s) ++ probe ++ lcalls ++ final
    ∧ probe `prefix_of` [Goto (COURSE_URL config)]
    ∧ lcalls `prefix_of` login_calls config
    ∧ final `prefix_of` [Goto (COURSE_URL config)]
    ∧ requests (world s') = requests (world s)
    ∧ (lcalls = [] →
       r = Normal tt ∧ probe = [Goto (COURSE_URL config)] ∧ final = []
       ∧ cookies_file s' = cookies_file s
       ∧ includes "sign_in" (location s') = false)
    ∧ (final ≠ [] →
       lcalls = login_calls config
       ∧ drv_write driver = Written
       ∧ cookies_file s' = Holds (cookies_of (cookies_file s')))
    ∧ (cookies_file s' ≠ cookies_file s → lcalls = login_calls config)
    ∧ (r = Normal tt → lcalls = [] ∨ final = [Goto (COURSE_URL config)]).
Proof.
  unfold ensureAuthenticated. rewrite am_bind_run.
  destruct (loadCookies_run s)
    as (loaded & s1 & -> & Hf1 & _ & Hr1 & Hd1 & _).
  assert (∀ (s2 : Session) (probe : list Call),
            driven s2 = driven s1 ++ probe →
            probe `prefix_of` [Goto (COURSE_URL config)] →
            cookies_file s2 = cookies_file s →
            requests (world s2) = requests (world s) →
            ∃ r s' lcalls final,
              (login driver config ≫= λ _, goto driver (COURSE_URL config)) s2
              = (r, s')
              ∧ driven s'
                = driven s ++ restore_calls (cookies_file s) ++ probe
                  ++ lcalls ++ final
              ∧ lcalls `prefix_of` login_calls config
              ∧ final `prefix_of` [Goto (COURSE_URL config)]
              ∧ requests (world s') = requests (world s)
              ∧ lcalls ≠ []
              ∧ (final ≠ [] →
                 lcalls = login_calls config
                 ∧ drv_write driver = Written
                 ∧ cookies_file s' = Holds (cookies_of (cookies_file s')))
              ∧ (cookies_file s' ≠ cookies_file s → lcalls = login_calls config)
              ∧ (r = Normal tt → final = [Goto (COURSE_URL config)]))
    as Hlogin.
  { intros s2 probe Hd2 Hp2 Hf2 Hr2.
    destruct (login_then_course_run s2)
      as (r & s' & lcalls & final & Hrun & Hd & Hp & Hin & Hfin & Hreq
          & Hfinal & Hfile & Hnormal).
    exists r, s', lcalls, final. split; [done|].
    split; [by rewrite Hd, Hd2, Hd1, <- !app_assoc|].
    split; [done|]. split; [done|]. split; [congruence|].
    split; [by intros ->; apply elem_of_nil in Hin|].
    split; [done|]. split; [by rewrite <- Hf2|]. done. }
  destruct loaded.
  - rewrite am_bind_run. rewrite am_bind_run.
    destruct (isSessionValid_run s1)
      as (valid & s2 & -> & Hd2 & Hf2 & Hr2 & Hvalid & Hlands).
    destruct valid; simpl.
    + destruct (proj1 Hvalid eq_refl) as (dest & Hdest & Hsign).
      pose proof (Hlands dest Hdest) as Hloc.
      exists (Normal tt), s2, [Goto (COURSE_URL config)], [], [].
      split; [done|].
      split; [by rewrite Hd2, Hd1, <- !app_assoc|].
      split; [done|]. split; [apply prefix_nil|]. split; [apply prefix_nil|].
      split; [congruence|].
      split; [intros _; repeat split; [congruence | by rewrite Hloc]|].
      split; [done|]. split; [by rewrite Hf2, Hf1|]. by left.
    + rewrite am_bind_run. simpl.
      match goal with
      | |- context [login driver config ?s3] =>
          destruct (Hlogin s3 [Goto (COURSE_URL config)])
            as (r & s' & lcalls & final & Hrun & Hd & Hp & Hfin & Hreq & Hne
                & Hfinal & Hfile & Hnormal); simpl; try congruence; try done
      end.
      rewrite am_bind_run in Hrun. simpl in Hrun. rewrite Hrun.
      exists r, s', [Goto (COURSE_URL config)], lcalls, final.
      split; [done|]. split; [done|]. split; [done|]. split; [done|].
      split; [done|]. split; [done|]. split; [by intros Hnil|].
      split; [done|]. split; [done|]. intros Hr. right. by apply Hnormal.
  - simpl.
    destruct (Hlogin s1 []) as (r & s' & lcalls & final & Hrun & Hd & Hp & Hfin
                               & Hreq & Hne & Hfinal & Hfile & Hnormal);
      try done; [by rewrite app_nil_r | apply prefix_nil |].
    rewrite am_bind_run.
    change ((mret true : AM bool) s1) with (Normal true, s1). cbv beta iota.
    rewrite Hrun.
    exists r, s', [], lcalls, final.
    split; [done|]. split; [done|]. split; [apply prefix_nil|]. split; [done|].
    split; [done|]. split; [done|]. split; [by intros Hnil|].
    split; [done|]. split; [done|]. intros Hr. right. by apply Hnormal.
Qed.

End authentication_facts.

(** X19.  [loadCookies] never throws and never changes the cookie file or
    the location of the page.  Without stored cookies (file missing,
    unreadable, malformed or empty) it asks nothing of the page; otherwise
    its only call sets exactly the stored cookies, and it answers [true]
    exactly when that call is accepted. *)
Theorem loadCookies_never_throws (driver : Driver) (s : Session) :
  ∃ loaded s',
    AuthenticationManager.loadCookies driver s = (Normal loaded, s')
    ∧ cookies_file s' = cookies_file s
    ∧ location s' = location s
    ∧ requests (world s') = requests (world s)
    ∧ driven s' = driven s ++ restore_calls (cookies_file s)
    ∧ (loaded = true
       ↔ cookies_of (cookies_file s) ≠ []
         ∧ drv_setCookie driver (length (driven s)) (cookies_of (cookies_file s))
           = None).
Proof. apply loadCookies_run. Qed.

(** X20.  [isSessionValid] never throws: it navigates once, to the course
    url, and answers [true] exactly when the navigation succeeds and ends
    at a location without [sign_in]; a failed navigation counts as an
    invalid session.  The cookie file is not touched. *)
Theorem isSessionValid_never_throws (driver : Driver) (config : AuthConfig)
    (s : Session) :
  ∃ valid s',
    AuthenticationManager.isSessionValid driver config s = (Normal valid, s')
    ∧ driven s' = driven s ++ [Goto (COURSE_URL config)]
    ∧ cookies_file s' = cookies_file s
    ∧ requests (world s') = requests (world s)
    ∧ (valid = true
       ↔ ∃ dest, drv_goto driver (length (driven s)) (COURSE_URL config) = Lands dest
                 ∧ includes "sign_in" dest = false)
    ∧ (∀ dest,
         drv_goto driver (length (driven s)) (COURSE_URL config) = Lands dest →
         location s' = dest).
Proof. apply isSessionValid_run. Qed.

(** X21.  The calls of [login] are an initial part of one fixed sequence:
    open the login url, type the email, type the password, submit, read the
    cookies.  It ends normally only after the whole sequence, at a location
    without [sign_in], and then the cookie file holds the cookies read from
    the page; the cookie file changes only when the whole sequence was
    made; an error is reported as [Login failed: ...] and thrown again. *)
Theorem login_outcome (driver : Driver) (config : AuthConfig) (s : Session) :
  ∃ r s' calls,
    AuthenticationManager.login driver config s = (r, s')
    ∧ driven s' = driven s ++ calls
    ∧ calls `prefix_of` login_calls config
    ∧ Goto (LOGIN_URL config) ∈ calls
    ∧ requests (world s') = requests (world s)
    ∧ (r = Normal tt →
       calls = login_calls config
       ∧ includes "sign_in" (location s') = false
       ∧ drv_write driver = Written
       ∧ drv_cookies driver (length (driven s) + 4)
         = Normal (cookies_of (cookies_file s'))
       ∧ cookies_file s' = Holds (cookies_of (cookies_file s')))
    ∧ (cookies_file s' ≠ cookies_file s → calls = login_calls config)
    ∧ (∀ e, r = Throw e →
         ∃ lines, console (world s') = lines ++ [("ERROR", "Login failed: " +:+ e)]).
Proof. apply login_run. Qed.

Lemma login_rejected_credentials_witness :
  (drv_goto (sample_driver "https://school.example/users/sign_in") 0
     (LOGIN_URL sample_auth_config)
   = Lands (LOGIN_URL sample_auth_config)
   ∧ includes "sign_in" "https://school.example/users/sign_in" = true)
  ∧ ∃ s',
      AuthenticationManager.login
        (sample_driver "https://school.example/users/sign_in")
        sample_auth_config (sample_session Missing)
      = (Throw "Login failed - check credentials or CAPTCHA presence", s')
      ∧ cookies_file s' = Missing.
Proof.
  split; [by split|].
  destruct (login_rejected_credentials
              (sample_driver "https://school.example/users/sign_in")
              sample_auth_config (sample_session Missing)
              (LOGIN_URL sample_auth_config)
              "https://school.example/users/sign_in"
              eq_refl eq_refl eq_refl eq_refl eq_refl)
    as (s' & Hrun & Hfile & _).
  exists s'. split; [exact Hrun | exact Hfile].
Defined.

(** X24.  With stored cookies that the page accepts and a probe that ends at
    a location without [sign_in], [ensureAuthenticated] ends normally after
    two calls, setting the cookies and opening the course url: no login is
    made, no credential is typed, and the cookie file is left as it was. *)
Theorem ensureAuthenticated_reuses_valid_session (driver : Driver)
    (config : AuthConfig) (s : Session) (dest : string) :
  cookies_of (cookies_file s) ≠ [] →
  drv_setCookie driver (length (driven s)) (cookies_of (cookies_file s)) = None →
  drv_goto driver (length (driven s) + 1) (COURSE_URL config) = Lands dest →
  includes "sign_in" dest = false →
  ∃ s',
    AuthenticationManager.ensureAuthenticated driver config s = (Normal tt, s')
    ∧ driven s'
      = driven s ++ [SetCookie (cookies_of (cookies_file s));
                     Goto (COURSE_URL config)]
    ∧ cookies_file s' = cookies_file s
    ∧ location s' = dest.
Proof.
  intros Hne Hset Hgoto Hsign.
  unfold AuthenticationManager.ensureAuthenticated. rewrite am_bind_run.
  destruct (loadCookies_run driver s)
    as (loaded & s1 & -> & Hf1 & _ & _ & Hd1 & Hloaded).
  assert (loaded = true) as -> by (by apply Hloaded).
  assert (restore_calls (cookies_file s)
          = [SetCookie (cookies_of (cookies_file s))]) as Hrestore.
  { unfold restore_calls. by destruct (cookies_of (cookies_file s)). }
  rewrite Hrestore in Hd1.
  rewrite am_bind_run, am_bind_run.
  destruct (isSessionValid_run driver config s1)
    as (valid & s2 & -> & Hd2 & Hf2 & _ & Hvalid & Hlands).
  assert (drv_goto driver (length (driven s1)) (COURSE_URL config) = Lands dest)
    as Hgoto1.
  { rewrite Hd1, length_app. simpl. exact Hgoto. }
  assert (valid = true) as -> by (apply Hvalid; by exists dest).
  simpl. exists s2. split; [done|].
  split; [by rewrite Hd2, Hd1, <- app_assoc|].
  split; [congruence | by apply Hlands].
Qed.

Lemma ensureAuthenticated_reuses_valid_session_witness :
  (cookies_of (cookies_file (sample_session (Holds [sample_cookie]))) ≠ []
   ∧ includes "sign_in" (COURSE_URL sample_auth_config) = false)
  ∧ ∃ s',
      AuthenticationManager.ensureAuthenticated
        (sample_driver "https://school.example/enrollments")
        sample_auth_config (sample_session (Holds [sample_cookie]))
      = (Normal tt, s')
      ∧ driven s'
        = [SetCookie [sample_cookie]; Goto (COURSE_URL sample_auth_config)].
Proof.
  split; [by split|].
  destruct (ensureAuthenticated_reuses_valid_session
              (sample_driver "https://school.example/enrollments")
              sample_auth_config (sample_session (Holds [sample_cookie]))
              (COURSE_URL sample_auth_config)
              ltac:(discriminate) eq_refl eq_refl eq_refl)
    as (s' & Hrun & Hdriven & _).
  exists s'. split; [exact Hrun | exact Hdriven].
Defined.

(** ** Items that share an id *)

(** X25.  Against their own snapshot the items never raise NEW; an UPDATE is
    raised for an item exactly when it is a video and the last item with the
    same id, the one the snapshot keeps, is a text.  Two such items are
    therefore announced again on every cycle. *)
Theorem events_against_own_snapshot
    (items : list Item) (a : Action) :
  a ∈ ChangeDetector.detectChanges items (ChangeDetector.updateDatabase items)
  ↔ act_type a = UPDATE
    ∧ ∃ item kept,
        items !! act_data a = Some item
        ∧ item_type item = VIDEO
        ∧ last (filter (λ other, item_id other = item_id item) items) = Some kept
        ∧ item_type kept = TEXT.
Proof.
  rewrite elem_of_detectChanges. unfold event_for.
  change (as_object (ChangeDetector.updateDatabase items))
    with (ChangeDetector.updateDatabase items).
  split.
  - intros (item & Hk & He).
    destruct (last_filter_is_Some items item) as [kept Hlast];
      [by eapply list_elem_of_lookup_2|].
    rewrite (updateDatabase_get items (item_id item) kept Hlast) in He.
    simpl in He. case_bool_decide as Hc; [|done]. injection He as <-.
    split; [done|]. destruct Hc as [Hkept Hitem]. by exists item, kept.
  - intros (Hty & item & kept & Hk & Hvideo & Hlast & Htext).
    exists item. split; [done|].
    rewrite (updateDatabase_get items (item_id item) kept Hlast). simpl.
    rewrite bool_decide_eq_true_2 by done. destruct a as [ty k]. simpl in *.
    by rewrite Hty.
Qed.
